(** * bmclib: the racadm job poller and the iDRAC8 configuration adapter

    A shallow embedding of three packages of the repository:

    - [racadm]: [parseJobId], [parsePercentComplete], [run], [GetJobQueue],
      the submit/poll state machine of [ChangeBiosCfg] and
      [SetBiosConfigurationFromFile];
    - [idrac8]: [escapeLdapString] and the configuration-apply operations
      [User], [Syslog], [Ntp], [Ldap], [LdapGroups], [Network],
      [GenerateCSR] and [UploadHTTPSCert];
    - [bmclib]: [Client.Open].

    Go strings are byte strings and are modelled by [string] (a list of
    8-bit [ascii] characters).  A Go [error] is a value of the inductive
    type [error]; [None : option error] is Go's [nil].  What the program
    obtains from the outside (the racadm subprocess, the HTTP transport,
    the timer and the context channels) is an explicit input of the model,
    and every command or request the program issues is appended to a
    trace. *)

From Stdlib Require Import String Ascii List ZArith Lia Bool.
From Stdlib Require Import DecimalString.
From Stdlib Require DecimalPos.
Import ListNotations.

Open Scope string_scope.
Open Scope list_scope.
Open Scope Z_scope.

(** String concatenation, Go's [+] on strings; [++] is kept for lists. *)
Infix "+:+" := String.append (at level 60, right associativity).

(** ** Errors *)

(** Go error values, by the way the program builds them. *)
Inductive error : Type :=
| errors_New (msg : string)
    (** [errors.New(msg)], and [fmt.Errorf] without a wrapping verb *)
| fmt_Errorf_w (msg : string) (cause : error)
    (** [fmt.Errorf(msg + "%w", cause)] *)
| strconv_NumError (func num : string) (cause : error).
    (** [&strconv.NumError{Func, Num, Err}] *)

Definition dq : string := String (ascii_of_N 34) EmptyString.

(** [err.Error()], the message of an error.  ([strconv.Quote] is taken
    on strings of printable ASCII without quote or backslash, which it
    only surrounds with quotes.) *)
Fixpoint Error (err : error) : string :=
  match err with
  | errors_New msg => msg
  | fmt_Errorf_w msg cause => msg +:+ Error cause
  | strconv_NumError func num cause =>
      "strconv." +:+ func +:+ ": parsing " +:+ dq +:+ num +:+ dq +:+ ": " +:+ Error cause
  end.

Definition ErrSyntax : error := errors_New "invalid syntax".
Definition ErrRange : error := errors_New "value out of range".

(** A Go computation either returns or panics at run time. *)
Inductive run_result (A : Type) : Type :=
| Done (a : A)
| Panic (reason : string).
Arguments Done {A} a.
Arguments Panic {A} reason.

(** ** The parts of the Go standard library the code relies on *)

Definition newline : ascii := "010"%char.

Definition byte_of (c : ascii) : Z := Z.of_N (N_of_ascii c).

Definition ascii_of (b : Z) : ascii := ascii_of_N (Z.to_N b).

Fixpoint string_of (bs : list Z) : string :=
  match bs with
  | [] => EmptyString
  | b :: bs' => String (ascii_of b) (string_of bs')
  end.

Definition len (s : string) : Z := Z.of_nat (String.length s).

Module strings.

(** [strings.HasPrefix(s, prefix)] *)
Fixpoint HasPrefix (s prefix : string) {struct prefix} : bool :=
  match prefix, s with
  | EmptyString, _ => true
  | String _ _, EmptyString => false
  | String p prefix', String c s' => Ascii.eqb c p && HasPrefix s' prefix'
  end.

(** [strings.Index(s, substr)]: the byte index of the first instance of
    [substr] in [s], or -1. *)
Fixpoint Index (s substr : string) : Z :=
  if HasPrefix s substr then 0
  else match s with
       | EmptyString => -1
       | String _ s' =>
           let i := Index s' substr in
           if i =? -1 then -1 else i + 1
       end.

(** [strings.Contains(s, substr)] is [Index(s, substr) >= 0]. *)
Definition Contains (s substr : string) : bool := 0 <=? Index s substr.

(** [strings.Split(s, sep)] for a separator of one byte: the substrings
    between the separators, one more than there are separators. *)
Fixpoint Split (s : string) (sep : ascii) : list string :=
  match s with
  | EmptyString => [EmptyString]
  | String c s' =>
      if Ascii.eqb c sep then EmptyString :: Split s' sep
      else match Split s' sep with
           | l :: ls => String c l :: ls
           | [] => [String c EmptyString]
           end
  end.

(** [strings.Join(elems, sep)] *)
Fixpoint Join (elems : list string) (sep : string) : string :=
  match elems with
  | [] => EmptyString
  | [a] => a
  | a :: rest => a +:+ sep +:+ Join rest sep
  end.

End strings.

(** The slice expression [s[lo:hi]] on a string: it panics unless
    [0 <= lo <= hi <= len(s)]. *)
Definition slice (s : string) (lo hi : Z) : run_result string :=
  if (0 <=? lo) && (lo <=? hi) && (hi <=? len s)
  then Done (substring (Z.to_nat lo) (Z.to_nat (hi - lo)) s)
  else Panic "slice bounds out of range".

Module strconv.

Definition intSize : Z := 64.
Definition maxInt : Z := 2 ^ (intSize - 1) - 1.
Definition minInt : Z := - 2 ^ (intSize - 1).

Definition isDigit (c : ascii) : bool :=
  (48 <=? byte_of c) && (byte_of c <=? 57).

(** The value of a non-empty run of decimal digits, most significant
    first; [None] on the empty string or on any other byte. *)
Fixpoint digitsFrom (acc : Z) (s : string) : option Z :=
  match s with
  | EmptyString => Some acc
  | String c s' =>
      if isDigit c then digitsFrom (acc * 10 + (byte_of c - 48)) s'
      else None
  end.

Definition digits (s : string) : option Z :=
  match s with
  | EmptyString => None
  | _ => digitsFrom 0 s
  end.

(** [strconv.Atoi(s)]: an optional sign and decimal digits; a syntax
    error on anything else, a range error (with the nearest bound as the
    value) outside of the [int] range. *)
Definition Atoi (s : string) : Z * option error :=
  let '(neg, body) :=
    match s with
    | String "-"%char r => (true, r)
    | String "+"%char r => (false, r)
    | _ => (false, s)
    end in
  match digits body with
  | None => (0, Some (strconv_NumError "Atoi" s ErrSyntax))
  | Some n =>
      let v := if neg then - n else n in
      if maxInt <? v then (maxInt, Some (strconv_NumError "Atoi" s ErrRange))
      else if v <? minInt then (minInt, Some (strconv_NumError "Atoi" s ErrRange))
      else (v, None)
  end.

(** [strconv.Itoa(i)], also the [%d] verb of [fmt.Sprintf]. *)
Definition Itoa (i : Z) : string := NilZero.string_of_int (Z.to_int i).

End strconv.

Module regexp.

(** The longest prefix of decimal digits ([\d] is [0-9]) and the rest. *)
Fixpoint spanDigits (s : string) : string * string :=
  match s with
  | EmptyString => (EmptyString, EmptyString)
  | String c s' =>
      if strconv.isDigit c
      then let '(ds, rest) := spanDigits s' in (String c ds, rest)
      else (EmptyString, s)
  end.

(** [s] without the literal [lit] in front, when it starts with it. *)
Fixpoint stripLiteral (lit s : string) {struct lit} : option string :=
  match lit, s with
  | EmptyString, _ => Some s
  | String _ _, EmptyString => None
  | String p lit', String c s' =>
      if Ascii.eqb c p then stripLiteral lit' s' else None
  end.

(** A match of [Percent Complete=\[(\d+)\]] that starts at the first byte
    of [s]: the literal, a greedy non-empty run of digits, then the
    closing bracket.  The result is the capture group. *)
Definition matchHere (s : string) : option string :=
  match stripLiteral "Percent Complete=[" s with
  | None => None
  | Some rest =>
      match spanDigits rest with
      | (String d ds, String "]"%char _) => Some (String d ds)
      | _ => None
      end
  end.

(** [regexp.MustCompile(`Percent Complete=\[(\d+)\]`).FindStringSubmatch(s)]:
    the leftmost match, as the matched text followed by the capture
    group, or the empty slice when nothing matches. *)
Fixpoint FindStringSubmatch (s : string) : list string :=
  match matchHere s with
  | Some ds => [ "Percent Complete=[" +:+ ds +:+ "]"; ds ]
  | None =>
      match s with
      | EmptyString => []
      | String _ s' => FindStringSubmatch s'
      end
  end.

End regexp.

Module time.

Definition Nanosecond : Z := 1.
Definition Microsecond : Z := 1000 * Nanosecond.
Definition Millisecond : Z := 1000 * Microsecond.
Definition Second : Z := 1000 * Millisecond.
Definition Minute : Z := 60 * Second.

Definition maxDuration : Z := 2 ^ 63 - 1.
Definition minDuration : Z := - 2 ^ 63.

(** An instant, in nanoseconds since the zero [time.Time]. *)
Definition Time : Type := Z.
Definition zeroTime : Time := 0.

(** [t.Sub(u)]: the difference as a [Duration], replaced by the largest
    or smallest duration when it does not fit. *)
Definition Sub (t u : Time) : Z :=
  let d := t - u in
  if maxDuration <? d then maxDuration
  else if d <? minDuration then minDuration
  else d.

(** [time.Until(t)] at the instant [now]. *)
Definition Until (now t : Time) : Z := Sub t now.

(** [fmtFrac]: the fraction of [v / 10^prec] without trailing zeros (and
    without the point when it is zero), and [v / 10^prec]. *)
Fixpoint fmtFrac (prec : nat) (v : Z) (print : bool) (acc : string) : string * Z :=
  match prec with
  | O => ((if print then "." +:+ acc else acc), v)
  | S prec' =>
      let digit := v mod 10 in
      let print := print || negb (digit =? 0) in
      let acc := if print then String (ascii_of (digit + 48)) acc else acc in
      fmtFrac prec' (v / 10) print acc
  end.

Definition fmtInt (v : Z) : string := strconv.Itoa v.

(** [d.String()] for a [Duration] [d], as in [72h3m0.5s]. *)
Definition String (d : Z) : string :=
  let neg := d <? 0 in
  let u := if neg then - d else d in
  let body :=
    if u <? Second then
      if u =? 0 then "0s"
      else if u <? Microsecond then
        let '(f, u') := fmtFrac 0 u false "" in fmtInt u' +:+ f +:+ "ns"
      else if u <? Millisecond then
        let '(f, u') := fmtFrac 3 u false "" in
        fmtInt u' +:+ f +:+ string_of [194; 181] +:+ "s"
      else
        let '(f, u') := fmtFrac 6 u false "" in fmtInt u' +:+ f +:+ "ms"
    else
      let '(f, u1) := fmtFrac 9 u false "" in
      let secs := fmtInt (u1 mod 60) +:+ f +:+ "s" in
      let u2 := u1 / 60 in
      if 0 <? u2 then
        let mins := fmtInt (u2 mod 60) +:+ "m" in
        let u3 := u2 / 60 in
        if 0 <? u3 then fmtInt u3 +:+ "h" +:+ mins +:+ secs else mins +:+ secs
      else secs in
  if neg then "-" +:+ body else body.

End time.

Module utf8.

Definition RuneError : Z := 0xFFFD.
Definition MaxRune : Z := 0x10FFFF.

(** The length of the encoding that the first byte [b0] announces; 0 when
    no encoding starts with [b0]. *)
Definition size (b0 : Z) : Z :=
  if b0 <? 0x80 then 1
  else if b0 <? 0xC2 then 0
  else if b0 <? 0xE0 then 2
  else if b0 <? 0xF0 then 3
  else if b0 <? 0xF5 then 4
  else 0.

(** The bounds of the second byte, by the first. *)
Definition acceptLo (b0 : Z) : Z :=
  if b0 =? 0xE0 then 0xA0 else if b0 =? 0xF0 then 0x90 else 0x80.
Definition acceptHi (b0 : Z) : Z :=
  if b0 =? 0xED then 0x9F else if b0 =? 0xF4 then 0x8F else 0xBF.

Definition accepts (b0 b1 : Z) : bool :=
  (acceptLo b0 <=? b1) && (b1 <=? acceptHi b0).

(** A continuation byte, [10xxxxxx]. *)
Definition cont (b : Z) : bool := (0x80 <=? b) && (b <=? 0xBF).

Definition rune2 (b0 b1 : Z) : Z :=
  Z.lor (Z.shiftl (Z.land b0 0x1F) 6) (Z.land b1 0x3F).
Definition rune3 (b0 b1 b2 : Z) : Z :=
  Z.lor (Z.lor (Z.shiftl (Z.land b0 0x0F) 12) (Z.shiftl (Z.land b1 0x3F) 6))
        (Z.land b2 0x3F).
Definition rune4 (b0 b1 b2 b3 : Z) : Z :=
  Z.lor (Z.lor (Z.lor (Z.shiftl (Z.land b0 0x07) 18) (Z.shiftl (Z.land b1 0x3F) 12))
               (Z.shiftl (Z.land b2 0x3F) 6))
        (Z.land b3 0x3F).

(** The runes that [for _, c := range s] goes through: each step decodes
    one rune as [utf8.DecodeRuneInString] does, and a byte that starts no
    well-formed encoding yields [RuneError] and is skipped alone. *)
Fixpoint runes (s : string) : list Z :=
  match s with
  | EmptyString => []
  | String c0 s1 =>
      let b0 := byte_of c0 in
      if b0 <? 0x80 then b0 :: runes s1
      else if size b0 =? 0 then RuneError :: runes s1
      else
        match s1 with
        | EmptyString => RuneError :: runes s1
        | String c1 s2 =>
            let b1 := byte_of c1 in
            if negb (accepts b0 b1) then RuneError :: runes s1
            else if size b0 =? 2 then rune2 b0 b1 :: runes s2
            else
              match s2 with
              | EmptyString => RuneError :: runes s1
              | String c2 s3 =>
                  let b2 := byte_of c2 in
                  if negb (cont b2) then RuneError :: runes s1
                  else if size b0 =? 3 then rune3 b0 b1 b2 :: runes s3
                  else
                    match s3 with
                    | EmptyString => RuneError :: runes s1
                    | String c3 s4 =>
                        let b3 := byte_of c3 in
                        if negb (cont b3) then RuneError :: runes s1
                        else rune4 b0 b1 b2 b3 :: runes s4
                    end
              end
        end
  end.

(** [utf8.AppendRune(nil, r)]: the bytes of the encoding of [r]; a value
    that is no Unicode scalar value is encoded as [RuneError]. *)
Definition encodeRune (r : Z) : list Z :=
  if (0 <=? r) && (r <=? 0x7F) then [r]
  else if (0 <=? r) && (r <=? 0x7FF) then
    [Z.lor 0xC0 (Z.shiftr r 6); Z.lor 0x80 (Z.land r 0x3F)]
  else if (r <? 0) || (MaxRune <? r) || ((0xD800 <=? r) && (r <=? 0xDFFF)) then
    [0xEF; 0xBF; 0xBD]
  else if r <=? 0xFFFF then
    [Z.lor 0xE0 (Z.shiftr r 12);
     Z.lor 0x80 (Z.land (Z.shiftr r 6) 0x3F);
     Z.lor 0x80 (Z.land r 0x3F)]
  else
    [Z.lor 0xF0 (Z.shiftr r 18);
     Z.lor 0x80 (Z.land (Z.shiftr r 12) 0x3F);
     Z.lor 0x80 (Z.land (Z.shiftr r 6) 0x3F);
     Z.lor 0x80 (Z.land r 0x3F)].

(** The conversion [string(r)] of a rune. *)
Definition string_of_rune (r : Z) : string := string_of (encodeRune r).

End utf8.

Module url.

Definition isAlnum (c : ascii) : bool :=
  let b := byte_of c in
  ((97 <=? b) && (b <=? 122)) || ((65 <=? b) && (b <=? 90)) || ((48 <=? b) && (b <=? 57)).

(** [shouldEscape(c, encodeQueryComponent)]: everything but the unreserved
    characters is escaped. *)
Definition shouldEscape (c : ascii) : bool :=
  negb (isAlnum c
        || Ascii.eqb c "-" || Ascii.eqb c "_" || Ascii.eqb c "." || Ascii.eqb c "~").

Definition upperhex (n : Z) : ascii :=
  match String.get (Z.to_nat n) "0123456789ABCDEF" with
  | Some c => c
  | None => "0"%char
  end.

(** [url.QueryEscape(s)] *)
Fixpoint QueryEscape (s : string) : string :=
  match s with
  | EmptyString => EmptyString
  | String c s' =>
      (if Ascii.eqb c " " then "+"
       else if shouldEscape c then
         String "%" (String (upperhex (Z.shiftr (byte_of c) 4))
                            (String (upperhex (Z.land (byte_of c) 15)) EmptyString))
       else String c EmptyString) +:+ QueryEscape s'
  end.

End url.

(** ** Package racadm *)

Module racadm.

(** tickerInterval is the interval for the ticker *)
Definition tickerInterval : Z := 30 * time.Second.
(** timeout is the timeout for the job queue *)
Definition timeout : Z := (14 * time.Minute) + (30 * time.Second).
(** maxErrors is the maximum number of errors before failing *)
Definition maxErrors : Z := 3.

Record Racadm : Type := {
  Host : string;
  Username : string;
  Password : string
}.

(** What [Executor.ExecWithContext] hands back: a result that may be nil,
    and an error that may be nil. *)
Record Result : Type := { Stdout : string; Stderr : string }.
Definition exec_result : Type := (option Result * option error)%type.

(** The argument vectors handed to the executor, oldest first. *)
Definition trace : Type := list (list string).

Definition racadmArgs (s : Racadm) (command : string)
    (additionalArgs : list string) : list string :=
  ["-r"; Host s; "-u"; Username s; "-p"; Password s; "--nocertwarn"; command]
    ++ additionalArgs.

(** [run]: one invocation of the racadm binary.  [res] is what the
    executor returns for it. *)
Definition run (s : Racadm) (command : string) (additionalArgs : list string)
    (res : exec_result) (tr : trace) : (string * option error) * trace :=
  let tr' := tr ++ [racadmArgs s command additionalArgs] in
  match res with
  | (None, err) => (("", err), tr')
  | (Some result, Some err) => ((Stderr result, Some err), tr')
  | (Some result, None) => ((Stdout result, None), tr')
  end.

Definition GetJobQueue (s : Racadm) (jobID : string)
    (res : exec_result) (tr : trace) : (string * option error) * trace :=
  match run s "jobqueue" ["view"; "-i"; jobID] res tr with
  | ((_, Some err), tr') => (("", Some err), tr')
  | ((output, None), tr') => ((output, None), tr')
  end.

(** The body of the loop of [parseJobId], over the lines still to be
    visited. *)
Fixpoint parseJobId_lines (lines : list string)
    : run_result (string * option error) :=
  match lines with
  | [] => Done ("", Some (errors_New "failed to find JobID in output"))
  | line :: rest =>
      if strings.Contains line "JID_" then
        let idx := strings.Index line "JID_" in
        if negb (idx =? -1) then
          match slice line idx (idx + 16) with
          | Done jobId => Done (jobId, None)
          | Panic reason => Panic reason
          end
        else parseJobId_lines rest
      else parseJobId_lines rest
  end.

Definition parseJobId (message : string) : run_result (string * option error) :=
  parseJobId_lines (strings.Split message newline).

Fixpoint parsePercentComplete_lines (lines : list string) : Z * option error :=
  match lines with
  | [] => (0, Some (errors_New "failed to find Percent Complete in output"))
  | line :: rest =>
      if strings.HasPrefix line "Percent Complete=[" then
        let matches := regexp.FindStringSubmatch line in
        match matches with
        | [_; m1] =>
            match strconv.Atoi m1 with
            | (_, Some err) =>
                (0, Some (fmt_Errorf_w "failed to parse percent complete: " err))
            | (percentComplete, None) => (percentComplete, None)
            end
        | _ =>
            (0, Some (errors_New
               ("failed to extract Percent Complete using regex: " +:+ line)))
        end
      else parsePercentComplete_lines rest
  end.

Definition parsePercentComplete (message : string) : Z * option error :=
  parsePercentComplete_lines (strings.Split message newline).

(** What the [select] of the poll loop can wake on. *)
Inductive event : Type :=
| CtxDone (err : error)      (** [<-ctx.Done()], with [ctx.Err()] *)
| TimeoutFired               (** [<-timeout] *)
| Tick (res : exec_result).  (** [<-ticker.C], with what the status query yields *)

(** Where a call stands once the given events are used up: it has
    returned, it has panicked, or it is blocked in the [select] with the
    given [errorCount]. *)
Inductive status : Type :=
| Returned (err : option error)
| Panicked (reason : string)
| Blocked (errorCount : Z).

(** One wake-up of the [select], from the state [errorCount]. *)
Definition pollStep (s : Racadm) (jobID : string) (errorCount : Z)
    (ev : event) (tr : trace) : status * trace :=
  match ev with
  | CtxDone cerr =>
      (Returned (Some (fmt_Errorf_w
         "context canceled while waiting for job completion: " cerr)), tr)
  | TimeoutFired =>
      (Returned (Some (errors_New
         "timeout exceeded while waiting for job to complete")), tr)
  | Tick res =>
      match GetJobQueue s jobID res tr with
      | ((_, Some err), tr') =>
          let errorCount := errorCount + 1 in
          if maxErrors <=? errorCount then
            (Returned (Some (fmt_Errorf_w
               "exceeded maximum consecutive errors while waiting for job completion: "
               err)), tr')
          else (Blocked errorCount, tr')
      | ((output, None), tr') =>
          match parsePercentComplete output with
          | (_, Some err) =>
              let errorCount := errorCount + 1 in
              if maxErrors <=? errorCount then
                (Returned (Some (fmt_Errorf_w
                   "exceeded maximum consecutive errors while parsing percent complete: "
                   err)), tr')
              else (Blocked errorCount, tr')
          | (percentComplete, None) =>
              (* Reset error count on successful read *)
              let errorCount := 0 in
              if percentComplete =? 100 then (Returned None, tr')
              else (Blocked errorCount, tr')
          end
      end
  end.

(** The [for { select { ... } }] loop of [ChangeBiosCfg]. *)
Fixpoint pollLoop (s : Racadm) (jobID : string) (errorCount : Z)
    (evs : list event) (tr : trace) : status * trace :=
  match evs with
  | [] => (Blocked errorCount, tr)
  | ev :: evs' =>
      match pollStep s jobID errorCount ev tr with
      | (Blocked errorCount', tr') => pollLoop s jobID errorCount' evs' tr'
      | final => final
      end
  end.

(** A context, as far as [ChangeBiosCfg] looks at it before the loop:
    its deadline, if it has one. *)
Record Context : Type := { deadline : option time.Time }.

(** [d, _ := ctx.Deadline()]: the zero [Time] when no deadline is set. *)
Definition Deadline (ctx : Context) : time.Time :=
  match deadline ctx with
  | Some d => d
  | None => time.zeroTime
  end.

(** [ChangeBiosCfg(ctx, cfgFile)], called at the instant [now]; [setRes]
    is what the executor returns for the submission, [evs] what the
    [select] of the poll loop wakes on, in order. *)
Definition ChangeBiosCfg (s : Racadm) (ctx : Context) (now : time.Time)
    (cfgFile : string) (setRes : exec_result) (evs : list event)
    : status * trace :=
  let args := ["-t"; "xml"; "-f"; cfgFile] in
  (* check if there is enough time left in the context *)
  let d := Deadline ctx in
  if time.Until now d <? timeout then
    (Returned (Some (errors_New
       ("remaining context deadline (minimum: " +:+ time.String timeout +:+
        ") insufficient to perform update, remaining: " +:+
        time.String (time.Until now d)))), [])
  else
    match run s "set" args setRes [] with
    | ((_, Some err), tr) =>
        (Returned (Some (fmt_Errorf_w "failed to execute racadm set command: " err)), tr)
    | ((output, None), tr) =>
        match parseJobId output with
        | Panic reason => (Panicked reason, tr)
        | Done (_, Some err) =>
            (Returned (Some (fmt_Errorf_w "failed to parse JobID: " err)), tr)
        | Done (jobID, None) =>
            pollLoop s jobID 0 evs tr
        end
    end.

(** The calls of [SetBiosConfigurationFromFile] into the file system. *)
Inductive fileOp : Type :=
| CreateTemp (dir pattern : string)   (** [os.CreateTemp(dir, pattern)] *)
| WriteString (name content : string) (** [file.WriteString(content)] *)
| Close (name : string)               (** [file.Close()] *)
| Remove (name : string).             (** [os.Remove(name)] *)

(** What the file system answers to them: the name of the temporary file
    or the error of [os.CreateTemp], and the errors of [WriteString] and
    of [Close], if any.  ([os.Remove] is deferred and its result is
    dropped.) *)
Record tempFile : Type := {
  created : string * option error;
  written : option error;
  closed : option error
}.

(** [SetBiosConfigurationFromFile(ctx, cfg)].  The deferred [os.Remove]
    runs when the function returns or panics; it has not run while
    [ChangeBiosCfg] is still blocked in its loop. *)
Definition SetBiosConfigurationFromFile (s : Racadm) (ctx : Context) (now : time.Time)
    (cfg : string) (fs : tempFile) (setRes : exec_result) (evs : list event)
    : status * trace * list fileOp :=
  (* Open tmp file to hold cfg *)
  match created fs with
  | (_, Some err) => (Returned (Some err), [], [CreateTemp "" "bmclib"])
  | (name, None) =>
      let ops := [CreateTemp "" "bmclib"; WriteString name cfg] in
      match written fs with
      | Some err => (Returned (Some err), [], ops ++ [Remove name])
      | None =>
          match closed fs with
          | Some err => (Returned (Some err), [], ops ++ [Close name; Remove name])
          | None =>
              match ChangeBiosCfg s ctx now name setRes evs with
              | (Blocked errorCount, tr) =>
                  (Blocked errorCount, tr, ops ++ [Close name])
              | (final, tr) => (final, tr, ops ++ [Close name; Remove name])
              end
          end
      end
  end.

End racadm.





(** ** Package cfgresources *)

(** The configuration records handed to the adapter.  They are declared
    in package [cfgresources], outside of the two packages embedded here;
    each record has the fields that the adapter reads. *)
Module cfgresources.

Record User : Type := {
  User_Name : string;
  User_Password : string;
  User_Role : string;
  User_Enable : bool
}.

Record Syslog : Type := {
  Syslog_Server : string;
  Syslog_Port : Z;
  Syslog_Enable : bool
}.

Record Ntp : Type := {
  Ntp_Enable : bool;
  Ntp_Server1 : string;
  Ntp_Server2 : string;
  Ntp_Server3 : string;
  Ntp_Timezone : string
}.

Record Ldap : Type := {
  Ldap_Server : string;
  Ldap_Port : Z;
  Ldap_BaseDn : string;
  Ldap_UserAttribute : string;
  Ldap_GroupAttribute : string;
  Ldap_BindDn : string;
  Ldap_SearchFilter : string
}.

Record LdapGroup : Type := {
  LdapGroup_Role : string;
  LdapGroup_Group : string;
  LdapGroup_GroupBaseDn : string;
  LdapGroup_Enable : bool
}.

Record Network : Type := {
  Network_DNSFromDHCP : bool;
  Network_IpmiEnable : bool;
  Network_SolEnable : bool
}.

Record HTTPSCertAttributes : Type := {
  CommonName : string;
  OrganizationName : string;
  OrganizationUnit : string;
  Locality : string;
  StateName : string;
  CountryCode : string;
  Email : string;
  SubjectAltName : string
}.

End cfgresources.

(** ** Package idrac8 *)

Module idrac8.

Import cfgresources.

Record IDrac8 : Type := { ip : string; st1 : string }.

(** The Go type [User] of the package: one account of the device's user
    table. *)
Record User_t : Type := {
  UserName : string;
  Password : string;
  Enable : string;
  SolEnable : string;
  Privilege : string;
  IpmiLanPrivilege : string
}.

(** The Go type [UserInfo], a [map[int]User]. *)
Definition UserInfo : Type := list (Z * User_t).

(** The Go type [Syslog] of the package, the payload of the syslog call. *)
Record Syslog_t : Type := {
  Port : string;
  Server1 : string;
  Server2 : string;
  Server3 : string;
  Enable_ : string
}.

(** What goes over the network, in the order it is sent. *)
Inductive call : Type :=
| GET (endpoint : string)
| POST (endpoint data contentType : string)
| PUT (endpoint payload : string)
| QueryUsers
| PutUser (userID : Z) (userInfo : User_t).

Inductive logLevel : Type :=
| Info
| ErrorLevel (err : option error).

Record logEntry : Type := {
  level : logLevel;
  message : string;
  keysAndValues : list (string * string)
}.

(** The state that an operation of the adapter acts on: the calls it has
    made and the entries it has logged, oldest first. *)
Record World : Type := { calls : list call; log : list logEntry }.

Definition emptyWorld : World := {| calls := []; log := [] |}.

(** The surroundings of the functions modelled here: the device at the
    other end of the transport, which answers each call (possibly depending
    on the calls before it), and the functions, constants and encoders
    that these functions call and that are declared in other files of the
    package, in package [internal] or in the Go library. *)
Record Env : Type := {
  (** [i.get], [i.post] and [i.put]: status code, body, error *)
  http : list call -> call -> Z * string * option error;
  (** [i.queryUsers()] and [i.putUser(userID, userInfo)] *)
  queryUsers_result : list call -> UserInfo * option error;
  putUser_result : list call -> Z -> User_t -> option error;
  HardwareType : string;
  WhosCalling : string -> string;
  ValidateUserConfig : list cfgresources.User -> option error;
  IsRoleValid : string -> bool;
  userInIdrac : string -> UserInfo -> Z * User_t * bool;
  getEmptyUserSlot : UserInfo -> Z * User_t * option error;
  setAlertFilterPayload : string;
  json_Marshal_Syslog : Syslog_t -> string * option error;
  (** the multipart form of the certificate and its content type, or the
      error of [CreateFormFile] or [io.Copy] *)
  multipartForm : string -> string -> string * string * option error;
  (** [json.Unmarshal(body, certStore)], giving [certStore.File] *)
  json_Unmarshal_certStore : string -> string * option error;
  json_Marshal_string : string -> string * option error
}.

(** *** The state monad of the adapter *)

Definition M (A : Type) : Type := World -> A * World.

Definition ret {A : Type} (a : A) : M A := fun w => (a, w).

Definition bind {A B : Type} (m : M A) (k : A -> M B) : M B :=
  fun w => let '(a, w') := m w in k a w'.

Notation "x <- m ;; k" := (bind m (fun x => k))
  (at level 61, m at next level, right associativity).
Notation "' pat <- m ;; k" := (bind m (fun x => match x with pat => k end))
  (at level 61, pat pattern, m at next level, right associativity).
Notation "m ;; k" := (bind m (fun _ => k))
  (at level 61, right associativity).

Definition logInfo (msg : string) (kv : list (string * string)) : M unit :=
  fun w => (tt, {| calls := calls w;
                   log := log w ++ [{| level := Info; message := msg;
                                       keysAndValues := kv |}] |}).

Definition logError (err : option error) (msg : string)
    (kv : list (string * string)) : M unit :=
  fun w => (tt, {| calls := calls w;
                   log := log w ++ [{| level := ErrorLevel err; message := msg;
                                       keysAndValues := kv |}] |}).

Definition send (E : Env) (c : call) : M (Z * string * option error) :=
  fun w => (http E (calls w) c, {| calls := calls w ++ [c]; log := log w |}).

Definition get (E : Env) (endpoint : string) : M (Z * string * option error) :=
  send E (GET endpoint).

Definition post (E : Env) (endpoint data contentType : string)
    : M (Z * string * option error) :=
  send E (POST endpoint data contentType).

Definition put (E : Env) (endpoint payload : string)
    : M (Z * string * option error) :=
  send E (PUT endpoint payload).

Definition queryUsers (E : Env) : M (UserInfo * option error) :=
  fun w => (queryUsers_result E (calls w),
            {| calls := calls w ++ [QueryUsers]; log := log w |}).

Definition putUser (E : Env) (userID : Z) (userInfo : User_t) : M (option error) :=
  fun w => (putUser_result E (calls w) userID userInfo,
            {| calls := calls w ++ [PutUser userID userInfo]; log := log w |}).

Definition isEmpty (s : string) : bool := String.eqb s "".

(** *** escapeLdapString *)

Definition escapeRune (r : string) (c : Z) : string :=
  if c =? 61 (* '=' *) then r +:+ "%5C%3D"
  else if c =? 44 (* ',' *) then r +:+ "%5C%2C"
  else r +:+ utf8.string_of_rune c.

Definition escapeLdapString (s : string) : string :=
  fold_left escapeRune (utf8.runes s) "".


(** *** User *)

Definition stdKV (E : Env) (i : IDrac8) : list (string * string) :=
  [("IP", ip i); ("HardwareType", HardwareType E)].

(** One round of the loop of [User] for [cfgUser]; [err] is the function's
    result variable [err] as the previous rounds left it, and the result
    is that variable at the end of the round. *)
Definition userRound (E : Env) (i : IDrac8) (idracUsers : UserInfo)
    (err : option error) (cfgUser : cfgresources.User) : M (option error) :=
  let '(userID, userInfo, uExists) := userInIdrac E (User_Name cfgUser) idracUsers in
  let applied :=
    logInfo "User parameters applied."
      (stdKV E i ++ [("User", User_Name cfgUser)]) in
  if User_Enable cfgUser then
    (* New user? Add them. *)
    let '(userID, userInfo, err) :=
      if negb uExists then getEmptyUserSlot E idracUsers
      else (userID, userInfo, err) in
    match (if negb uExists then err else None) with
    | Some slotErr =>
        logError (Some slotErr) "Unable to add new User."
          (stdKV E i ++ [("step", WhosCalling E "User"); ("User", User_Name cfgUser)]) ;;
        ret (Some slotErr)
    | None =>
        let admin := String.eqb (User_Role cfgUser) "admin" in
        let userInfo :=
          {| UserName := User_Name cfgUser;
             Password := User_Password cfgUser;
             Enable := "Enabled";
             SolEnable := "Enabled";
             Privilege := if admin then "511" else "499";
             IpmiLanPrivilege := if admin then "Administrator" else "Operator" |} in
        err <- putUser E userID userInfo ;;
        match err with
        | Some putErr =>
            logError (Some putErr) "User(): Add/Update user request failed."
              (stdKV E i ++ [("step", WhosCalling E "User"); ("User", User_Name cfgUser)]) ;;
            ret (Some putErr)
        | None => applied ;; ret None
        end
    end
  else if uExists then
    (* User exists but is disabled in our config? Remove them. *)
    let userInfo :=
      {| UserName := User_Name cfgUser;
         Password := Password userInfo;
         Enable := "Disabled";
         SolEnable := "Disabled";
         Privilege := "0";
         IpmiLanPrivilege := "No Access" |} in
    err <- putUser E userID userInfo ;;
    match err with
    | Some putErr =>
        logError (Some putErr) "User(): Disable user request failed."
          (stdKV E i ++ [("step", WhosCalling E "User"); ("User", User_Name cfgUser)])
    | None => ret tt
    end ;;
    applied ;; ret err
  else applied ;; ret err.

(** The loop [for _, cfgUser := range cfgUsers]. *)
Fixpoint userLoop (E : Env) (i : IDrac8) (idracUsers : UserInfo)
    (err : option error) (cfgUsers : list cfgresources.User) : M (option error) :=
  match cfgUsers with
  | [] => ret err
  | cfgUser :: rest =>
      err' <- userRound E i idracUsers err cfgUser ;;
      userLoop E i idracUsers err' rest
  end.

Definition User (E : Env) (i : IDrac8) (cfgUsers : list cfgresources.User)
    : M (option error) :=
  match ValidateUserConfig E cfgUsers with
  | Some verr =>
      let msg := "User config validation failed: " +:+ Error verr in
      let err := errors_New msg in
      logError (Some err) msg ([("step", "applyUserParams")] ++ stdKV E i) ;;
      ret (Some err)
  | None =>
      '(idracUsers, qerr) <- queryUsers E ;;
      match qerr with
      | Some _ =>
          let msg := "Unable to query existing users." in
          let err := errors_New msg in
          logError (Some err) msg ([("step", "applyUserParams")] ++ stdKV E i) ;;
          ret (Some err)
      | None => userLoop E i idracUsers None cfgUsers
      end
  end.

(** *** Syslog *)

Definition Syslog (E : Env) (i : IDrac8) (cfg : cfgresources.Syslog)
    : M (option error) :=
  if isEmpty (Syslog_Server cfg) then
    logInfo "Syslog resource expects parameter: Server."
      [("step", WhosCalling E "Syslog")] ;;
    ret None
  else
    port <- (if Syslog_Port cfg =? 0 then
               logInfo "Syslog resource port set to default: 514."
                 [("step", WhosCalling E "Syslog")] ;;
               ret 514
             else ret (Syslog_Port cfg)) ;;
    enable <- (if negb (Syslog_Enable cfg) then
                 logInfo "Syslog resource declared with enable: false."
                   [("step", WhosCalling E "Syslog")] ;;
                 ret "Disabled"
               else ret "Enabled") ;;
    let data :=
      {| Port := strconv.Itoa port;
         Server1 := Syslog_Server cfg;
         Server2 := "";
         Server3 := "";
         Enable_ := enable |} in
    match json_Marshal_Syslog E data with
    | (_, Some err) =>
        logError (Some err) "Unable to marshal syslog payload."
          [("step", WhosCalling E "Syslog")] ;;
        ret (Some err)
    | (payload, None) =>
        let endpoint := "sysmgmt/2012/server/configgroup/iDRAC.SysLog" in
        '(response, _, err) <- put E endpoint payload ;;
        match err with
        | Some e =>
            logError (Some e) "request to set syslog configuration failed."
              [("endpoint", endpoint); ("step", WhosCalling E "Syslog");
               ("response", strconv.Itoa response)] ;;
            ret (Some e)
        | None =>
            (* enable alerts *)
            let endpoint := "data?set=alertStatus:1" in
            '(response, _, err) <- post E endpoint "" "" ;;
            match err with
            | Some e =>
                logError (Some e) "request to enable alerts failed."
                  [("endpoint", endpoint); ("step", WhosCalling E "Syslog");
                   ("response", strconv.Itoa response)] ;;
                ret (Some e)
            | None =>
                (* setup alert filters *)
                let endpoint := "data?set=" +:+ setAlertFilterPayload E in
                '(response, _, err) <- post E endpoint "" "" ;;
                match err with
                | Some e =>
                    logError (Some e) "request to set alerts filter configuration failed."
                      [("endpoint", endpoint); ("step", WhosCalling E "Syslog");
                       ("response", strconv.Itoa response)] ;;
                    ret (Some e)
                | None =>
                    logInfo "Syslog parameters applied." (stdKV E i) ;;
                    ret None
                end
            end
        end
    end.

(** *** Ntp *)

(** The message of the error that the GET calls make up for a status code
    other than 200. *)
Definition non200 (endpoint : string) : error :=
  errors_New ("Received a non-200 status code from the GET request to " +:+
              endpoint +:+ ".").

Definition applyTimezoneParam (E : Env) (i : IDrac8) (timezone : string) : M unit :=
  let endpoint := "data?set=tm_tz_str_zone:" +:+ timezone in
  '(statusCode, response, err) <- get E endpoint ;;
  (if (match err with Some _ => true | None => false end) || negb (statusCode =? 200)
   then
     let err := match err with Some e => e | None => non200 endpoint end in
     logError (Some err) "applyTimezoneParam(): GET request failed."
       (stdKV E i ++ [("endpoint", endpoint); ("StatusCode", strconv.Itoa statusCode);
                      ("step", WhosCalling E "applyTimezoneParam");
                      ("response", response)])
   else ret tt) ;;
  logInfo "Timezone param applied." (stdKV E i).

Definition applyNtpServerParam (E : Env) (i : IDrac8) (cfg : cfgresources.Ntp)
    : M unit :=
  enable <- (if negb (Ntp_Enable cfg) then
               logInfo "Ntp resource declared with enable: false."
                 [("step", WhosCalling E "applyNtpServerParam")] ;;
               ret 0
             else ret 1) ;;
  let queryStr := "set=tm_ntp_int_opmode:" +:+ strconv.Itoa enable +:+ "," in
  let queryStr := queryStr +:+ "tm_ntp_str_server1:" +:+ Ntp_Server1 cfg +:+ "," in
  let queryStr := queryStr +:+ "tm_ntp_str_server2:" +:+ Ntp_Server2 cfg +:+ "," in
  let queryStr := queryStr +:+ "tm_ntp_str_server3:" +:+ Ntp_Server3 cfg +:+ "," in
  let endpoint := "data?" +:+ queryStr in
  '(statusCode, response, err) <- get E endpoint ;;
  (if (match err with Some _ => true | None => false end) || negb (statusCode =? 200)
   then
     let err := match err with Some e => e | None => non200 endpoint end in
     logError (Some err) "applyNtpServerParam(): GET request failed."
       (stdKV E i ++ [("endpoint", endpoint); ("StatusCode", strconv.Itoa statusCode);
                      ("step", WhosCalling E "applyNtpServerParam");
                      ("response", response)])
   else ret tt) ;;
  logInfo "NTP servers param applied." (stdKV E i).

Definition Ntp (E : Env) (i : IDrac8) (cfg : cfgresources.Ntp) : M (option error) :=
  let err : option error := None in
  if isEmpty (Ntp_Server1 cfg) then
    logInfo "NTP resource expects parameter: server1." [("step", "apply-ntp-cfg")] ;;
    ret err
  else if isEmpty (Ntp_Timezone cfg) then
    logInfo "NTP resource expects parameter: timezone." [("step", "apply-ntp-cfg")] ;;
    ret err
  else
    applyTimezoneParam E i (Ntp_Timezone cfg) ;;
    applyNtpServerParam E i cfg ;;
    ret err.


(** *** Ldap *)

Definition failed (err : option error) (statusCode expected : Z) : bool :=
  (match err with Some _ => true | None => false end) || negb (statusCode =? expected).

(** Applies ldap search filter param. *)
Definition applyLdapSearchFilterParam (E : Env) (i : IDrac8) (cfg : cfgresources.Ldap)
    : M (option error) :=
  if isEmpty (Ldap_SearchFilter cfg) then
    let msg := "Ldap resource parameter SearchFilter required but not declared." in
    let err := errors_New msg in
    logError (Some err) msg [("step", "applyLdapSearchFilterParam")] ;;
    ret (Some err)
  else
    let endpoint := "data?set=xGLSearchFilter:" +:+ escapeLdapString (Ldap_SearchFilter cfg) in
    '(statusCode, response, err) <- get E endpoint ;;
    if failed err statusCode 200 then
      let err := match err with Some e => e | None => non200 endpoint end in
      logError (Some err) "Request to set LDAP search filter failed."
        (stdKV E i ++ [("endpoint", endpoint); ("StatusCode", strconv.Itoa statusCode);
                       ("step", WhosCalling E "applyLdapSearchFilterParam");
                       ("response", response)]) ;;
      ret (Some err)
    else
      logInfo "Ldap search filter param applied." (stdKV E i) ;;
      ret None.

Definition Ldap (E : Env) (i : IDrac8) (cfg : cfgresources.Ldap) : M (option error) :=
  if isEmpty (Ldap_Server cfg) then
    let msg := "LDAP resource parameter " +:+ dq +:+ "Server" +:+ dq +:+
               " required but not declared." in
    let err := errors_New msg in
    logError (Some err) msg [("step", "applyLdapServerParam")] ;;
    ret (Some err)
  else
    let endpoint := "data?set=xGLServer:" +:+ Ldap_Server cfg in
    '(statusCode, response, err) <- get E endpoint ;;
    if failed err statusCode 200 then
      let err := match err with Some e => e | None => non200 endpoint end in
      logError (Some err) "Request to set LDAP server failed."
        (stdKV E i ++ [("endpoint", endpoint); ("StatusCode", strconv.Itoa statusCode);
                       ("step", WhosCalling E "Ldap"); ("response", response)]) ;;
      ret (Some err)
    else
      err <- applyLdapSearchFilterParam E i cfg ;;
      match err with
      | Some e => ret (Some e)
      | None =>
          logInfo "Ldap server param set." (stdKV E i) ;;
          ret None
      end.

(** *** LdapGroups *)

(** Apply ldap group privileges *)
Definition applyLdapRoleGroupPrivParam (E : Env) (i : IDrac8)
    (cfg : cfgresources.Ldap) (groupPrivilegeParam : string) : M (option error) :=
  let baseDn := escapeLdapString (Ldap_BaseDn cfg) in
  let payload := "data=LDAPEnableMode:3," in   (* Generic LDAP *)
  let payload := payload +:+ "xGLNameSearchEnabled:0," in (* Lookup LDAP server from DNS *)
  let payload := payload +:+ "xGLBaseDN:" +:+ baseDn +:+ "," in
  let payload := payload +:+ "xGLUserLogin:" +:+ Ldap_UserAttribute cfg +:+ "," in
  let payload := payload +:+ "xGLGroupMem:" +:+ Ldap_GroupAttribute cfg +:+ "," in
  let payload :=
    if negb (isEmpty (Ldap_BindDn cfg)) then
      let bindDn := escapeLdapString (Ldap_BindDn cfg) in
      payload +:+ "xGLBindDN:" +:+ bindDn +:+ ","
    else payload +:+ "xGLBindDN:," in
  let payload := payload +:+ "xGLCertValidationEnabled:0," in
  let payload := payload +:+ groupPrivilegeParam in
  let payload := payload +:+ "xGLServerPort:" +:+ strconv.Itoa (Ldap_Port cfg) in
  let endpoint := "postset?ldapconf" in
  '(responseCode, responseBody, err) <- post E endpoint payload "" ;;
  if failed err responseCode 200 then
    logError err "POST request failed."
      (stdKV E i ++ [("endpoint", endpoint);
                     ("step", WhosCalling E "applyLdapRoleGroupPrivParam");
                     ("responseCode", strconv.Itoa responseCode);
                     ("response", responseBody)]) ;;
    ret err
  else
    logInfo "LDAP Group role privileges applied." (stdKV E i) ;;
    ret err.

(** The variables that the loop of [LdapGroups] carries from one group to
    the next. *)
Record groupState : Type := {
  groupID : Z;
  privID : string;
  groupPrivilegeParam : string
}.

Definition requiredMsg (param : string) : string :=
  "LDAP resource parameter " +:+ dq +:+ param +:+ dq +:+ " is required!".

(** One round of the loop over the groups: [inl err] when the round leaves
    [LdapGroups] with [return err], [inr st] when the loop goes on. *)
Definition groupRound (E : Env) (i : IDrac8) (st : groupState)
    (group : cfgresources.LdapGroup) : M (option error + groupState) :=
  (* if a group has been set to disable in the config,
     its configuration is skipped and removed. *)
  if negb (LdapGroup_Enable group) then ret (inr st)
  else if isEmpty (LdapGroup_Role group) then
    logInfo "Ldap resource parameter Role required but not declared."
      [("Role", LdapGroup_Role group); ("step", "applyLdapGroupParams")] ;;
    ret (inr st)
  else if isEmpty (LdapGroup_Group group) then
    let msg := requiredMsg "Group" in
    let err := errors_New msg in
    logError (Some err) msg [("step", "applyLdapGroupParams")] ;;
    ret (inl (Some err))
  else if isEmpty (LdapGroup_GroupBaseDn group) then
    let msg := requiredMsg "GroupBaseDn" in
    let err := errors_New msg in
    logError (Some err) msg [("step", "applyLdapGroupParams")] ;;
    ret (inl (Some err))
  else if negb (IsRoleValid E (LdapGroup_Role group)) then
    let msg := "LDAP resource parameter " +:+ dq +:+ "Role" +:+ dq +:+
               " must be a valid role: " +:+ dq +:+ "admin" +:+ dq +:+ " OR " +:+
               dq +:+ "user" +:+ dq +:+ "." in
    let err := errors_New msg in
    logError (Some err) msg
      [("Role", LdapGroup_Role group); ("step", "applyLdapGroupParams")] ;;
    ret (inl (Some err))
  else
    let groupDn := LdapGroup_Group group +:+ "," +:+ LdapGroup_GroupBaseDn group in
    let groupDn := escapeLdapString groupDn in
    let endpoint :=
      "data?set=xGLGroup" +:+ strconv.Itoa (groupID st) +:+ "Name:" +:+ groupDn in
    '(statusCode, response, err) <- get E endpoint ;;
    if failed err statusCode 200 then
      let err := match err with Some e => e | None => non200 endpoint end in
      logError (Some err) "LdapGroups(): GET request failed."
        (stdKV E i ++ [("endpoint", endpoint); ("StatusCode", strconv.Itoa statusCode);
                       ("step", "applyLdapGroupParams"); ("response", response)]) ;;
      ret (inl (Some err))
    else
      logInfo "LDAP GroupDN config applied."
        (stdKV E i ++ [("Role", LdapGroup_Role group)]) ;;
      let privID :=
        if String.eqb (LdapGroup_Role group) "user" then "497"
        else if String.eqb (LdapGroup_Role group) "admin" then "511"
        else privID st in
      ret (inr {| groupID := groupID st + 1;
                  privID := privID;
                  groupPrivilegeParam :=
                    groupPrivilegeParam st +:+ "xGLGroup" +:+ strconv.Itoa (groupID st)
                      +:+ "Priv:" +:+ privID +:+ "," |}).

Fixpoint groupLoop (E : Env) (i : IDrac8) (st : groupState)
    (cfgGroups : list cfgresources.LdapGroup) : M (option error + groupState) :=
  match cfgGroups with
  | [] => ret (inr st)
  | group :: rest =>
      r <- groupRound E i st group ;;
      match r with
      | inl err => ret (inl err)
      | inr st' => groupLoop E i st' rest
      end
  end.

(** [for i := groupID; i <= 5; i++ { groupPrivilegeParam += ... }], with
    [n] rounds still to go. *)
Fixpoint restPrivileges (n : nat) (i : Z) (groupPrivilegeParam : string) : string :=
  match n with
  | O => groupPrivilegeParam
  | S n' =>
      restPrivileges n' (i + 1)
        (groupPrivilegeParam +:+ "xGLGroup" +:+ strconv.Itoa i +:+ "Priv:0,")
  end.

Definition LdapGroups (E : Env) (i : IDrac8)
    (cfgGroups : list cfgresources.LdapGroup) (cfgLdap : cfgresources.Ldap)
    : M (option error) :=
  let st := {| groupID := 1; privID := "0"; groupPrivilegeParam := "" |} in
  (* first some preliminary checks *)
  if Ldap_Port cfgLdap =? 0 then
    let msg := requiredMsg "Port" in
    let err := errors_New msg in
    logError (Some err) msg [("step", "applyLdapRoleGroupPrivParam")] ;;
    ret (Some err)
  else if isEmpty (Ldap_BaseDn cfgLdap) then
    let msg := requiredMsg "BaseDn" in
    let err := errors_New msg in
    logError (Some err) msg [("step", "applyLdapRoleGroupPrivParam")] ;;
    ret (Some err)
  else if isEmpty (Ldap_UserAttribute cfgLdap) then
    let msg := requiredMsg "userAttribute" in
    let err := errors_New msg in
    logError (Some err) msg [("step", "applyLdapRoleGroupPrivParam")] ;;
    ret (Some err)
  else if isEmpty (Ldap_GroupAttribute cfgLdap) then
    let msg := requiredMsg "groupAttribute" in
    let err := errors_New msg in
    logError (Some err) msg [("step", "applyLdapRoleGroupPrivParam")] ;;
    ret (Some err)
  else
    r <- groupLoop E i st cfgGroups ;;
    match r with
    | inl err => ret err
    | inr st =>
        (* Set the rest of the group privileges to 0.
           Dell supports only 5 groups. *)
        let groupPrivilegeParam :=
          restPrivileges (Z.to_nat (6 - groupID st)) (groupID st)
            (groupPrivilegeParam st) in
        err <- applyLdapRoleGroupPrivParam E i cfgLdap groupPrivilegeParam ;;
        match err with
        | Some e =>
            logError (Some e) "Unable to set Ldap Role Group Privileges."
              (stdKV E i ++ [("step", "applyLdapGroupParams")]) ;;
            ret (Some e)
        | None => ret None
        end
    end.

(** *** Network *)

(** A Go [map[string]int]: reading a key that is absent gives 0. *)
Definition intMap : Type := list (string * Z).

Fixpoint lookup (m : intMap) (key : string) : Z :=
  match m with
  | [] => 0
  | (k, v) :: m' => if String.eqb k key then v else lookup m' key
  end.

Definition store (m : intMap) (key : string) (v : Z) : intMap :=
  (key, v) :: filter (fun kv => negb (String.eqb (fst kv) key)) m.

(** The map [params] of [Network], after the three updates. *)
Definition networkParams (cfg : cfgresources.Network) : intMap :=
  let params : intMap :=
    [("EnableIPv4", 1); ("DHCPEnable", 1); ("DNSFromDHCP", 1);
     ("EnableSerialOverLan", 1); ("EnableSerialRedirection", 1);
     ("EnableIpmiOverLan", 1)] in
  let params :=
    if negb (Network_DNSFromDHCP cfg) then store params "DNSFromDHCP" 0 else params in
  let params :=
    if negb (Network_IpmiEnable cfg) then store params "EnableIpmiOverLan" 0 else params in
  let params :=
    if negb (Network_SolEnable cfg)
    then store (store params "EnableSerialOverLan" 0) "EnableSerialRedirection" 0
    else params in
  params.

(** The string [payload] of [Network]. *)
Definition networkPayload (cfg : cfgresources.Network) : string :=
  let params := networkParams cfg in
  let payload := "dhcpForDNSDomain:" +:+ strconv.Itoa (lookup params "DNSFromDHCP") +:+ "," in
  let payload := payload +:+ "ipmiLAN:"
                   +:+ strconv.Itoa (lookup params "EnableIpmiOverLan") +:+ "," in
  let payload := payload +:+ "serialOverLanEnabled:"
                   +:+ strconv.Itoa (lookup params "EnableSerialOverLan") +:+ "," in
  let payload := payload +:+ "serialOverLanBaud:3," in (* 115.2 kbps *)
  let payload := payload +:+ "serialOverLanPriv:0," in (* Administrator *)
  let payload := payload +:+ "racRedirectEna:"
                   +:+ strconv.Itoa (lookup params "EnableSerialRedirection") +:+ "," in
  payload +:+ "racEscKey:^\\".

Definition Network (E : Env) (i : IDrac8) (cfg : cfgresources.Network)
    : M (bool * option error) :=
  let reset := false in
  let endpoint := "data?set" in
  let payload := networkPayload cfg in
  '(responseCode, responseBody, err) <- post E endpoint payload "" ;;
  if failed err responseCode 200 then
    logError err "POST request to set Network params failed."
      (stdKV E i ++ [("endpoint", endpoint); ("step", WhosCalling E "Network");
                     ("responseCode", strconv.Itoa responseCode);
                     ("response", responseBody)]) ;;
    ret (reset, err)
  else
    logInfo "Network config parameters applied." (stdKV E i) ;;
    ret (reset, err).

(** *** UploadHTTPSCert *)

Definition uploadEndpoint (i : IDrac8) : string :=
  "sysmgmt/2012/server/transient/filestore?fileupload=true" +:+ "&ST1=" +:+ st1 i.

Definition certEndpoint : string := "sysmgmt/2012/server/network/ssl/cert".

Definition expected201 (endpoint : string) : error :=
  errors_New ("Cert form upload POST request to " +:+ endpoint +:+ " failed, expected 201.").

(** UploadHTTPSCert uploads the given CRT cert,
    returns true if the BMC needs a reset.
    1. POST upload signed x509 cert in multipart form.
    2. POST returned resource URI *)
Definition UploadHTTPSCert (E : Env) (i : IDrac8)
    (cert certFileName key keyFileName : string) : M (bool * option error) :=
  let endpoint := uploadEndpoint i in
  match multipartForm E cert certFileName with
  | (_, _, Some err) => ret (false, Some err)
  | (form, formDataContentType, None) =>
      (* 1. POST upload x509 cert *)
      '(status, body, err) <- post E endpoint form formDataContentType ;;
      if failed err status 201 then
        let err := match err with Some e => e | None => expected201 endpoint end in
        logError (Some err) "UploadHTTPSCert(): Cert form upload POST request failed."
          (stdKV E i ++ [("endpoint", endpoint); ("step", WhosCalling E "UploadHTTPSCert");
                         ("StatusCode", strconv.Itoa status)]) ;;
        ret (false, Some err)
      else
        (* extract resourceURI from response *)
        match json_Unmarshal_certStore E body with
        | (_, Some err) =>
            logError (Some err)
              "UploadHTTPSCert(): Unable to unmarshal cert store response payload."
              ([("step", WhosCalling E "UploadHTTPSCert")] ++ stdKV E i) ;;
            ret (false, Some err)
        | (file, None) =>
            match json_Marshal_string E file with
            | (_, Some err) =>
                logError (Some err)
                  "UploadHTTPSCert(): Unable to marshal cert store resource URI."
                  ([("step", WhosCalling E "UploadHTTPSCert")] ++ stdKV E i) ;;
                ret (false, Some err)
            | (resourceURI, None) =>
                (* 2. POST resource URI *)
                let endpoint := certEndpoint in
                '(status, _, err) <- post E endpoint resourceURI "" ;;
                if failed err status 201 then
                  let err := match err with Some e => e | None => expected201 endpoint end in
                  logError (Some err)
                    "UploadHTTPSCert(): Cert form upload POST request failed."
                    (stdKV E i ++ [("endpoint", endpoint);
                                   ("step", WhosCalling E "UploadHTTPSCert");
                                   ("StatusCode", strconv.Itoa status)]) ;;
                  ret (false, Some err)
                else ret (true, err)
            end
        end
  end.

(** *** GenerateCSR *)

(** GenerateCSR generates a CSR request on the BMC. *)
Definition GenerateCSR (E : Env) (i : IDrac8) (cert : cfgresources.HTTPSCertAttributes)
    : M (string * option error) :=
  let endpoint := "bindata?set" in
  let payload :=
    [CommonName cert;
     OrganizationName cert;
     OrganizationUnit cert;
     Locality cert;
     StateName cert;
     CountryCode cert;
     strings.Join (strings.Split (Email cert) "@"%char) "@040"; (* heh, don't ask. *)
     SubjectAltName cert] in
  let queryString :=
    url.QueryEscape (endpoint +:+ "=serverCSR(" +:+ strings.Join payload "," +:+ ")") in
  '(statusCode, response, err) <- get E queryString ;;
  if failed err statusCode 200 then
    let err := match err with Some e => e | None => non200 endpoint end in
    logError (Some err) "GenerateCSR(): GET request failed."
      (stdKV E i ++ [("endpoint", endpoint); ("StatusCode", strconv.Itoa statusCode);
                     ("step", WhosCalling E "GenerateCSR")]) ;;
    ret ("", Some err)
  else ret (response, None).

End idrac8.

(** ** Package bmclib: the client *)

(** The registry of drivers, of the library [registrar]: the drivers in
    the order of their registration.  The driver value of a registration
    is an interface value that holds a pointer; it is modelled by a number
    that identifies it, so that [==] on driver values is [=?]. *)
Module registrar.

Record Driver : Type := {
  Name : string;
  Protocol : string;
  Features : list string;
  DriverInterface : Z
}.

Record Registry : Type := { Drivers : list Driver }.

(** [r.GetDriverInterfaces()] *)
Definition GetDriverInterfaces (r : Registry) : list Z :=
  map DriverInterface (Drivers r).

End registrar.

Module bmclib.

Record Client : Type := { Registry : registrar.Registry }.

(** The inner loop of [Open], [for _, em := range ifs], for the driver
    [elem]. *)
Fixpoint openedAmong (elem : registrar.Driver) (ifs : list Z)
    (reg : list registrar.Driver) : list registrar.Driver :=
  match ifs with
  | [] => reg
  | em :: rest =>
      openedAmong elem rest
        (if em =? registrar.DriverInterface elem then reg ++ [elem] else reg)
  end.

(** The outer loop of [Open], [for _, elem := range c.Registry.Drivers]. *)
Fixpoint openedDrivers (drivers : list registrar.Driver) (ifs : list Z)
    (reg : list registrar.Driver) : list registrar.Driver :=
  match drivers with
  | [] => reg
  | elem :: rest => openedDrivers rest ifs (openedAmong elem ifs reg)
  end.

(** [c.Open(ctx, metadata...)]; [OpenConnectionFromInterfaces] stands for
    [bmc.OpenConnectionFromInterfaces] applied to the context and the
    metadata: it gets the driver values of the registry and returns the
    ones it has opened, or an error. *)
Definition Open (c : Client)
    (OpenConnectionFromInterfaces : list Z -> list Z * option error)
    : list registrar.Driver * option error :=
  match OpenConnectionFromInterfaces (registrar.GetDriverInterfaces (Registry c)) with
  | (_, Some err) => ([], Some err)
  | (ifs, None) => (openedDrivers (registrar.Drivers (Registry c)) ifs [], None)
  end.

End bmclib.

(** * Notions and inputs used in the statements *)

(** ** For package racadm *)

Definition nl : string := String newline EmptyString.

(** The message of racadm on a submitted job, as in the comment of
    [parseJobId] and in [TestParseJobId]. *)
Definition jobCreated : string :=
  "Please wait while racadm transfers the file." +:+ nl +:+
  "File transferred successfully. Initiating the import operation." +:+ nl +:+
  "RAC977: Import configuration XML file operation initiated." +:+ nl +:+
  "Use the " +:+ dq +:+ "racadm jobqueue view -i JID_000123456789" +:+ dq +:+
  " command to view the status" +:+ nl +:+
  "of the operation.".

(** The job view of [TestParsePercentComplete], with the given progress
    lines in the place of the progress line. *)
Definition jobView (progress : string) : string :=
  "---------------------------- JOB -------------------------" +:+ nl +:+
  "[Job ID=JID_000123456789]" +:+ nl +:+
  "Job Name=Configure: Import Server Configuration Profile" +:+ nl +:+
  "Status=Running" +:+ nl +:+
  "Scheduled Start Time=[Not Applicable]" +:+ nl +:+
  "Expiration Time=[Not Applicable]" +:+ nl +:+
  "Actual Start Time=[Thu, 27 Mar 2025 16:44:19]" +:+ nl +:+
  "Actual Completion Time=[Not Applicable]" +:+ nl +:+
  "Message=[SYS058: Applying configuration changes.]" +:+ nl +:+
  progress +:+
  "----------------------------------------------------------".

Definition progressLine (value : string) : string :=
  "Percent Complete=[" +:+ value +:+ "]".

(** The first line of a message that contains a job identifier marker, and
    the first that starts as a progress line. *)
Definition firstJobLine (message : string) : option string :=
  find (fun line => strings.Contains line "JID_") (strings.Split message newline).

Definition firstProgressLine (message : string) : option string :=
  find (fun line => strings.HasPrefix line "Percent Complete=[")
       (strings.Split message newline).

(** A line carries a whole job identifier when 16 bytes are left from the
    first [JID_] on. *)
Definition wholeJobId (line : string) : bool :=
  strings.Contains line "JID_" && (strings.Index line "JID_" + 16 <=? len line).

(** The 16 bytes from the first [JID_] of a line on. *)
Definition jobIdOf (line : string) : string :=
  substring (Z.to_nat (strings.Index line "JID_")) 16 line.

(** The message that is handed to [parseJobId] when an earlier line holds a
    cut-off identifier. *)
Definition shortThenWhole : string := "JID_1" +:+ nl +:+ "JID_000123456789".

(** What a status query hands to the loop does not depend on the commands
    run before it. *)
Definition queryResult (res : racadm.exec_result) : string * option error :=
  match res with
  | (None, err) => ("", err)
  | (Some result, Some err) => ("", Some err)
  | (Some result, None) => (racadm.Stdout result, None)
  end.

(** A failing tick: the status query returns an error, or its output does
    not parse. *)
Definition failingTick (ev : racadm.event) : bool :=
  match ev with
  | racadm.Tick res =>
      match queryResult res with
      | (_, Some _) => true
      | (output, None) =>
          match racadm.parsePercentComplete output with
          | (_, Some _) => true
          | (_, None) => false
          end
      end
  | _ => false
  end.

(** A successful tick: the status query returns no error and its output
    parses, to the given value. *)
Definition successfulTick (ev : racadm.event) : option Z :=
  match ev with
  | racadm.Tick res =>
      match queryResult res with
      | (_, Some _) => None
      | (output, None) =>
          match racadm.parsePercentComplete output with
          | (_, Some _) => None
          | (percentComplete, None) => Some percentComplete
          end
      end
  | _ => None
  end.

(** The error of the loop when the ceiling of consecutive errors is
    reached: one of the two [exceeded maximum consecutive errors] errors,
    which wraps the error of the last failing tick. *)
Definition exceededMaxErrors (err : error) : bool :=
  match err with
  | fmt_Errorf_w msg _ => strings.HasPrefix msg "exceeded maximum consecutive errors"
  | _ => false
  end.

(** The error with which a failing tick fails: the error of the status
    query, or the error of parsing its output. *)
Definition tickError (ev : racadm.event) : option error :=
  match ev with
  | racadm.Tick res =>
      match queryResult res with
      | (_, Some err) => Some err
      | (output, None) => snd (racadm.parsePercentComplete output)
      end
  | _ => None
  end.

(** What the loop puts before that error when the tick is the one on
    which the ceiling is reached. *)
Definition exceededMessage (ev : racadm.event) : string :=
  match ev with
  | racadm.Tick res =>
      match queryResult res with
      | (_, Some _) =>
          "exceeded maximum consecutive errors while waiting for job completion: "
      | (_, None) =>
          "exceeded maximum consecutive errors while parsing percent complete: "
      end
  | _ => ""
  end.

Definition jobqueueView (s : racadm.Racadm) (jobID : string) : list string :=
  racadm.racadmArgs s "jobqueue" ["view"; "-i"; jobID].

(** A status query that fails with the given message. *)
Definition failedQueryWith (msg : string) : racadm.exec_result :=
  (None, Some (errors_New msg)).

Definition failedQuery : racadm.exec_result :=
  (None, Some (errors_New "exit status 1")).

Definition viewOf (percent : string) : racadm.exec_result :=
  (Some {| racadm.Stdout := jobView (progressLine percent +:+ nl);
           racadm.Stderr := "" |}, None).

Definition someRacadm : racadm.Racadm :=
  {| racadm.Host := "10.0.0.1"; racadm.Username := "root"; racadm.Password := "calvin" |}.

(** A context without a deadline, and one whose deadline is [d] after
    [now]. *)
Definition noDeadline : racadm.Context := {| racadm.deadline := None |}.

Definition deadlineIn (now : time.Time) (d : Z) : racadm.Context :=
  {| racadm.deadline := Some (now + d) |}.

(** ** For package idrac8 *)

Definition emptyUser : idrac8.User_t :=
  {| idrac8.UserName := ""; idrac8.Password := ""; idrac8.Enable := "Disabled";
     idrac8.SolEnable := "Disabled"; idrac8.Privilege := "0";
     idrac8.IpmiLanPrivilege := "No Access" |}.

(** A user table is searched by name; a free slot is one without a name,
    the slot 1 being reserved. *)
Fixpoint lookupUser (name : string) (users : idrac8.UserInfo)
    : Z * idrac8.User_t * bool :=
  match users with
  | [] => (0, emptyUser, false)
  | (userID, userInfo) :: rest =>
      if String.eqb (idrac8.UserName userInfo) name then (userID, userInfo, true)
      else lookupUser name rest
  end.

Fixpoint freeSlot (users : idrac8.UserInfo) : Z * idrac8.User_t * option error :=
  match users with
  | [] => (0, emptyUser,
           Some (errors_New
             "All user account slots in use, remove an account before adding a new one."))
  | (userID, userInfo) :: rest =>
      if negb (userID =? 1) && idrac8.isEmpty (idrac8.UserName userInfo)
      then (userID, userInfo, None)
      else freeSlot rest
  end.

(** Surroundings in which the device answers the HTTP calls by [answer],
    holds the user table [users] and answers [putUser] by [putAnswer]. *)
Definition surroundings
    (answer : list idrac8.call -> idrac8.call -> Z * string * option error)
    (users : idrac8.UserInfo)
    (putAnswer : list idrac8.call -> Z -> idrac8.User_t -> option error)
    : idrac8.Env :=
  {| idrac8.http := answer;
     idrac8.queryUsers_result := fun _ => (users, None);
     idrac8.putUser_result := putAnswer;
     idrac8.HardwareType := "idrac8";
     idrac8.WhosCalling := fun name => name;
     idrac8.ValidateUserConfig := fun _ => None;
     idrac8.IsRoleValid := fun role => String.eqb role "admin" || String.eqb role "user";
     idrac8.userInIdrac := lookupUser;
     idrac8.getEmptyUserSlot := freeSlot;
     idrac8.setAlertFilterPayload := "alertFilter:1";
     idrac8.json_Marshal_Syslog := fun data => (idrac8.Server1 data, None);
     idrac8.multipartForm := fun cert certFileName =>
                               (cert, "multipart/form-data; boundary=x", None);
     idrac8.json_Unmarshal_certStore := fun body => (body, None);
     idrac8.json_Marshal_string := fun file => (dq +:+ file +:+ dq, None) |}.

(** A device that answers every HTTP call with the given status code, an
    empty body and no transport error. *)
Definition answering (statusCode : Z) : idrac8.Env :=
  surroundings (fun _ _ => (statusCode, "", None)) [] (fun _ _ _ => None).

(** A device on which the request number [n], counted from 0, comes back
    with the transport error [EOF] and every other request with 201. *)
Definition transportFailsAt (n : nat) : idrac8.Env :=
  surroundings
    (fun sent _ =>
       if Nat.eqb (length sent) n then (0, "", Some (errors_New "EOF"))
       else (201, "", None))
    [] (fun _ _ _ => None).

Definition someIDrac8 : idrac8.IDrac8 := {| idrac8.ip := "10.0.0.2"; idrac8.st1 := "abc" |}.

Definition someNetwork : cfgresources.Network :=
  {| cfgresources.Network_DNSFromDHCP := true;
     cfgresources.Network_IpmiEnable := true;
     cfgresources.Network_SolEnable := true |}.

Definition someNtp : cfgresources.Ntp :=
  {| cfgresources.Ntp_Enable := true;
     cfgresources.Ntp_Server1 := "ntp0.example.com";
     cfgresources.Ntp_Server2 := "";
     cfgresources.Ntp_Server3 := "";
     cfgresources.Ntp_Timezone := "CET" |}.

Definition someSyslog : cfgresources.Syslog :=
  {| cfgresources.Syslog_Server := "syslog.example.com";
     cfgresources.Syslog_Port := 0;
     cfgresources.Syslog_Enable := true |}.



Definition ldapWith (port : Z) (baseDn userAttribute groupAttribute : string)
    : cfgresources.Ldap :=
  {| cfgresources.Ldap_Server := "ldap.example.com";
     cfgresources.Ldap_Port := port;
     cfgresources.Ldap_BaseDn := baseDn;
     cfgresources.Ldap_UserAttribute := userAttribute;
     cfgresources.Ldap_GroupAttribute := groupAttribute;
     cfgresources.Ldap_BindDn := "";
     cfgresources.Ldap_SearchFilter := "objectClass=posixAccount" |}.

(** The value logged under a key. *)
Fixpoint valueOf (key : string) (kv : list (string * string)) : string :=
  match kv with
  | [] => ""
  | (k, v) :: rest => if String.eqb k key then v else valueOf key rest
  end.

Definition userOf (entry : idrac8.logEntry) : string :=
  valueOf "User" (idrac8.keysAndValues entry).

(** The entry that ends a round of the loop of [User]: the user could not
    be added, the add or update failed, or the parameters are applied. *)
Definition endsRound (entry : idrac8.logEntry) : bool :=
  String.eqb (idrac8.message entry) "Unable to add new User."
  || String.eqb (idrac8.message entry) "User(): Add/Update user request failed."
  || String.eqb (idrac8.message entry) "User parameters applied.".

(** A round makes a slot lookup or a [putUser] call, and so assigns the
    result variable [err], unless the user is disabled and not on the
    device. *)
Definition assigns (E : idrac8.Env) (idracUsers : idrac8.UserInfo)
    (cfgUser : cfgresources.User) : bool :=
  cfgresources.User_Enable cfgUser
  || snd (idrac8.userInIdrac E (cfgresources.User_Name cfgUser) idracUsers).

Definition isPutUser (c : idrac8.call) : bool :=
  match c with
  | idrac8.PutUser _ _ => true
  | _ => false
  end.

(** The device of the counterexample: one free slot; [putUser] fails for
    alice and succeeds for everybody else. *)
Definition putFailsForAlice : idrac8.Env :=
  surroundings (fun _ _ => (200, "", None)) [(2, emptyUser)]
    (fun _ _ userInfo =>
       if String.eqb (idrac8.UserName userInfo) "alice"
       then Some (errors_New "Put request failed.")
       else None).

Definition cfgUser (name : string) (enable : bool) : cfgresources.User :=
  {| cfgresources.User_Name := name;
     cfgresources.User_Password := "secret";
     cfgresources.User_Role := "admin";
     cfgresources.User_Enable := enable |}.

(** What the loop of [escapeLdapString] appends for the rune [c]. *)
Definition escaped (c : Z) : string := idrac8.escapeRune "" c.

Definition concatStrings (l : list string) : string := fold_right String.append "" l.

(** The runes that the loop emits for the rune [c]. *)
Definition escapedRunes (c : Z) : list Z :=
  if c =? 61 then utf8.runes "%5C%3D"
  else if c =? 44 then utf8.runes "%5C%2C"
  else [c].

(** The substitution on the bytes of a string. *)
Fixpoint escapeBytes (s : string) : string :=
  match s with
  | EmptyString => EmptyString
  | String c s' =>
      (if Ascii.eqb c "="%char then "%5C%3D"
       else if Ascii.eqb c ","%char then "%5C%2C"
       else String c EmptyString) +:+ escapeBytes s'
  end.

Fixpoint isASCII (s : string) : bool :=
  match s with
  | EmptyString => true
  | String c s' => (byte_of c <? 0x80) && isASCII s'
  end.

(** A rune that is decoded again from its own encoding. *)
Definition canonical (r : Z) : Prop :=
  forall t, utf8.runes (utf8.string_of_rune r +:+ t) = r :: utf8.runes t.

(** The string in which every byte that starts no well-formed encoding is
    replaced by the encoding of [RuneError]; it is the string itself when
    the string is well-formed UTF-8. *)
Definition sanitized (s : string) : string :=
  concatStrings (map utf8.string_of_rune (utf8.runes s)).

(** What the loop appends for a rune is the substitution applied to the
    bytes of its encoding. *)
Definition faithful (r : Z) : Prop :=
  escaped r = escapeBytes (utf8.string_of_rune r).

(** A rune is good when it is canonical and faithful; the runes that the
    decoding yields are. *)
Definition good (r : Z) : Prop := canonical r /\ faithful r.

(** ** For the further properties of package racadm *)

(** A string of decimal digits only. *)
Fixpoint allDigits (s : string) : bool :=
  match s with
  | EmptyString => true
  | String c s' => strconv.isDigit c && allDigits s'
  end.

Definition isTick (ev : racadm.event) : bool :=
  match ev with
  | racadm.Tick _ => true
  | _ => false
  end.

(** The arguments of the submission. *)
Definition setCommand (s : racadm.Racadm) (cfgFile : string) : list string :=
  racadm.racadmArgs s "set" ["-t"; "xml"; "-f"; cfgFile].

(** What [run] returns for the submission. *)
Definition runResult (res : racadm.exec_result) : string * option error :=
  match res with
  | (None, err) => ("", err)
  | (Some result, Some err) => (racadm.Stderr result, Some err)
  | (Some result, None) => (racadm.Stdout result, None)
  end.

(** The byte [c] occurs in [s]. *)
Fixpoint hasByte (c : ascii) (s : string) : bool :=
  match s with
  | EmptyString => false
  | String d s' => Ascii.eqb d c || hasByte c s'
  end.

(** A call of [ChangeBiosCfg] that has returned or panicked. *)
Definition finished (st : racadm.status) : bool :=
  match st with
  | racadm.Blocked _ => false
  | _ => true
  end.

(** ** For package bmclib *)

(** The driver value of [d] is among the opened ones. *)
Definition wasOpened (ifs : list Z) (d : registrar.Driver) : bool :=
  existsb (Z.eqb (registrar.DriverInterface d)) ifs.

Definition driver (name : string) (value : Z) : registrar.Driver :=
  {| registrar.Name := name;
     registrar.Protocol := "";
     registrar.Features := [];
     registrar.DriverInterface := value |}.

Definition someClient : bmclib.Client :=
  {| bmclib.Registry :=
       {| registrar.Drivers :=
            [driver "ipmitool" 1; driver "asrockrack" 2; driver "gofish" 3] |} |}.

(** ** For the further properties of package idrac8 *)

(** The number of [=] and [,] bytes of a string. *)
Fixpoint delimiters (s : string) : nat :=
  match s with
  | EmptyString => 0
  | String c s' =>
      ((if Ascii.eqb c "="%char || Ascii.eqb c ","%char then 1 else 0)
       + delimiters s')%nat
  end.

Definition bit (b : bool) : string := if b then "1" else "0".

(** The two requests of [Ntp]. *)
Definition timezoneRequest (cfg : cfgresources.Ntp) : idrac8.call :=
  idrac8.GET ("data?set=tm_tz_str_zone:" +:+ cfgresources.Ntp_Timezone cfg).

Definition ntpServersRequest (cfg : cfgresources.Ntp) : idrac8.call :=
  idrac8.GET ("data?set=tm_ntp_int_opmode:" +:+ bit (cfgresources.Ntp_Enable cfg)
              +:+ ",tm_ntp_str_server1:" +:+ cfgresources.Ntp_Server1 cfg
              +:+ ",tm_ntp_str_server2:" +:+ cfgresources.Ntp_Server2 cfg
              +:+ ",tm_ntp_str_server3:" +:+ cfgresources.Ntp_Server3 cfg +:+ ",").

(** The two requests of [Ldap]. *)
Definition ldapServerEndpoint (cfg : cfgresources.Ldap) : string :=
  "data?set=xGLServer:" +:+ cfgresources.Ldap_Server cfg.

Definition ldapFilterEndpoint (cfg : cfgresources.Ldap) : string :=
  "data?set=xGLSearchFilter:"
  +:+ idrac8.escapeLdapString (cfgresources.Ldap_SearchFilter cfg).

(** A request that came back without a transport error and with the
    status code 200. *)
Definition ok200 (answer : Z * string * option error) : Prop :=
  fst (fst answer) = 200 /\ snd answer = None.

(** The error of a GET request: the transport error, or the error made up
    for the status code. *)
Definition getError (endpoint : string) (answer : Z * string * option error) : error :=
  match snd answer with
  | Some e => e
  | None => idrac8.non200 endpoint
  end.

(** The three requests of [Syslog]. *)
Definition syslogData (cfg : cfgresources.Syslog) : idrac8.Syslog_t :=
  {| idrac8.Port :=
       strconv.Itoa (if cfgresources.Syslog_Port cfg =? 0 then 514
                     else cfgresources.Syslog_Port cfg);
     idrac8.Server1 := cfgresources.Syslog_Server cfg;
     idrac8.Server2 := "";
     idrac8.Server3 := "";
     idrac8.Enable_ := if cfgresources.Syslog_Enable cfg then "Enabled" else "Disabled" |}.

Definition syslogRequests (E : idrac8.Env) (payload : string) : list idrac8.call :=
  [idrac8.PUT "sysmgmt/2012/server/configgroup/iDRAC.SysLog" payload;
   idrac8.POST "data?set=alertStatus:1" "" "";
   idrac8.POST ("data?set=" +:+ idrac8.setAlertFilterPayload E) "" ""].

(** The requests in [requests] that are sent after [sent]: each one up to
    and including the first that comes back with a transport error;
    together with that error. *)
Fixpoint untilTransportError (E : idrac8.Env) (sent : list idrac8.call)
    (requests : list idrac8.call) : list idrac8.call * option error :=
  match requests with
  | [] => ([], None)
  | c :: rest =>
      match snd (idrac8.http E sent c) with
      | Some e => ([c], Some e)
      | None =>
          let '(more, err) := untilTransportError E (sent ++ [c]) rest in
          (c :: more, err)
      end
  end.

(** The two requests of [UploadHTTPSCert]. *)
Definition formRequest (i : idrac8.IDrac8) (form contentType : string) : idrac8.call :=
  idrac8.POST (idrac8.uploadEndpoint i) form contentType.

Definition certRequest (resourceURI : string) : idrac8.call :=
  idrac8.POST idrac8.certEndpoint resourceURI "".

(** A request that came back without a transport error and with the
    status code 201. *)
Definition ok201 (answer : Z * string * option error) : Prop :=
  fst (fst answer) = 201 /\ snd answer = None.

(** Every [@] followed by [040]. *)
Fixpoint at040 (s : string) : string :=
  match s with
  | EmptyString => EmptyString
  | String c s' =>
      if Ascii.eqb c "@" then "@040" +:+ at040 s' else String c (at040 s')
  end.

(** The fields of the request of [GenerateCSR]. *)
Definition csrFields (cert : cfgresources.HTTPSCertAttributes) : list string :=
  [cfgresources.CommonName cert;
   cfgresources.OrganizationName cert;
   cfgresources.OrganizationUnit cert;
   cfgresources.Locality cert;
   cfgresources.StateName cert;
   cfgresources.CountryCode cert;
   at040 (cfgresources.Email cert);
   cfgresources.SubjectAltName cert].

(** What [GenerateCSR] requests: everything is escaped, the [?] and the
    [=] of the endpoint, the parentheses and the commas between the
    fields included. *)
Definition csrEndpoint (cert : cfgresources.HTTPSCertAttributes) : string :=
  "bindata%3Fset%3DserverCSR%28"
  +:+ strings.Join (map url.QueryEscape (csrFields cert)) "%2C" +:+ "%29".

(** The bytes that [url.QueryEscape] writes: the unreserved ones, [%] and
    [+]. *)
Definition querySafe (c : ascii) : bool :=
  negb (url.shouldEscape c) || Ascii.eqb c "%" || Ascii.eqb c "+".

Fixpoint allBytes (p : ascii -> bool) (s : string) : bool :=
  match s with
  | EmptyString => true
  | String c s' => p c && allBytes p s'
  end.

Definition someCert : cfgresources.HTTPSCertAttributes :=
  {| cfgresources.CommonName := "bmc.example.com";
     cfgresources.OrganizationName := "Example Org";
     cfgresources.OrganizationUnit := "IT";
     cfgresources.Locality := "Amsterdam";
     cfgresources.StateName := "NH";
     cfgresources.CountryCode := "NL";
     cfgresources.Email := "ops@example.com";
     cfgresources.SubjectAltName := "bmc" |}.

(** Surroundings in which the configuration of the users is rejected. *)
Definition rejecting (verr : error) : idrac8.Env :=
  {| idrac8.http := fun _ _ => (200, "", None);
     idrac8.queryUsers_result := fun _ => ([], None);
     idrac8.putUser_result := fun _ _ _ => None;
     idrac8.HardwareType := "idrac8";
     idrac8.WhosCalling := fun name => name;
     idrac8.ValidateUserConfig := fun _ => Some verr;
     idrac8.IsRoleValid := fun role => String.eqb role "admin" || String.eqb role "user";
     idrac8.userInIdrac := lookupUser;
     idrac8.getEmptyUserSlot := freeSlot;
     idrac8.setAlertFilterPayload := "alertFilter:1";
     idrac8.json_Marshal_Syslog := fun data => (idrac8.Server1 data, None);
     idrac8.multipartForm := fun cert certFileName =>
                               (cert, "multipart/form-data; boundary=x", None);
     idrac8.json_Unmarshal_certStore := fun body => (body, None);
     idrac8.json_Marshal_string := fun file => (dq +:+ file +:+ dq, None) |}.

(** A group that [LdapGroups] does not skip: it is enabled and declares a
    role. *)
Definition applicable (group : cfgresources.LdapGroup) : bool :=
  cfgresources.LdapGroup_Enable group
  && negb (idrac8.isEmpty (cfgresources.LdapGroup_Role group)).

(** The request that sets the name of [group] in the slot [slot]. *)
Definition groupRequest (slot : Z) (group : cfgresources.LdapGroup) : idrac8.call :=
  idrac8.GET ("data?set=xGLGroup" +:+ strconv.Itoa slot +:+ "Name:"
              +:+ idrac8.escapeLdapString
                    (cfgresources.LdapGroup_Group group +:+ ","
                     +:+ cfgresources.LdapGroup_GroupBaseDn group)).

(** The requests for the groups of a list: the applicable groups take the
    slots from [slot] on, one after the other. *)
Fixpoint groupRequests (slot : Z) (groups : list cfgresources.LdapGroup)
    : list idrac8.call :=
  match groups with
  | [] => []
  | group :: rest =>
      if applicable group then groupRequest slot group :: groupRequests (slot + 1) rest
      else groupRequests slot rest
  end.





Definition isLdapConf (c : idrac8.call) : bool :=
  match c with
  | idrac8.POST endpoint _ contentType =>
      String.eqb endpoint "postset?ldapconf" && String.eqb contentType ""
  | _ => false
  end.

Definition ldapGroup (role group : string) (enable : bool) : cfgresources.LdapGroup :=
  {| cfgresources.LdapGroup_Role := role;
     cfgresources.LdapGroup_Group := group;
     cfgresources.LdapGroup_GroupBaseDn := "ou=Group,dc=example,dc=com";
     cfgresources.LdapGroup_Enable := enable |}.

(** * Properties of package racadm *)

(** ** The inputs of the tests of the repository *)

Example parseJobId_TestParseJobId_valid :
  racadm.parseJobId jobCreated = Done ("JID_000123456789", None).
Proof. reflexivity. Qed.

Example parseJobId_TestParseJobId_invalid :
  racadm.parseJobId
    ("RAC977: Import configuration XML file operation initiated." +:+ nl +:+
     "Use the " +:+ dq +:+ "racadm jobqueue view -i INVALID_JOB_ID" +:+ dq +:+
     " command to view the status")
  = Done ("", Some (errors_New "failed to find JobID in output")).
Proof. reflexivity. Qed.

Example parsePercentComplete_TestParsePercentComplete_valid :
  racadm.parsePercentComplete (jobView (progressLine "20" +:+ nl)) = (20, None).
Proof. reflexivity. Qed.

Example parsePercentComplete_TestParsePercentComplete_missing :
  racadm.parsePercentComplete (jobView "")
  = (0, Some (errors_New "failed to find Percent Complete in output")).
Proof. reflexivity. Qed.

Example parsePercentComplete_empty :
  racadm.parsePercentComplete ""
  = (0, Some (errors_New "failed to find Percent Complete in output")).
Proof. reflexivity. Qed.

(** ** Strings *)

Lemma len_nonneg (s : string) : 0 <= len s.
Proof. unfold len. lia. Qed.

Lemma len_String (c : ascii) (s : string) : len (String c s) = len s + 1.
Proof. unfold len. simpl String.length. lia. Qed.

Lemma Index_range (s substr : string) :
  -1 <= strings.Index s substr <= len s.
Proof.
  induction s as [|c s IH].
  - destruct substr; unfold len; simpl; lia.
  - rewrite len_String. pose proof (len_nonneg s).
    change (strings.Index (String c s) substr)
      with (if strings.HasPrefix (String c s) substr then 0
            else let i := strings.Index s substr in if i =? -1 then -1 else i + 1).
    destruct (strings.HasPrefix (String c s) substr); [lia|].
    cbv zeta. destruct (strings.Index s substr =? -1); lia.
Qed.

Lemma Index_String (c : ascii) (s substr : string) :
  strings.Index (String c s) substr
  = if strings.HasPrefix (String c s) substr then 0
    else if strings.Index s substr =? -1 then -1 else strings.Index s substr + 1.
Proof. reflexivity. Qed.

Lemma Contains_String (c : ascii) (s substr : string) :
  strings.Contains (String c s) substr
  = strings.HasPrefix (String c s) substr || strings.Contains s substr.
Proof.
  unfold strings.Contains. rewrite Index_String.
  destruct (strings.HasPrefix (String c s) substr); [reflexivity|].
  pose proof (Index_range s substr) as R.
  destruct (strings.Index s substr =? -1) eqn:E; simpl.
  - apply Z.eqb_eq in E. rewrite E. reflexivity.
  - apply Z.eqb_neq in E.
    transitivity true; [|symmetry]; apply Z.leb_le; lia.
Qed.

Lemma Contains_Index (s substr : string) :
  strings.Contains s substr = negb (strings.Index s substr =? -1).
Proof.
  unfold strings.Contains.
  pose proof (Index_range s substr) as R.
  destruct (strings.Index s substr =? -1) eqn:E; simpl.
  - apply Z.eqb_eq in E. rewrite E. reflexivity.
  - apply Z.eqb_neq in E. apply Z.leb_le. lia.
Qed.

Lemma HasPrefix_app (s t prefix : string) :
  strings.HasPrefix s prefix = true -> strings.HasPrefix (s +:+ t) prefix = true.
Proof.
  revert s. induction prefix as [|p prefix IH]; intros s H.
  - reflexivity.
  - destruct s as [|c s]; simpl in *; [discriminate|].
    apply andb_true_iff in H as [H1 H2].
    rewrite H1. simpl. apply IH, H2.
Qed.

(** The first line that [Split] yields is a prefix of the string. *)
Lemma Split_first (s : string) (sep : ascii) :
  exists l ls rest, strings.Split s sep = l :: ls /\ s = l +:+ rest.
Proof.
  induction s as [|c s (l & ls & rest & E & Es)]; simpl.
  - exists "", [], "". split; reflexivity.
  - destruct (Ascii.eqb c sep).
    + exists "", (strings.Split s sep), (String c s). split; reflexivity.
    + rewrite E. exists (String c l), ls, rest. split; [reflexivity|].
      simpl. congruence.
Qed.

(** A string that does not contain [substr] has no line that does. *)
Lemma Contains_lines (substr s : string) (sep : ascii) :
  strings.Contains s substr = false ->
  Forall (fun line => strings.Contains line substr = false) (strings.Split s sep).
Proof.
  induction s as [|c s IH]; intros H.
  - simpl. constructor; [exact H | constructor].
  - rewrite Contains_String in H. apply orb_false_iff in H as [Hp Hc].
    specialize (IH Hc). simpl.
    destruct (Ascii.eqb c sep).
    + constructor; [|exact IH].
      unfold strings.Contains in *. simpl.
      destruct substr; [discriminate Hp | reflexivity].
    + destruct (Split_first s sep) as (l & ls & rest & E & Es).
      rewrite E in *. apply Forall_cons_iff in IH as [Hl Hls].
      constructor; [|exact Hls].
      rewrite Contains_String, Hl, orb_false_r.
      destruct (strings.HasPrefix (String c l) substr) eqn:P; [|reflexivity].
      apply (HasPrefix_app _ rest) in P. simpl in P.
      rewrite <- Es in P. congruence.
Qed.

Lemma HasPrefix_substring_0 (s prefix : string) (m : nat) :
  strings.HasPrefix s prefix = true -> (String.length prefix <= m)%nat ->
  strings.HasPrefix (substring 0 m s) prefix = true.
Proof.
  revert s m. induction prefix as [|p prefix IH]; intros s m H L.
  - reflexivity.
  - destruct s as [|c s]; simpl in H; [discriminate|].
    apply andb_true_iff in H as [H1 H2].
    destruct m as [|m]; simpl in L; [lia|].
    simpl. rewrite H1. simpl. apply IH; [exact H2 | lia].
Qed.

(** The bytes at the index that [Index] returns are those of [substr]. *)
Lemma Index_substring (s substr : string) (m : nat) :
  0 <= strings.Index s substr -> (String.length substr <= m)%nat ->
  strings.HasPrefix (substring (Z.to_nat (strings.Index s substr)) m s) substr = true.
Proof.
  intros H L. induction s as [|c s IH].
  - simpl in *. destruct substr; [reflexivity | simpl in H; lia].
  - rewrite Index_String in *.
    destruct (strings.HasPrefix (String c s) substr) eqn:P.
    + apply HasPrefix_substring_0; assumption.
    + pose proof (Index_range s substr) as R.
      destruct (strings.Index s substr =? -1) eqn:E; [lia|].
      apply Z.eqb_neq in E.
      replace (Z.to_nat (strings.Index s substr + 1))
        with (S (Z.to_nat (strings.Index s substr))) by lia.
      simpl. apply IH. lia.
Qed.

Lemma length_substring (s : string) (n m : nat) :
  (n + m <= String.length s)%nat -> String.length (substring n m s) = m.
Proof.
  revert n m. induction s as [|c s IH]; intros n m H; simpl in H.
  - assert (n = 0%nat) by lia. assert (m = 0%nat) by lia. subst. reflexivity.
  - destruct n as [|n]; destruct m as [|m]; simpl; try reflexivity.
    + f_equal. apply (IH 0%nat m). lia.
    + apply IH. lia.
    + apply IH. lia.
Qed.

(** No byte before the index that [Index] returns starts an instance of
    [substr]: the index is that of the first instance. *)
Lemma Index_first (s substr : string) (n : nat) :
  (Z.of_nat n < strings.Index s substr) ->
  strings.HasPrefix (substring n (String.length s - n) s) substr = false.
Proof.
  revert n. induction s as [|c s IH]; intros n H.
  - pose proof (Index_range "" substr) as R. change (len "") with 0 in R. lia.
  - rewrite Index_String in H.
    destruct (strings.HasPrefix (String c s) substr) eqn:P; [lia|].
    destruct (strings.Index s substr =? -1) eqn:E; [lia|].
    destruct n as [|n].
    + simpl. replace (substring 0 (String.length s) s) with s; [exact P|].
      clear. induction s; simpl; congruence.
    + simpl. apply IH. lia.
Qed.

(** ** parseJobId *)

(** [parseJobId] looks at one line only: the first that contains the
    marker.  It slices 16 bytes out of it, whatever its length. *)
Lemma parseJobId_lines_find (lines : list string) :
  racadm.parseJobId_lines lines
  = match find (fun line => strings.Contains line "JID_") lines with
    | None => Done ("", Some (errors_New "failed to find JobID in output"))
    | Some line =>
        let idx := strings.Index line "JID_" in
        match slice line idx (idx + 16) with
        | Done jobId => Done (jobId, None)
        | Panic reason => Panic reason
        end
    end.
Proof.
  induction lines as [|line rest IH]; simpl; [reflexivity|].
  destruct (strings.Contains line "JID_") eqn:C; [|exact IH].
  rewrite Contains_Index in C. rewrite C. reflexivity.
Qed.

Lemma slice_16 (line : string) (idx : Z) :
  0 <= idx ->
  slice line idx (idx + 16)
  = if idx + 16 <=? len line
    then Done (substring (Z.to_nat idx) 16 line)
    else Panic "slice bounds out of range".
Proof.
  intros H. unfold slice.
  replace (0 <=? idx) with true by (symmetry; apply Z.leb_le; lia).
  replace (idx <=? idx + 16) with true by (symmetry; apply Z.leb_le; lia).
  simpl. replace (idx + 16 - idx) with 16 by lia. reflexivity.
Qed.

Lemma find_Contains_Index (lines : list string) (line : string) :
  find (fun line => strings.Contains line "JID_") lines = Some line ->
  0 <= strings.Index line "JID_".
Proof.
  intros H. apply find_some in H as [_ H]. apply Z.leb_le, H.
Qed.

(** C3, as stated, fails: the second line of [shortThenWhole] is the first
    that holds the marker with 12 further bytes, yet [parseJobId] does not
    return its identifier: it slices the first line and panics. *)
Lemma parseJobId_not_first_whole_line :
  find wholeJobId (strings.Split shortThenWhole newline) = Some "JID_000123456789"
  /\ jobIdOf "JID_000123456789" = "JID_000123456789"
  /\ racadm.parseJobId shortThenWhole = Panic "slice bounds out of range".
Proof. repeat split. Qed.

(** C3, amended: when the first line that contains [JID_] has at least 12
    further bytes after its first [JID_], [parseJobId] returns, without an
    error, the 16 bytes of that line from its first [JID_] on (so
    [JID_000123456789] on the message of the tests); when the message has
    no [JID_] at all, it returns the error that no job identifier was
    found. *)
Theorem parseJobId_first_job_line :
  (forall message line,
      firstJobLine message = Some line ->
      strings.Index line "JID_" + 16 <= len line ->
      racadm.parseJobId message = Done (jobIdOf line, None)
      /\ String.length (jobIdOf line) = 16%nat
      /\ strings.HasPrefix (jobIdOf line) "JID_" = true
      /\ (forall n, Z.of_nat n < strings.Index line "JID_" ->
            strings.HasPrefix (substring n (String.length line - n) line) "JID_" = false))
  /\ (forall message,
      strings.Contains message "JID_" = false ->
      racadm.parseJobId message
      = Done ("", Some (errors_New "failed to find JobID in output")))
  /\ racadm.parseJobId jobCreated = Done ("JID_000123456789", None).
Proof.
  split; [|split].
  - intros message line F L. unfold firstJobLine in F.
    pose proof (find_Contains_Index _ _ F) as I.
    split; [|split; [|split]].
    + unfold racadm.parseJobId. rewrite parseJobId_lines_find, F.
      cbv zeta. rewrite slice_16 by exact I.
      replace (strings.Index line "JID_" + 16 <=? len line) with true
        by (symmetry; apply Z.leb_le; exact L).
      reflexivity.
    + unfold jobIdOf. apply length_substring. unfold len in L. lia.
    + unfold jobIdOf. apply Index_substring; [exact I | simpl; lia].
    + intros n Hn. apply Index_first, Hn.
  - intros message C. unfold racadm.parseJobId.
    rewrite parseJobId_lines_find.
    destruct (find _ _) as [line|] eqn:F; [|reflexivity].
    apply find_some in F as [F1 F2].
    pose proof (Contains_lines "JID_" message newline C) as A.
    rewrite Forall_forall in A. rewrite (A _ F1) in F2. discriminate.
  - reflexivity.
Qed.

Lemma parseJobId_first_job_line_witness :
  racadm.parseJobId jobCreated
  = Done (jobIdOf ("Use the " +:+ dq +:+ "racadm jobqueue view -i JID_000123456789"
                   +:+ dq +:+ " command to view the status"), None)
  /\ racadm.parseJobId "no identifier here"
     = Done ("", Some (errors_New "failed to find JobID in output")).
Proof.
  split.
  - apply (proj1 parseJobId_first_job_line jobCreated); [reflexivity | vm_compute; discriminate].
  - apply (proj1 (proj2 parseJobId_first_job_line)). reflexivity.
Defined.

(** C5 fails on the code: on a line whose first [JID_] has fewer than 12
    bytes after it, the slice expression is out of range and [parseJobId]
    panics instead of returning. *)
Theorem parseJobId_short_line_panics :
  racadm.parseJobId "JID_123" = Panic "slice bounds out of range"
  /\ (forall message line,
        firstJobLine message = Some line ->
        len line < strings.Index line "JID_" + 16 ->
        racadm.parseJobId message = Panic "slice bounds out of range").
Proof.
  split; [reflexivity|].
  intros message line F L. unfold firstJobLine in F.
  pose proof (find_Contains_Index _ _ F) as I.
  unfold racadm.parseJobId. rewrite parseJobId_lines_find, F.
  cbv zeta. rewrite slice_16 by exact I.
  replace (strings.Index line "JID_" + 16 <=? len line) with false
    by (symmetry; apply Z.leb_gt; exact L).
  reflexivity.
Qed.

Lemma parseJobId_short_line_panics_witness :
  racadm.parseJobId ("RAC977: initiated." +:+ nl +:+ "view -i JID_0001")
  = Panic "slice bounds out of range".
Proof.
  apply (proj2 parseJobId_short_line_panics _ "view -i JID_0001");
    [reflexivity | vm_compute; reflexivity].
Defined.

(** ** parsePercentComplete *)

Lemma parsePercentComplete_lines_find (lines : list string) :
  racadm.parsePercentComplete_lines lines
  = match find (fun line => strings.HasPrefix line "Percent Complete=[") lines with
    | None => (0, Some (errors_New "failed to find Percent Complete in output"))
    | Some line => racadm.parsePercentComplete_lines [line]
    end.
Proof.
  induction lines as [|line rest IH]; [reflexivity|].
  cbn [find racadm.parsePercentComplete_lines].
  destruct (strings.HasPrefix line "Percent Complete=[") eqn:P; [|exact IH].
  cbn [racadm.parsePercentComplete_lines]. rewrite P. reflexivity.
Qed.

Lemma spanDigits_first (s ds rest : string) (d : ascii) :
  regexp.spanDigits s = (String d ds, rest) -> strconv.isDigit d = true.
Proof.
  destruct s as [|c s]; simpl; [discriminate|].
  destruct (strconv.isDigit c) eqn:D; [|discriminate].
  destruct (regexp.spanDigits s). intros H. congruence.
Qed.

Lemma matchHere_digit (s g : string) :
  regexp.matchHere s = Some g ->
  exists d ds, g = String d ds /\ strconv.isDigit d = true.
Proof.
  unfold regexp.matchHere.
  destruct (regexp.stripLiteral _ s) as [rest|]; [|discriminate].
  destruct (regexp.spanDigits rest) as [[|d ds] after] eqn:S; [discriminate|].
  destruct after as [|a after]; [discriminate|].
  intros H.
  assert (g = String d ds) as ->.
  { destruct a as [[] [] [] [] [] [] [] []]; congruence. }
  exists d, ds. split; [reflexivity|]. eapply spanDigits_first, S.
Qed.

(** What [FindStringSubmatch] returns is empty or has the two entries of a
    match, the second of which starts with a digit. *)
Lemma FindStringSubmatch_shape (s : string) :
  regexp.FindStringSubmatch s = []
  \/ exists whole d ds,
       regexp.FindStringSubmatch s = [whole; String d ds]
       /\ strconv.isDigit d = true.
Proof.
  induction s as [|c s IH]; cbn [regexp.FindStringSubmatch].
  - left. reflexivity.
  - destruct (regexp.matchHere (String c s)) as [g|] eqn:M; [|exact IH].
    destruct (matchHere_digit _ _ M) as (d & ds & -> & D).
    right. eauto.
Qed.

Lemma digitsFrom_nonneg (s : string) (acc n : Z) :
  0 <= acc -> strconv.digitsFrom acc s = Some n -> 0 <= n.
Proof.
  revert acc. induction s as [|c s IH]; intros acc A H; simpl in H.
  - congruence.
  - destruct (strconv.isDigit c) eqn:D; [|discriminate].
    apply (IH (acc * 10 + (byte_of c - 48))); [|exact H].
    unfold strconv.isDigit in D. apply andb_true_iff in D as [D1 _].
    apply Z.leb_le in D1. lia.
Qed.

(** On a string that starts with a digit, [Atoi] reads no sign. *)
Lemma Atoi_digit_first (d : ascii) (ds : string) :
  strconv.isDigit d = true ->
  strconv.Atoi (String d ds)
  = match strconv.digits (String d ds) with
    | None => (0, Some (strconv_NumError "Atoi" (String d ds) ErrSyntax))
    | Some n =>
        if strconv.maxInt <? n
        then (strconv.maxInt, Some (strconv_NumError "Atoi" (String d ds) ErrRange))
        else if n <? strconv.minInt
        then (strconv.minInt, Some (strconv_NumError "Atoi" (String d ds) ErrRange))
        else (n, None)
    end.
Proof.
  destruct d as [b0 b1 b2 b3 b4 b5 b6 b7].
  destruct b0, b1, b2, b3, b4, b5, b6, b7; intros D;
    solve [discriminate D | reflexivity].
Qed.

Lemma Atoi_digits_range (d : ascii) (ds : string) (v : Z) :
  strconv.isDigit d = true ->
  strconv.Atoi (String d ds) = (v, None) ->
  strconv.digits (String d ds) = Some v /\ 0 <= v <= strconv.maxInt.
Proof.
  intros D H. rewrite (Atoi_digit_first _ _ D) in H.
  destruct (strconv.digits (String d ds)) as [n|] eqn:N; [|discriminate].
  destruct (strconv.maxInt <? n) eqn:Hi; [discriminate|].
  destruct (n <? strconv.minInt) eqn:Lo; [discriminate|].
  injection H as ->. split; [reflexivity|]. split.
  - unfold strconv.digits in N. eapply digitsFrom_nonneg; [|exact N]. lia.
  - apply Z.ltb_ge in Hi. exact Hi.
Qed.

(** C4, as stated, fails: on the progress line [Percent Complete=[250]]
    the function succeeds with 250, which is not in 0-100. *)
Lemma parsePercentComplete_above_100 :
  racadm.parsePercentComplete (jobView (progressLine "250" +:+ nl)) = (250, None)
  /\ ~ (0 <= 250 <= 100).
Proof. split; [reflexivity | lia]. Qed.

(** C4, amended: [parsePercentComplete] returns a parse error when no line
    of the input begins with [Percent Complete=[], and when the first such
    line is [Percent Complete=[invalid]]; whenever it succeeds, the value
    is that of the digits that the first such line holds between the
    brackets, an integer from 0 to the largest [int] (there is no upper
    bound of 100). *)
Theorem parsePercentComplete_errors_and_range :
  (forall message,
      Forall (fun line => strings.HasPrefix line "Percent Complete=[" = false)
             (strings.Split message newline) ->
      racadm.parsePercentComplete message
      = (0, Some (errors_New "failed to find Percent Complete in output")))
  /\ (forall message,
      firstProgressLine message = Some (progressLine "invalid") ->
      racadm.parsePercentComplete message
      = (0, Some (errors_New
           ("failed to extract Percent Complete using regex: " +:+ progressLine "invalid"))))
  /\ (forall message percentComplete,
      racadm.parsePercentComplete message = (percentComplete, None) ->
      0 <= percentComplete <= strconv.maxInt
      /\ exists line whole ds,
           firstProgressLine message = Some line
           /\ regexp.FindStringSubmatch line = [whole; ds]
           /\ strconv.digits ds = Some percentComplete).
Proof.
  split; [|split].
  - intros message A. unfold racadm.parsePercentComplete.
    rewrite parsePercentComplete_lines_find.
    destruct (find _ _) as [line|] eqn:F; [|reflexivity].
    apply find_some in F as [F1 F2].
    rewrite Forall_forall in A. rewrite (A _ F1) in F2. discriminate.
  - intros message F. unfold racadm.parsePercentComplete, firstProgressLine in *.
    rewrite parsePercentComplete_lines_find, F. reflexivity.
  - intros message v H. unfold racadm.parsePercentComplete, firstProgressLine in *.
    rewrite parsePercentComplete_lines_find in H.
    destruct (find _ _) as [line|] eqn:F; [|discriminate].
    pose proof (find_some _ _ F) as [_ P].
    cbn [racadm.parsePercentComplete_lines] in H. rewrite P in H.
    destruct (FindStringSubmatch_shape line) as [E | (whole & d & ds & E & D)];
      rewrite E in H; [discriminate|].
    destruct (strconv.Atoi (String d ds)) as [v' [err|]] eqn:A; [discriminate|].
    injection H as ->.
    destruct (Atoi_digits_range _ _ _ D A) as [N R].
    split; [exact R|]. exists line, whole, (String d ds). auto.
Qed.

Lemma parsePercentComplete_errors_and_range_witness :
  racadm.parsePercentComplete (jobView "")
  = (0, Some (errors_New "failed to find Percent Complete in output"))
  /\ racadm.parsePercentComplete (jobView (progressLine "invalid" +:+ nl))
     = (0, Some (errors_New
          ("failed to extract Percent Complete using regex: " +:+ progressLine "invalid")))
  /\ 0 <= 20 <= strconv.maxInt.
Proof.
  split; [|split].
  - apply (proj1 parsePercentComplete_errors_and_range).
    repeat constructor.
  - apply (proj1 (proj2 parsePercentComplete_errors_and_range)). reflexivity.
  - apply (proj2 (proj2 parsePercentComplete_errors_and_range)
             (jobView (progressLine "20" +:+ nl)) 20).
    reflexivity.
Defined.

(** ** The poll loop of ChangeBiosCfg *)

Section PollLoop.

Variable s : racadm.Racadm.
Variable jobID : string.

Lemma GetJobQueue_queryResult (res : racadm.exec_result) (tr : racadm.trace) :
  racadm.GetJobQueue s jobID res tr
  = (queryResult res, tr ++ [racadm.racadmArgs s "jobqueue" ["view"; "-i"; jobID]]).
Proof. destruct res as [[result|] [err|]]; reflexivity. Qed.

Lemma pollStep_failing (errorCount : Z) (ev : racadm.event) (tr : racadm.trace) :
  failingTick ev = true ->
  exists err,
    exceededMaxErrors err = true
    /\ racadm.pollStep s jobID errorCount ev tr
       = (if racadm.maxErrors <=? errorCount + 1
          then racadm.Returned (Some err)
          else racadm.Blocked (errorCount + 1),
          tr ++ [jobqueueView s jobID]).
Proof.
  destruct ev as [cerr| |res]; simpl; try discriminate.
  rewrite GetJobQueue_queryResult.
  destruct (queryResult res) as [output [err|]].
  - intros _. eexists. split; [|destruct (_ <=? _); reflexivity]. reflexivity.
  - destruct (racadm.parsePercentComplete output) as [p [err|]]; [|discriminate].
    intros _. eexists. split; [|destruct (_ <=? _); reflexivity]. reflexivity.
Qed.

Lemma pollStep_successful (errorCount : Z) (ev : racadm.event) (tr : racadm.trace)
    (percentComplete : Z) :
  successfulTick ev = Some percentComplete ->
  racadm.pollStep s jobID errorCount ev tr
  = (if percentComplete =? 100 then racadm.Returned None else racadm.Blocked 0,
     tr ++ [jobqueueView s jobID]).
Proof.
  destruct ev as [cerr| |res]; simpl; try discriminate.
  rewrite GetJobQueue_queryResult.
  destruct (queryResult res) as [output [err|]]; [discriminate|].
  destruct (racadm.parsePercentComplete output) as [p [err|]]; [discriminate|].
  intros [= ->]. destruct (_ =? _); reflexivity.
Qed.

Lemma pollLoop_app (pre post : list racadm.event) :
  forall errorCount tr,
    racadm.pollLoop s jobID errorCount (pre ++ post) tr
    = match racadm.pollLoop s jobID errorCount pre tr with
      | (racadm.Blocked errorCount', tr') =>
          racadm.pollLoop s jobID errorCount' post tr'
      | final => final
      end.
Proof.
  induction pre as [|ev pre IH]; intros errorCount tr; [reflexivity|].
  simpl. destruct (racadm.pollStep s jobID errorCount ev tr) as [[e|r|c] tr'];
    [reflexivity | reflexivity | apply IH].
Qed.

(** While the loop waits, [errorCount] is below the ceiling. *)
Lemma pollStep_errorCount (errorCount : Z) (ev : racadm.event) (tr tr' : racadm.trace)
    (errorCount' : Z) :
  0 <= errorCount < racadm.maxErrors ->
  racadm.pollStep s jobID errorCount ev tr = (racadm.Blocked errorCount', tr') ->
  0 <= errorCount' < racadm.maxErrors.
Proof.
  unfold racadm.maxErrors. intros B.
  destruct ev as [cerr| |res]; simpl; try discriminate.
  rewrite GetJobQueue_queryResult.
  destruct (queryResult res) as [output [err|]].
  - unfold racadm.maxErrors.
    destruct (3 <=? errorCount + 1) eqn:L; [discriminate|].
    apply Z.leb_gt in L. intros [= <- _]. lia.
  - destruct (racadm.parsePercentComplete output) as [p [err|]].
    + unfold racadm.maxErrors.
      destruct (3 <=? errorCount + 1) eqn:L; [discriminate|].
      apply Z.leb_gt in L. intros [= <- _]. lia.
    + destruct (p =? 100); [discriminate|]. intros [= <- _]. lia.
Qed.

Lemma pollLoop_errorCount (evs : list racadm.event) :
  forall errorCount tr tr' errorCount',
    0 <= errorCount < racadm.maxErrors ->
    racadm.pollLoop s jobID errorCount evs tr = (racadm.Blocked errorCount', tr') ->
    0 <= errorCount' < racadm.maxErrors.
Proof.
  induction evs as [|ev evs IH]; intros errorCount tr tr' errorCount' B H; simpl in H.
  - injection H as <- _. exact B.
  - destruct (racadm.pollStep s jobID errorCount ev tr) as [[e|r|c] tr1] eqn:S;
      try discriminate.
    eapply IH; [|exact H]. eapply pollStep_errorCount; eassumption.
Qed.

(** From any state in which the loop waits, three failing ticks in a row
    end it with the error of the ceiling, at the third of them at the
    latest. *)
Lemma pollLoop_three_failures (f1 f2 f3 : racadm.event) (rest : list racadm.event)
    (errorCount : Z) (tr : racadm.trace) :
  0 <= errorCount < racadm.maxErrors ->
  failingTick f1 = true -> failingTick f2 = true -> failingTick f3 = true ->
  exists err tr',
    racadm.pollLoop s jobID errorCount (f1 :: f2 :: f3 :: rest) tr
    = (racadm.Returned (Some err), tr')
    /\ exceededMaxErrors err = true.
Proof.
  unfold racadm.maxErrors. intros B F1 F2 F3.
  cbn [racadm.pollLoop].
  destruct (pollStep_failing errorCount f1 tr F1) as (e1 & X1 & ->).
  unfold racadm.maxErrors.
  destruct (3 <=? errorCount + 1) eqn:L1; [eauto|].
  destruct (pollStep_failing (errorCount + 1) f2
              (tr ++ [jobqueueView s jobID]) F2) as (e2 & X2 & ->).
  unfold racadm.maxErrors.
  destruct (3 <=? errorCount + 1 + 1) eqn:L2; [eauto|].
  destruct (pollStep_failing (errorCount + 1 + 1) f3
              ((tr ++ [jobqueueView s jobID]) ++ [jobqueueView s jobID]) F3)
    as (e3 & X3 & ->).
  unfold racadm.maxErrors.
  destruct (3 <=? errorCount + 1 + 1 + 1) eqn:L3; [eauto|].
  apply Z.leb_gt in L3. lia.
Qed.

(** The loop only ever adds to the commands that were run. *)
Lemma pollStep_trace (errorCount : Z) (ev : racadm.event) (tr : racadm.trace) :
  exists ext, snd (racadm.pollStep s jobID errorCount ev tr) = tr ++ ext.
Proof.
  destruct ev as [cerr| |res]; simpl.
  - exists []. symmetry. apply app_nil_r.
  - exists []. symmetry. apply app_nil_r.
  - rewrite GetJobQueue_queryResult. exists [jobqueueView s jobID].
    destruct (queryResult res) as [output [err|]].
    + destruct (_ <=? _); reflexivity.
    + destruct (racadm.parsePercentComplete output) as [p [err|]];
        destruct (_ : bool); reflexivity.
Qed.

Lemma pollLoop_trace (evs : list racadm.event) :
  forall errorCount tr,
    exists ext, snd (racadm.pollLoop s jobID errorCount evs tr) = tr ++ ext.
Proof.
  induction evs as [|ev evs IH]; intros errorCount tr; simpl.
  - exists []. symmetry. apply app_nil_r.
  - destruct (pollStep_trace errorCount ev tr) as [ext1 E1].
    destruct (racadm.pollStep s jobID errorCount ev tr) as [[e|r|c] tr1];
      simpl in E1; subst tr1; try (exists ext1; reflexivity).
    destruct (IH c (tr ++ ext1)) as [ext2 E2].
    exists (ext1 ++ ext2). rewrite E2. symmetry. apply app_assoc.
Qed.

End PollLoop.

(** Once the deadline check has passed and the submission has yielded a
    job identifier, [ChangeBiosCfg] is its poll loop, started with no
    errors counted. *)
Lemma ChangeBiosCfg_polls (s : racadm.Racadm) (ctx : racadm.Context) (now : time.Time)
    (cfgFile jobID output : string) (setRes : racadm.exec_result)
    (evs : list racadm.event) :
  racadm.timeout <= time.Until now (racadm.Deadline ctx) ->
  queryResult setRes = (output, None) ->
  racadm.parseJobId output = Done (jobID, None) ->
  racadm.ChangeBiosCfg s ctx now cfgFile setRes evs
  = racadm.pollLoop s jobID 0 evs [racadm.racadmArgs s "set" ["-t"; "xml"; "-f"; cfgFile]].
Proof.
  intros T Q P. unfold racadm.ChangeBiosCfg.
  replace (time.Until now (racadm.Deadline ctx) <? racadm.timeout) with false
    by (symmetry; apply Z.ltb_ge; exact T).
  destruct setRes as [[result|] [err|]]; simpl in Q; try discriminate;
    injection Q as <-; unfold racadm.run; cbv iota beta zeta; rewrite P; reflexivity.
Qed.

(** A failing tick returns the error of the ceiling, made of its own
    error alone, or leaves the loop waiting with one failure more. *)
Lemma pollStep_failing_error (s : racadm.Racadm) (jobID : string) (errorCount : Z)
    (ev : racadm.event) (tr : racadm.trace) :
  failingTick ev = true ->
  exists e,
    tickError ev = Some e
    /\ racadm.pollStep s jobID errorCount ev tr
       = (if racadm.maxErrors <=? errorCount + 1
          then racadm.Returned (Some (fmt_Errorf_w (exceededMessage ev) e))
          else racadm.Blocked (errorCount + 1),
          tr ++ [jobqueueView s jobID]).
Proof.
  destruct ev as [cerr| |res]; simpl; try discriminate.
  rewrite GetJobQueue_queryResult.
  destruct (queryResult res) as [output [err|]].
  - intros _. exists err. split; [reflexivity|]. destruct (_ <=? _); reflexivity.
  - destruct (racadm.parsePercentComplete output) as [p [err|]]; [|discriminate].
    intros _. exists err. split; [reflexivity|]. destruct (_ <=? _); reflexivity.
Qed.

(** From a state in which the loop waits with [errorCount] failures
    behind it, three failing ticks in a row end the loop on the tick that
    is the third failure in a row, with the error of that tick alone. *)
Ltac step_count :=
  cbn [Z.add Z.leb Z.compare racadm.maxErrors Pos.compare Pos.compare_cont Pos.add
       racadm.pollLoop].

Lemma pollLoop_three_failures_error (s : racadm.Racadm) (jobID : string)
    (f1 f2 f3 : racadm.event) (rest : list racadm.event)
    (errorCount : Z) (tr : racadm.trace) :
  0 <= errorCount < racadm.maxErrors ->
  failingTick f1 = true -> failingTick f2 = true -> failingTick f3 = true ->
  let last := nth (Z.to_nat (2 - errorCount)) [f1; f2; f3] f3 in
  exists e tr',
    tickError last = Some e
    /\ racadm.pollLoop s jobID errorCount (f1 :: f2 :: f3 :: rest) tr
       = (racadm.Returned (Some (fmt_Errorf_w (exceededMessage last) e)), tr').
Proof.
  unfold racadm.maxErrors. intros B F1 F2 F3.
  assert (errorCount = 0 \/ errorCount = 1 \/ errorCount = 2) as [-> | [-> | ->]] by lia;
    cbn [racadm.pollLoop].
  - destruct (pollStep_failing_error s jobID 0 f1 tr F1) as (e1 & _ & ->). step_count.
    destruct (pollStep_failing_error s jobID 1 f2 (tr ++ [jobqueueView s jobID]) F2)
      as (e2 & _ & ->). step_count.
    destruct (pollStep_failing_error s jobID 2 f3
                ((tr ++ [jobqueueView s jobID]) ++ [jobqueueView s jobID]) F3)
      as (e3 & T3 & ->). step_count.
    eauto.
  - destruct (pollStep_failing_error s jobID 1 f1 tr F1) as (e1 & _ & ->). step_count.
    destruct (pollStep_failing_error s jobID 2 f2 (tr ++ [jobqueueView s jobID]) F2)
      as (e2 & T2 & ->). step_count.
    eauto.
  - destruct (pollStep_failing_error s jobID 2 f1 tr F1) as (e1 & T1 & ->). step_count.
    eauto.
Qed.

(** C1, as stated, fails.  The error of the ceiling is not aggregated: it
    is made of the error of the one tick on which the ceiling is reached,
    and the errors of the two failing ticks before it are not in it; the
    same error comes back when those two fail in another way.  And two
    failing ticks followed by a tick that queries and parses successfully
    do end the loop when that tick reads 100 percent (the call returns
    nil). *)
Lemma pollLoop_error_not_aggregated :
  let first := racadm.Tick (failedQueryWith "exit status 1") in
  let second := racadm.Tick (viewOf "invalid") in
  let third := racadm.Tick (failedQueryWith "connection refused") in
  let returned :=
    fmt_Errorf_w "exceeded maximum consecutive errors while waiting for job completion: "
      (errors_New "connection refused") in
  tickError first = Some (errors_New "exit status 1")
  /\ tickError second
     = Some (errors_New
               "failed to extract Percent Complete using regex: Percent Complete=[invalid]")
  /\ fst (racadm.pollLoop someRacadm "JID_000123456789" 0 [first; second; third] [])
     = racadm.Returned (Some returned)
  /\ Error returned
     = "exceeded maximum consecutive errors while waiting for job completion: connection refused"
  /\ fst (racadm.pollLoop someRacadm "JID_000123456789" 0 [third; third; third] [])
     = racadm.Returned (Some returned)
  /\ fst (racadm.pollLoop someRacadm "JID_000123456789" 0
            [first; second; racadm.Tick (viewOf "100")] [])
     = racadm.Returned None.
Proof. cbv zeta. repeat split. Qed.

(** C1, amended: in the poll loop of [ChangeBiosCfg], after any sequence
    of wake-ups that leaves the loop waiting, three failing ticks in a row
    (the status query fails, or its output does not parse) make the
    operation return one of the [exceeded maximum consecutive errors]
    errors.  That error is not aggregated: it wraps the error of the one
    tick on which the count of failures in a row reaches three (the third
    of the three when the loop starts or a success came before them), and
    nothing of the failing ticks before it.  A tick that queries and
    parses successfully sets the counter of consecutive errors to zero; so
    two failures followed by one success never make the operation fail:
    the loop goes on waiting with the counter at zero, unless that success
    reads 100 percent, on which the operation returns without error. *)
Theorem pollLoop_consecutive_errors (s : racadm.Racadm) (jobID : string) :
  (forall pre f1 f2 f3 rest errorCount tr0 tr,
      racadm.pollLoop s jobID 0 pre tr0 = (racadm.Blocked errorCount, tr) ->
      failingTick f1 = true -> failingTick f2 = true -> failingTick f3 = true ->
      let last := nth (Z.to_nat (2 - errorCount)) [f1; f2; f3] f3 in
      exists e tr',
        tickError last = Some e
        /\ racadm.pollLoop s jobID 0 (pre ++ f1 :: f2 :: f3 :: rest) tr0
           = (racadm.Returned (Some (fmt_Errorf_w (exceededMessage last) e)), tr')
        /\ exceededMaxErrors (fmt_Errorf_w (exceededMessage last) e) = true)
  /\ (forall f1 f2 f3 rest tr,
      failingTick f1 = true -> failingTick f2 = true -> failingTick f3 = true ->
      exists e,
        tickError f3 = Some e
        /\ racadm.pollLoop s jobID 0 (f1 :: f2 :: f3 :: rest) tr
           = (racadm.Returned (Some (fmt_Errorf_w (exceededMessage f3) e)),
              tr ++ [jobqueueView s jobID; jobqueueView s jobID; jobqueueView s jobID]))
  /\ (forall errorCount ok percentComplete tr,
      successfulTick ok = Some percentComplete ->
      racadm.pollStep s jobID errorCount ok tr
      = (if percentComplete =? 100 then racadm.Returned None else racadm.Blocked 0,
         tr ++ [jobqueueView s jobID]))
  /\ (forall f1 f2 ok percentComplete tr,
      failingTick f1 = true -> failingTick f2 = true ->
      successfulTick ok = Some percentComplete ->
      racadm.pollLoop s jobID 0 [f1; f2] tr
      = (racadm.Blocked 2, tr ++ [jobqueueView s jobID; jobqueueView s jobID])
      /\ racadm.pollLoop s jobID 0 [f1; f2; ok] tr
         = (if percentComplete =? 100 then racadm.Returned None else racadm.Blocked 0,
            tr ++ [jobqueueView s jobID; jobqueueView s jobID; jobqueueView s jobID])).
Proof.
  split; [|split; [|split]].
  - intros pre f1 f2 f3 rest errorCount tr0 tr H F1 F2 F3 last.
    rewrite pollLoop_app, H.
    assert (0 <= errorCount < racadm.maxErrors) as B.
    { eapply pollLoop_errorCount; [|exact H]. unfold racadm.maxErrors. lia. }
    destruct (pollLoop_three_failures_error s jobID f1 f2 f3 rest errorCount tr
                B F1 F2 F3) as (e & tr' & T & L).
    exists e, tr'. split; [exact T|]. split; [exact L|].
    assert (failingTick last = true) as FL.
    { subst last. unfold racadm.maxErrors in B.
      assert (errorCount = 0 \/ errorCount = 1 \/ errorCount = 2) as [-> | [-> | ->]]
        by lia; assumption. }
    destruct last as [cerr| |res]; try discriminate FL.
    cbn [exceededMessage exceededMaxErrors].
    destruct (queryResult res) as [output [err|]]; reflexivity.
  - intros f1 f2 f3 rest tr F1 F2 F3.
    cbn [racadm.pollLoop].
    destruct (pollStep_failing_error s jobID 0 f1 tr F1) as (e1 & _ & ->). step_count.
    destruct (pollStep_failing_error s jobID 1 f2 (tr ++ [jobqueueView s jobID]) F2)
      as (e2 & _ & ->). step_count.
    destruct (pollStep_failing_error s jobID 2 f3
                ((tr ++ [jobqueueView s jobID]) ++ [jobqueueView s jobID]) F3)
      as (e3 & T3 & ->). step_count.
    exists e3. split; [exact T3|]. rewrite <- !app_assoc. reflexivity.
  - intros errorCount ok percentComplete tr S. apply pollStep_successful, S.
  - intros f1 f2 ok percentComplete tr F1 F2 S.
    cbn [racadm.pollLoop].
    destruct (pollStep_failing s jobID 0 f1 tr F1) as (e1 & _ & ->).
    cbn [Z.add Z.leb Z.compare racadm.maxErrors Pos.compare Pos.compare_cont].
    destruct (pollStep_failing s jobID 1 f2 (tr ++ [jobqueueView s jobID]) F2)
      as (e2 & _ & ->).
    cbn [Z.add Z.leb Z.compare racadm.maxErrors Pos.compare Pos.compare_cont Pos.add].
    rewrite (pollStep_successful s jobID 2 ok _ percentComplete S).
    rewrite <- !app_assoc. cbn [app].
    split; [reflexivity|]. destruct (percentComplete =? 100); reflexivity.
Qed.

Lemma pollLoop_consecutive_errors_witness :
  (exists tr',
      racadm.pollLoop someRacadm "JID_000123456789" 0
        ([racadm.Tick failedQuery; racadm.Tick (viewOf "20")]
           ++ racadm.Tick (failedQueryWith "exit status 1") :: racadm.Tick (viewOf "invalid")
              :: racadm.Tick (failedQueryWith "connection refused")
              :: [racadm.Tick (viewOf "100")]) []
      = (racadm.Returned (Some (fmt_Errorf_w
           "exceeded maximum consecutive errors while waiting for job completion: "
           (errors_New "connection refused"))), tr'))
  /\ fst (racadm.pollLoop someRacadm "JID_000123456789" 0
            [racadm.Tick failedQuery; racadm.Tick failedQuery; racadm.Tick (viewOf "invalid")]
            [])
     = racadm.Returned (Some (fmt_Errorf_w
         "exceeded maximum consecutive errors while parsing percent complete: "
         (errors_New
            "failed to extract Percent Complete using regex: Percent Complete=[invalid]")))
  /\ fst (racadm.pollStep someRacadm "JID_000123456789" 2 (racadm.Tick (viewOf "20")) [])
     = racadm.Blocked 0
  /\ fst (racadm.pollLoop someRacadm "JID_000123456789" 0
            [racadm.Tick failedQuery; racadm.Tick (viewOf "invalid"); racadm.Tick (viewOf "40")] [])
     = racadm.Blocked 0.
Proof.
  pose proof (pollLoop_consecutive_errors someRacadm "JID_000123456789") as (H1 & H2 & H3 & H4).
  split; [|split; [|split]].
  - destruct (H1 [racadm.Tick failedQuery; racadm.Tick (viewOf "20")]
                (racadm.Tick (failedQueryWith "exit status 1"))
                (racadm.Tick (viewOf "invalid"))
                (racadm.Tick (failedQueryWith "connection refused"))
                [racadm.Tick (viewOf "100")] 0 [] _ eq_refl eq_refl eq_refl eq_refl)
      as (e & tr' & T & L & _).
    cbn in T. injection T as <-. exists tr'. exact L.
  - destruct (H2 (racadm.Tick failedQuery) (racadm.Tick failedQuery)
                (racadm.Tick (viewOf "invalid")) [] [] eq_refl eq_refl eq_refl)
      as (e & T & L).
    cbn in T. injection T as <-. rewrite L. reflexivity.
  - rewrite (H3 2 (racadm.Tick (viewOf "20")) 20 []); reflexivity.
  - rewrite (proj2 (H4 (racadm.Tick failedQuery) (racadm.Tick (viewOf "invalid"))
                      (racadm.Tick (viewOf "40")) 40 [] eq_refl eq_refl eq_refl)).
    reflexivity.
Defined.

(** ** The deadline check of ChangeBiosCfg *)

(** C2: [ChangeBiosCfg] compares what is left until the deadline of the
    context with the fixed minimum of 14 minutes 30 seconds before it runs
    anything: when less is left, it returns an error and has run no
    command at all, so the racadm [set] command is never executed; when
    enough is left, the [set] command is the first command it runs. *)
Theorem ChangeBiosCfg_checks_deadline_first (s : racadm.Racadm) (ctx : racadm.Context)
    (now : time.Time) (cfgFile : string) (setRes : racadm.exec_result)
    (evs : list racadm.event) :
  racadm.timeout = 14 * 60 * 1000000000 + 30 * 1000000000
  /\ (time.Until now (racadm.Deadline ctx) < racadm.timeout ->
      exists err,
        racadm.ChangeBiosCfg s ctx now cfgFile setRes evs
        = (racadm.Returned (Some err), []))
  /\ (racadm.timeout <= time.Until now (racadm.Deadline ctx) ->
      exists st tr,
        racadm.ChangeBiosCfg s ctx now cfgFile setRes evs
        = (st, racadm.racadmArgs s "set" ["-t"; "xml"; "-f"; cfgFile] :: tr)).
Proof.
  split; [reflexivity|]. split; intros T; unfold racadm.ChangeBiosCfg.
  - replace (time.Until now (racadm.Deadline ctx) <? racadm.timeout) with true
      by (symmetry; apply Z.ltb_lt; exact T).
    eauto.
  - replace (time.Until now (racadm.Deadline ctx) <? racadm.timeout) with false
      by (symmetry; apply Z.ltb_ge; exact T).
    destruct setRes as [[result|] [err|]]; unfold racadm.run; cbv iota beta zeta;
      try (do 2 eexists; reflexivity).
    all: match goal with
         | |- context [racadm.parseJobId ?output] =>
             destruct (racadm.parseJobId output) as [[jobID [err|]]|reason];
             try (do 2 eexists; reflexivity)
         end.
    all: destruct (pollLoop_trace s jobID evs 0
                     ([] ++ [racadm.racadmArgs s "set" ["-t"; "xml"; "-f"; cfgFile]]))
           as [ext E];
         destruct (racadm.pollLoop _ _ _ _ _) as [st tr]; simpl in E; subst tr;
         do 2 eexists; reflexivity.
Qed.

Lemma ChangeBiosCfg_checks_deadline_first_witness :
  (exists err,
      racadm.ChangeBiosCfg someRacadm noDeadline 63000000000000000000 "bios.xml"
        (Some {| racadm.Stdout := jobCreated; racadm.Stderr := "" |}, None)
        [racadm.Tick (viewOf "100")]
      = (racadm.Returned (Some err), []))
  /\ (exists err,
      racadm.ChangeBiosCfg someRacadm (deadlineIn 63000000000000000000 (10 * time.Minute))
        63000000000000000000 "bios.xml"
        (Some {| racadm.Stdout := jobCreated; racadm.Stderr := "" |}, None)
        [racadm.Tick (viewOf "100")]
      = (racadm.Returned (Some err), []))
  /\ (exists st tr,
      racadm.ChangeBiosCfg someRacadm (deadlineIn 63000000000000000000 (15 * time.Minute))
        63000000000000000000 "bios.xml"
        (Some {| racadm.Stdout := jobCreated; racadm.Stderr := "" |}, None)
        [racadm.Tick (viewOf "100")]
      = (st, racadm.racadmArgs someRacadm "set" ["-t"; "xml"; "-f"; "bios.xml"] :: tr)).
Proof.
  split; [|split].
  - apply (proj1 (proj2 (ChangeBiosCfg_checks_deadline_first _ _ _ _ _ _))).
    vm_compute. reflexivity.
  - apply (proj1 (proj2 (ChangeBiosCfg_checks_deadline_first _ _ _ _ _ _))).
    vm_compute. reflexivity.
  - apply (proj2 (proj2 (ChangeBiosCfg_checks_deadline_first _ _ _ _ _ _))).
    vm_compute. discriminate.
Defined.

(** * Properties of package idrac8 *)

(** ** UploadHTTPSCert *)

Lemma failed_true (err : option error) (statusCode expected : Z) :
  err <> None \/ statusCode <> expected -> idrac8.failed err statusCode expected = true.
Proof.
  unfold idrac8.failed. intros [H|H].
  - destruct err; [reflexivity | congruence].
  - apply Z.eqb_neq in H. rewrite H. apply orb_true_r.
Qed.

Lemma uploadEndpoint_not_certEndpoint (i : idrac8.IDrac8) :
  idrac8.uploadEndpoint i <> idrac8.certEndpoint.
Proof. unfold idrac8.uploadEndpoint, idrac8.certEndpoint. simpl. discriminate. Qed.

(** C9, as stated, fails for a transport error: when the POST of the
    multipart form (phase 1) comes back with the transport error [EOF],
    [UploadHTTPSCert] returns that error as it is; its message is [EOF]
    and refers to nothing of phase 1.  The very same error is returned
    when phase 1 succeeds and the POST of the resource locator (phase 2)
    comes back with that transport error. *)
Lemma UploadHTTPSCert_transport_error_is_bare :
  let phase1 :=
    idrac8.POST (idrac8.uploadEndpoint someIDrac8) "CERT"
      "multipart/form-data; boundary=x" in
  let phase2 := idrac8.POST idrac8.certEndpoint (dq +:+ "" +:+ dq) "" in
  let failed1 :=
    idrac8.UploadHTTPSCert (transportFailsAt 0) someIDrac8 "CERT" "cert.pem" "" ""
      idrac8.emptyWorld in
  let failed2 :=
    idrac8.UploadHTTPSCert (transportFailsAt 1) someIDrac8 "CERT" "cert.pem" "" ""
      idrac8.emptyWorld in
  fst failed1 = (false, Some (errors_New "EOF"))
  /\ idrac8.calls (snd failed1) = [phase1]
  /\ Error (errors_New "EOF") = "EOF"
  /\ fst failed2 = (false, Some (errors_New "EOF"))
  /\ idrac8.calls (snd failed2) = [phase1; phase2].
Proof. cbv zeta. repeat split. Qed.

(** C9, amended: when the POST of the multipart form (phase 1) comes back
    with a transport error or with a status other than 201,
    [UploadHTTPSCert] makes no further call: the POST of the resource
    locator (phase 2) is not attempted, and the result is [false] with an
    error.  For a status other than 201 without a transport error, that
    error names the endpoint of the phase-1 upload, which is not that of
    phase 2.  A transport error of phase 1 is returned as it is, with no
    reference to phase 1, and so is a transport error of phase 2.  When
    both phases come back with 201 and no transport error, the result is
    [true] without an error. *)
Theorem UploadHTTPSCert_two_phases (E : idrac8.Env) (i : idrac8.IDrac8)
    (cert certFileName key keyFileName form contentType : string) (w : idrac8.World) :
  idrac8.multipartForm E cert certFileName = (form, contentType, None) ->
  let phase1 := idrac8.POST (idrac8.uploadEndpoint i) form contentType in
  (forall status body transportErr,
      idrac8.http E (idrac8.calls w) phase1 = (status, body, Some transportErr) ->
      exists w',
        idrac8.UploadHTTPSCert E i cert certFileName key keyFileName w
        = ((false, Some transportErr), w')
        /\ idrac8.calls w' = idrac8.calls w ++ [phase1])
  /\ (forall status body,
      idrac8.http E (idrac8.calls w) phase1 = (status, body, None) ->
      status <> 201 ->
      exists w',
        idrac8.UploadHTTPSCert E i cert certFileName key keyFileName w
        = ((false, Some (idrac8.expected201 (idrac8.uploadEndpoint i))), w')
        /\ idrac8.calls w' = idrac8.calls w ++ [phase1]
        /\ Error (idrac8.expected201 (idrac8.uploadEndpoint i))
           = "Cert form upload POST request to " +:+ idrac8.uploadEndpoint i
             +:+ " failed, expected 201."
        /\ idrac8.uploadEndpoint i <> idrac8.certEndpoint)
  /\ (forall body1 file resourceURI status body2 transportErr,
      idrac8.http E (idrac8.calls w) phase1 = (201, body1, None) ->
      idrac8.json_Unmarshal_certStore E body1 = (file, None) ->
      idrac8.json_Marshal_string E file = (resourceURI, None) ->
      let phase2 := idrac8.POST idrac8.certEndpoint resourceURI "" in
      idrac8.http E (idrac8.calls w ++ [phase1]) phase2
      = (status, body2, Some transportErr) ->
      exists w',
        idrac8.UploadHTTPSCert E i cert certFileName key keyFileName w
        = ((false, Some transportErr), w')
        /\ idrac8.calls w' = idrac8.calls w ++ [phase1; phase2])
  /\ (forall body1 file resourceURI body2,
      idrac8.http E (idrac8.calls w) phase1 = (201, body1, None) ->
      idrac8.json_Unmarshal_certStore E body1 = (file, None) ->
      idrac8.json_Marshal_string E file = (resourceURI, None) ->
      let phase2 := idrac8.POST idrac8.certEndpoint resourceURI "" in
      idrac8.http E (idrac8.calls w ++ [phase1]) phase2 = (201, body2, None) ->
      exists w',
        idrac8.UploadHTTPSCert E i cert certFileName key keyFileName w
        = ((true, None), w')
        /\ idrac8.calls w' = idrac8.calls w ++ [phase1; phase2]).
Proof.
  intros F phase1. split; [|split; [|split]].
  - intros status body transportErr H.
    unfold idrac8.UploadHTTPSCert. rewrite F.
    unfold idrac8.bind, idrac8.post, idrac8.send. fold phase1. rewrite H.
    cbn [idrac8.failed orb].
    unfold idrac8.logError, idrac8.ret. cbn [idrac8.calls].
    eexists. split; reflexivity.
  - intros status body H Bad.
    unfold idrac8.UploadHTTPSCert. rewrite F.
    unfold idrac8.bind, idrac8.post, idrac8.send. fold phase1. rewrite H.
    rewrite (failed_true None status 201 (or_intror Bad)).
    unfold idrac8.logError, idrac8.ret. cbn [idrac8.calls].
    eexists. split; [reflexivity|]. cbn [idrac8.calls].
    repeat split. apply uploadEndpoint_not_certEndpoint.
  - intros body1 file resourceURI status body2 transportErr H1 U Ma phase2 H2.
    unfold idrac8.UploadHTTPSCert. rewrite F.
    unfold idrac8.bind, idrac8.post, idrac8.send. fold phase1. rewrite H1.
    cbn [idrac8.failed Z.eqb Pos.eqb negb orb].
    rewrite U, Ma. cbn [idrac8.calls]. fold phase2. rewrite H2.
    cbn [idrac8.failed orb].
    unfold idrac8.logError, idrac8.ret. cbn [idrac8.calls].
    eexists. split; [reflexivity|]. cbn [idrac8.calls].
    rewrite <- app_assoc. reflexivity.
  - intros body1 file resourceURI body2 H1 U Ma phase2 H2.
    unfold idrac8.UploadHTTPSCert. rewrite F.
    unfold idrac8.bind, idrac8.post, idrac8.send. fold phase1. rewrite H1.
    cbn [idrac8.failed Z.eqb Pos.eqb negb orb].
    rewrite U, Ma. cbn [idrac8.calls]. fold phase2. rewrite H2.
    cbn [idrac8.failed Z.eqb Pos.eqb negb orb]. unfold idrac8.ret.
    eexists. split; [reflexivity|]. cbn [idrac8.calls].
    rewrite <- app_assoc. reflexivity.
Qed.

Lemma UploadHTTPSCert_two_phases_witness :
  (exists w',
      idrac8.UploadHTTPSCert (transportFailsAt 0) someIDrac8 "CERT" "cert.pem" "" ""
        idrac8.emptyWorld
      = ((false, Some (errors_New "EOF")), w')
      /\ idrac8.calls w'
         = [] ++ [idrac8.POST (idrac8.uploadEndpoint someIDrac8) "CERT"
                    "multipart/form-data; boundary=x"])
  /\ (exists w',
      idrac8.UploadHTTPSCert (answering 500) someIDrac8 "CERT" "cert.pem" "" ""
        idrac8.emptyWorld
      = ((false, Some (idrac8.expected201 (idrac8.uploadEndpoint someIDrac8))), w')
      /\ idrac8.calls w'
         = [] ++ [idrac8.POST (idrac8.uploadEndpoint someIDrac8) "CERT"
                    "multipart/form-data; boundary=x"])
  /\ (exists w',
      idrac8.UploadHTTPSCert (transportFailsAt 1) someIDrac8 "CERT" "cert.pem" "" ""
        idrac8.emptyWorld
      = ((false, Some (errors_New "EOF")), w'))
  /\ (exists w',
      idrac8.UploadHTTPSCert (answering 201) someIDrac8 "CERT" "cert.pem" "" ""
        idrac8.emptyWorld
      = ((true, None), w')).
Proof.
  split; [|split; [|split]].
  - pose proof (UploadHTTPSCert_two_phases (transportFailsAt 0) someIDrac8
                  "CERT" "cert.pem" "" "" "CERT" "multipart/form-data; boundary=x"
                  idrac8.emptyWorld eq_refl) as H.
    cbv zeta in H. destruct H as (H & _).
    exact (H 0 "" (errors_New "EOF") eq_refl).
  - pose proof (UploadHTTPSCert_two_phases (answering 500) someIDrac8
                  "CERT" "cert.pem" "" "" "CERT" "multipart/form-data; boundary=x"
                  idrac8.emptyWorld eq_refl) as H.
    cbv zeta in H. destruct H as (_ & H & _).
    destruct (H 500 "" eq_refl) as (w' & R & C & _); [discriminate|].
    exists w'. split; assumption.
  - pose proof (UploadHTTPSCert_two_phases (transportFailsAt 1) someIDrac8
                  "CERT" "cert.pem" "" "" "CERT" "multipart/form-data; boundary=x"
                  idrac8.emptyWorld eq_refl) as H.
    cbv zeta in H. destruct H as (_ & _ & H & _).
    destruct (H "" "" (dq +:+ "" +:+ dq) 0 "" (errors_New "EOF")
                eq_refl eq_refl eq_refl eq_refl) as (w' & R & _).
    exists w'. exact R.
  - pose proof (UploadHTTPSCert_two_phases (answering 201) someIDrac8
                  "CERT" "cert.pem" "" "" "CERT" "multipart/form-data; boundary=x"
                  idrac8.emptyWorld eq_refl) as H.
    cbv zeta in H. destruct H as (_ & _ & _ & H).
    specialize (H "" "" (dq +:+ "" +:+ dq) "" eq_refl eq_refl eq_refl eq_refl).
    destruct H as (w' & H & _).
    exists w'. exact H.
Defined.

(** ** Status codes that the callers do not turn into errors *)

(** C6 fails on the code.  [Network] returns the transport error of its
    POST and nothing else: on a status code other than 200 without a
    transport error it logs the failure and returns nil.  [Ntp] never
    returns an error, whatever the answers to its two GET calls are.  On a
    device that answers every call with 500 and no transport error, both
    return nil, and each has logged the failures; so do [Syslog], which
    does not look at status codes, and [LdapGroups], for its final POST. *)
Theorem Network_Ntp_return_nil_on_bad_status :
  (forall E i cfg w,
      fst (idrac8.Network E i cfg w)
      = (false, snd (idrac8.http E (idrac8.calls w)
                       (idrac8.POST "data?set" (idrac8.networkPayload cfg) ""))))
  /\ (forall E i cfg w, fst (idrac8.Ntp E i cfg w) = None)
  /\ fst (idrac8.Network (answering 500) someIDrac8 someNetwork idrac8.emptyWorld)
     = (false, None)
  /\ map idrac8.message
       (idrac8.log (snd (idrac8.Network (answering 500) someIDrac8 someNetwork
                           idrac8.emptyWorld)))
     = ["POST request to set Network params failed."]
  /\ fst (idrac8.Ntp (answering 500) someIDrac8 someNtp idrac8.emptyWorld) = None
  /\ map idrac8.message
       (idrac8.log (snd (idrac8.Ntp (answering 500) someIDrac8 someNtp
                           idrac8.emptyWorld)))
     = ["applyTimezoneParam(): GET request failed."; "Timezone param applied.";
        "applyNtpServerParam(): GET request failed."; "NTP servers param applied."]
  /\ fst (idrac8.Syslog (answering 500) someIDrac8 someSyslog idrac8.emptyWorld) = None
  /\ fst (idrac8.LdapGroups (answering 500) someIDrac8 []
             (ldapWith 636 "dc=example,dc=com" "uid" "memberUid") idrac8.emptyWorld)
     = None.
Proof.
  split; [|split]; [| |repeat split; vm_compute; reflexivity].
  - intros E i cfg w. unfold idrac8.Network, idrac8.bind, idrac8.post, idrac8.send.
    destruct (idrac8.http E (idrac8.calls w) _) as [[status body] err].
    destruct (idrac8.failed err status 200); reflexivity.
  - intros E i cfg w. unfold idrac8.Ntp.
    destruct (idrac8.isEmpty (cfgresources.Ntp_Server1 cfg)); [reflexivity|].
    destruct (idrac8.isEmpty (cfgresources.Ntp_Timezone cfg)); [reflexivity|].
    unfold idrac8.bind.
    destruct (idrac8.applyTimezoneParam _ _ _ _) as [u1 w1].
    destruct (idrac8.applyNtpServerParam _ _ _ _) as [u2 w2].
    reflexivity.
Qed.

(** ** Validation before the network *)

Lemma isEmpty_true (s : string) : s = "" -> idrac8.isEmpty s = true.
Proof. intros ->. reflexivity. Qed.

(** ** User *)

Section UserLoop.

Variable E : idrac8.Env.
Variable i : idrac8.IDrac8.
Variable idracUsers : idrac8.UserInfo.

(** What one round does: it logs one or two entries, of which exactly one
    ends the round and names the user, and it makes at most one call, a
    [putUser]. *)
Lemma userRound_effect (err : option error)
    (cfgUser : cfgresources.User) (w : idrac8.World) :
  exists newLog newCalls,
    idrac8.log (snd (idrac8.userRound E i idracUsers err cfgUser w))
    = idrac8.log w ++ newLog
    /\ map userOf (filter endsRound newLog) = [cfgresources.User_Name cfgUser]
    /\ idrac8.calls (snd (idrac8.userRound E i idracUsers err cfgUser w))
       = idrac8.calls w ++ newCalls
    /\ (length newCalls <= 1)%nat
    /\ forallb isPutUser newCalls = true.
Proof.
  unfold idrac8.userRound.
  destruct (idrac8.userInIdrac E _ idracUsers) as [[userID userInfo] uExists].
  destruct (cfgresources.User_Enable cfgUser).
  - destruct uExists; cbn [negb].
    + unfold idrac8.bind, idrac8.putUser.
      destruct (idrac8.putUser_result E _ _ _) as [putErr|];
        unfold idrac8.bind, idrac8.logError, idrac8.logInfo, idrac8.ret;
        cbn [idrac8.log idrac8.calls snd];
        do 2 eexists; (split; [reflexivity|]); (split; [reflexivity|]);
        (split; [reflexivity|]); split; [simpl; lia | reflexivity | simpl; lia | reflexivity].
    + destruct (idrac8.getEmptyUserSlot E idracUsers) as [[slotID slotInfo] [slotErr|]].
      * unfold idrac8.bind, idrac8.logError, idrac8.ret. cbn [idrac8.log idrac8.calls snd].
        exists [{| idrac8.level := idrac8.ErrorLevel (Some slotErr);
                   idrac8.message := "Unable to add new User.";
                   idrac8.keysAndValues :=
                     idrac8.stdKV E i ++
                     [("step", idrac8.WhosCalling E "User");
                      ("User", cfgresources.User_Name cfgUser)] |}], [].
        split; [reflexivity|]. split; [reflexivity|].
        split; [symmetry; apply app_nil_r|]. split; [simpl; lia | reflexivity].
      * unfold idrac8.bind, idrac8.putUser.
        destruct (idrac8.putUser_result E _ _ _) as [putErr|];
          unfold idrac8.bind, idrac8.logError, idrac8.logInfo, idrac8.ret;
          cbn [idrac8.log idrac8.calls snd];
          do 2 eexists; (split; [reflexivity|]); (split; [reflexivity|]);
          (split; [reflexivity|]); split; [simpl; lia | reflexivity | simpl; lia | reflexivity].
  - destruct uExists.
    + unfold idrac8.bind, idrac8.putUser.
      destruct (idrac8.putUser_result E _ _ _) as [putErr|];
        unfold idrac8.bind, idrac8.logError, idrac8.logInfo, idrac8.ret;
        cbn [idrac8.log idrac8.calls snd]; rewrite <- ?app_assoc;
        do 2 eexists; (split; [reflexivity|]); (split; [reflexivity|]);
        (split; [reflexivity|]); split; [simpl; lia | reflexivity | simpl; lia | reflexivity].
    + unfold idrac8.bind, idrac8.logInfo, idrac8.ret. cbn [idrac8.log idrac8.calls snd].
      exists [{| idrac8.level := idrac8.Info;
                 idrac8.message := "User parameters applied.";
                 idrac8.keysAndValues :=
                   idrac8.stdKV E i ++ [("User", cfgresources.User_Name cfgUser)] |}], [].
      split; [reflexivity|]. split; [reflexivity|].
      split; [symmetry; apply app_nil_r|]. split; [simpl; lia | reflexivity].
Qed.

(** The loop goes through the whole list, whatever fails on the way. *)
Lemma userLoop_effect (cfgUsers : list cfgresources.User) :
  forall err w,
  exists newLog newCalls,
    idrac8.log (snd (idrac8.userLoop E i idracUsers err cfgUsers w))
    = idrac8.log w ++ newLog
    /\ map userOf (filter endsRound newLog) = map cfgresources.User_Name cfgUsers
    /\ idrac8.calls (snd (idrac8.userLoop E i idracUsers err cfgUsers w))
       = idrac8.calls w ++ newCalls
    /\ (length newCalls <= length cfgUsers)%nat
    /\ forallb isPutUser newCalls = true.
Proof.
  induction cfgUsers as [|cfgUser rest IH]; intros err w.
  - exists [], []. simpl. rewrite !app_nil_r. auto.
  - cbn [idrac8.userLoop]. unfold idrac8.bind.
    destruct (userRound_effect err cfgUser w)
      as (l1 & c1 & L1 & U1 & C1 & N1 & P1).
    destruct (idrac8.userRound E i idracUsers err cfgUser w) as [err1 w1].
    cbn [snd] in *.
    destruct (IH err1 w1) as (l2 & c2 & L2 & U2 & C2 & N2 & P2).
    exists (l1 ++ l2), (c1 ++ c2).
    rewrite L2, L1, C2, C1, !app_assoc.
    split; [reflexivity|]. split.
    { rewrite filter_app, map_app, U1, U2. reflexivity. }
    split; [reflexivity|]. split.
    { rewrite length_app. simpl. lia. }
    rewrite forallb_app, P1, P2. reflexivity.
Qed.

Lemma userLoop_app (us1 us2 : list cfgresources.User) :
  forall err w,
    idrac8.userLoop E i idracUsers err (us1 ++ us2) w
    = let '(err1, w1) := idrac8.userLoop E i idracUsers err us1 w in
      idrac8.userLoop E i idracUsers err1 us2 w1.
Proof.
  induction us1 as [|u us1 IH]; intros err w; [reflexivity|].
  cbn [app idrac8.userLoop]. unfold idrac8.bind.
  destruct (idrac8.userRound E i idracUsers err u w) as [err1 w1]. apply IH.
Qed.

(** A round that assigns [err] does not look at what the rounds before
    left in it. *)
Lemma userRound_forgets (err err' : option error)
    (cfgUser : cfgresources.User) (w : idrac8.World) :
  assigns E idracUsers cfgUser = true ->
  idrac8.userRound E i idracUsers err cfgUser w
  = idrac8.userRound E i idracUsers err' cfgUser w.
Proof.
  unfold assigns, idrac8.userRound.
  destruct (idrac8.userInIdrac E _ idracUsers) as [[userID userInfo] uExists].
  cbn [snd].
  destruct (cfgresources.User_Enable cfgUser), uExists; cbn [negb orb];
    try discriminate; intros _; reflexivity.
Qed.

(** A round that assigns [err] and leaves an error in it has logged that
    error, with the name of the user. *)
Lemma userRound_logs_failure (err : option error)
    (cfgUser : cfgresources.User) (w : idrac8.World) (e : error) :
  assigns E idracUsers cfgUser = true ->
  fst (idrac8.userRound E i idracUsers err cfgUser w) = Some e ->
  exists before entry after,
    idrac8.log (snd (idrac8.userRound E i idracUsers err cfgUser w))
    = idrac8.log w ++ before ++ entry :: after
    /\ idrac8.level entry = idrac8.ErrorLevel (Some e)
    /\ userOf entry = cfgresources.User_Name cfgUser.
Proof.
  unfold assigns, idrac8.userRound.
  destruct (idrac8.userInIdrac E _ idracUsers) as [[userID userInfo] uExists].
  cbn [snd].
  destruct (cfgresources.User_Enable cfgUser), uExists; cbn [negb orb];
    try discriminate; intros _.
  - unfold idrac8.bind, idrac8.putUser.
    destruct (idrac8.putUser_result E _ _ _) as [putErr|];
      unfold idrac8.bind, idrac8.logError, idrac8.logInfo, idrac8.ret;
      cbn [fst snd idrac8.log]; [|discriminate].
    intros [= ->]. exists []. do 2 eexists. split; [reflexivity|]. split; reflexivity.
  - destruct (idrac8.getEmptyUserSlot E idracUsers) as [[slotID slotInfo] [slotErr|]].
    + unfold idrac8.bind, idrac8.logError, idrac8.ret. cbn [fst snd idrac8.log].
      intros [= ->]. exists []. do 2 eexists. split; [reflexivity|]. split; reflexivity.
    + unfold idrac8.bind, idrac8.putUser.
      destruct (idrac8.putUser_result E _ _ _) as [putErr|];
        unfold idrac8.bind, idrac8.logError, idrac8.logInfo, idrac8.ret;
        cbn [fst snd idrac8.log]; [|discriminate].
      intros [= ->]. exists []. do 2 eexists. split; [reflexivity|]. split; reflexivity.
  - unfold idrac8.bind, idrac8.putUser.
    destruct (idrac8.putUser_result E _ _ _) as [putErr|];
      unfold idrac8.bind, idrac8.logError, idrac8.logInfo, idrac8.ret;
      cbn [fst snd idrac8.log]; [|discriminate].
    intros [= ->]. exists []. do 2 eexists. rewrite <- app_assoc.
    split; [reflexivity|]. split; reflexivity.
Qed.

(** A round that does not assign [err] leaves it as it is. *)
Lemma userRound_keeps (err : option error)
    (cfgUser : cfgresources.User) (w : idrac8.World) :
  assigns E idracUsers cfgUser = false ->
  fst (idrac8.userRound E i idracUsers err cfgUser w) = err.
Proof.
  unfold assigns, idrac8.userRound.
  destruct (idrac8.userInIdrac E _ idracUsers) as [[userID userInfo] uExists].
  cbn [snd].
  destruct (cfgresources.User_Enable cfgUser), uExists; cbn [negb orb];
    try discriminate; intros _; reflexivity.
Qed.

Lemma userLoop_keeps (cfgUsers : list cfgresources.User) :
  forall err w,
    forallb (fun u => negb (assigns E idracUsers u)) cfgUsers = true ->
    fst (idrac8.userLoop E i idracUsers err cfgUsers w) = err.
Proof.
  induction cfgUsers as [|u rest IH]; intros err w A; [reflexivity|].
  cbn [forallb] in A. apply andb_true_iff in A as [A1 A2].
  apply negb_true_iff in A1.
  cbn [idrac8.userLoop]. unfold idrac8.bind.
  pose proof (userRound_keeps err u w A1) as K.
  destruct (idrac8.userRound E i idracUsers err u w) as [err1 w1].
  cbn [fst] in K. subst err1. apply (IH err w1 A2).
Qed.

End UserLoop.

(** The failing input of C8: adding alice fails and adding bob, after
    her, succeeds; [User] returns nil, and the failure for alice is in the
    log only. *)
Lemma User_returns_nil_after_failure :
  let r := idrac8.User putFailsForAlice someIDrac8
             [cfgUser "alice" true; cfgUser "bob" true] idrac8.emptyWorld in
  fst r = None
  /\ map (fun entry => (idrac8.level entry, idrac8.message entry, userOf entry))
         (idrac8.log (snd r))
     = [(idrac8.ErrorLevel (Some (errors_New "Put request failed.")),
         "User(): Add/Update user request failed.", "alice");
        (idrac8.Info, "User parameters applied.", "bob")].
Proof. vm_compute. split; reflexivity. Qed.

Lemma User_is_loop (E : idrac8.Env) (i : idrac8.IDrac8)
    (cfgUsers : list cfgresources.User) (w : idrac8.World)
    (idracUsers : idrac8.UserInfo) :
  idrac8.ValidateUserConfig E cfgUsers = None ->
  idrac8.queryUsers_result E (idrac8.calls w) = (idracUsers, None) ->
  idrac8.User E i cfgUsers w
  = idrac8.userLoop E i idracUsers None cfgUsers (snd (idrac8.queryUsers E w)).
Proof.
  intros V Q. unfold idrac8.User. rewrite V.
  unfold idrac8.bind, idrac8.queryUsers. rewrite Q. reflexivity.
Qed.

(** C8 fails on the code, in its last part.  Once the configuration is
    validated and the user table is read, [User] does walk the list of
    users exactly once, in order, and to its end: every user gets one
    round, which makes at most one [putUser] call and ends with one log
    entry that names the user; and when the round of a user fails (no
    free slot, or the add, update or disable call fails), the error is
    logged with the name of the user and the walk goes on.  But the error
    that [User] returns does not report which entries failed.  There is a
    single result variable, which every round that makes a slot lookup or
    a call overwrites: [User] returns what the last such round leaves, and
    nil when there is no such round.  So when the round of a user fails
    and the last round that assigns the variable succeeds, [User] returns
    nil although the failure is in the log. *)
Theorem User_walks_once_and_continues (E : idrac8.Env) (i : idrac8.IDrac8)
    (cfgUsers : list cfgresources.User) (w : idrac8.World)
    (idracUsers : idrac8.UserInfo) :
  idrac8.ValidateUserConfig E cfgUsers = None ->
  idrac8.queryUsers_result E (idrac8.calls w) = (idracUsers, None) ->
  let w0 := snd (idrac8.queryUsers E w) in
  let final := snd (idrac8.User E i cfgUsers w) in
  let silent := forallb (fun u => negb (assigns E idracUsers u)) in
  (exists newLog newCalls,
      idrac8.log final = idrac8.log w ++ newLog
      /\ map userOf (filter endsRound newLog) = map cfgresources.User_Name cfgUsers
      /\ idrac8.calls final = idrac8.calls w ++ idrac8.QueryUsers :: newCalls
      /\ (length newCalls <= length cfgUsers)%nat
      /\ forallb isPutUser newCalls = true)
  /\ (forall before u after e,
      cfgUsers = before ++ u :: after ->
      assigns E idracUsers u = true ->
      (let '(err1, w1) := idrac8.userLoop E i idracUsers None before w0 in
       fst (idrac8.userRound E i idracUsers err1 u w1)) = Some e ->
      exists entry,
        In entry (idrac8.log final)
        /\ idrac8.level entry = idrac8.ErrorLevel (Some e)
        /\ userOf entry = cfgresources.User_Name u)
  /\ (forall before u after,
      cfgUsers = before ++ u :: after ->
      assigns E idracUsers u = true ->
      silent after = true ->
      fst (idrac8.User E i cfgUsers w)
      = fst (idrac8.userRound E i idracUsers None u
               (snd (idrac8.userLoop E i idracUsers None before w0))))
  /\ (silent cfgUsers = true -> fst (idrac8.User E i cfgUsers w) = None)
  /\ (forall before failing between u after e,
      cfgUsers = before ++ failing :: between ++ u :: after ->
      assigns E idracUsers failing = true ->
      (let '(err1, w1) := idrac8.userLoop E i idracUsers None before w0 in
       fst (idrac8.userRound E i idracUsers err1 failing w1)) = Some e ->
      assigns E idracUsers u = true ->
      silent after = true ->
      fst (idrac8.userRound E i idracUsers None u
             (snd (idrac8.userLoop E i idracUsers None
                     (before ++ failing :: between) w0))) = None ->
      fst (idrac8.User E i cfgUsers w) = None
      /\ exists entry,
           In entry (idrac8.log final)
           /\ idrac8.level entry = idrac8.ErrorLevel (Some e)
           /\ userOf entry = cfgresources.User_Name failing).
Proof.
  intros V Q w0 final silent. subst final silent.
  rewrite (User_is_loop E i cfgUsers w idracUsers V Q). fold w0.
  assert (forall before u after e,
             cfgUsers = before ++ u :: after ->
             assigns E idracUsers u = true ->
             (let '(err1, w1) := idrac8.userLoop E i idracUsers None before w0 in
              fst (idrac8.userRound E i idracUsers err1 u w1)) = Some e ->
             exists entry,
               In entry (idrac8.log (snd (idrac8.userLoop E i idracUsers None cfgUsers w0)))
               /\ idrac8.level entry = idrac8.ErrorLevel (Some e)
               /\ userOf entry = cfgresources.User_Name u) as Logged.
  { intros before u after e -> A H.
    rewrite userLoop_app.
    destruct (idrac8.userLoop E i idracUsers None before w0) as [err1 w1].
    cbn [idrac8.userLoop]. unfold idrac8.bind.
    destruct (userRound_logs_failure E i idracUsers err1 u w1 e A H)
      as (b & entry & a & L & Lv & Us).
    destruct (idrac8.userRound E i idracUsers err1 u w1) as [err2 w2].
    cbn [snd] in L.
    destruct (userLoop_effect E i idracUsers after err2 w2) as (l & c & L2 & _).
    exists entry. split; [|split; assumption].
    rewrite L2, L. rewrite !in_app_iff. left. right. right. left. reflexivity. }
  assert (forall before u after,
             cfgUsers = before ++ u :: after ->
             assigns E idracUsers u = true ->
             forallb (fun v => negb (assigns E idracUsers v)) after = true ->
             fst (idrac8.userLoop E i idracUsers None cfgUsers w0)
             = fst (idrac8.userRound E i idracUsers None u
                      (snd (idrac8.userLoop E i idracUsers None before w0)))) as Last.
  { intros before u after -> A S.
    rewrite userLoop_app.
    destruct (idrac8.userLoop E i idracUsers None before w0) as [err1 w1].
    cbn [idrac8.userLoop snd]. unfold idrac8.bind.
    rewrite (userRound_forgets E i idracUsers err1 None u w1 A).
    destruct (idrac8.userRound E i idracUsers None u w1) as [err2 w2].
    cbn [fst]. apply (userLoop_keeps E i idracUsers after err2 w2 S). }
  split; [|split; [|split; [|split]]].
  - destruct (userLoop_effect E i idracUsers cfgUsers None w0)
      as (l & c & L & U & C & N & P).
    exists l, c. rewrite L, C. subst w0. unfold idrac8.queryUsers.
    cbn [snd idrac8.log idrac8.calls].
    rewrite <- app_assoc. auto.
  - exact Logged.
  - exact Last.
  - intros S. apply (userLoop_keeps E i idracUsers cfgUsers None w0 S).
  - intros before failing between u after e C A H Au S R. split.
    + rewrite (Last (before ++ failing :: between) u after); [exact R | | exact Au | exact S].
      rewrite C, <- app_assoc. reflexivity.
    + apply (Logged before failing (between ++ u :: after) e C A H).
Qed.

Lemma User_walks_once_and_continues_witness :
  let r := idrac8.User putFailsForAlice someIDrac8
             [cfgUser "alice" true; cfgUser "bob" true] idrac8.emptyWorld in
  (exists newLog newCalls,
      idrac8.log (snd r) = [] ++ newLog
      /\ map userOf (filter endsRound newLog) = ["alice"; "bob"]
      /\ idrac8.calls (snd r) = [] ++ idrac8.QueryUsers :: newCalls
      /\ (length newCalls <= 2)%nat
      /\ forallb isPutUser newCalls = true)
  /\ (fst r = None
      /\ exists entry,
           In entry (idrac8.log (snd r))
           /\ idrac8.level entry = idrac8.ErrorLevel (Some (errors_New "Put request failed."))
           /\ userOf entry = "alice")
  /\ fst (idrac8.User putFailsForAlice someIDrac8
            [cfgUser "alice" true; cfgUser "carol" false] idrac8.emptyWorld)
     = Some (errors_New "Put request failed.")
  /\ fst (idrac8.User putFailsForAlice someIDrac8
            [cfgUser "carol" false] idrac8.emptyWorld)
     = None.
Proof.
  cbv zeta.
  pose proof (User_walks_once_and_continues putFailsForAlice someIDrac8
                [cfgUser "alice" true; cfgUser "bob" true] idrac8.emptyWorld
                [(2, emptyUser)] eq_refl eq_refl) as H.
  cbv zeta in H. destruct H as (H1 & _ & _ & _ & H5).
  split; [exact H1|]. split; [|split].
  - apply (H5 [] (cfgUser "alice" true) [] (cfgUser "bob" true) []
              (errors_New "Put request failed.")); reflexivity.
  - pose proof (User_walks_once_and_continues putFailsForAlice someIDrac8
                  [cfgUser "alice" true; cfgUser "carol" false] idrac8.emptyWorld
                  [(2, emptyUser)] eq_refl eq_refl) as H.
    cbv zeta in H. destruct H as (_ & _ & H3 & _).
    rewrite (H3 [] (cfgUser "alice" true) [cfgUser "carol" false]);
      reflexivity.
  - pose proof (User_walks_once_and_continues putFailsForAlice someIDrac8
                  [cfgUser "carol" false] idrac8.emptyWorld
                  [(2, emptyUser)] eq_refl eq_refl) as H.
    cbv zeta in H. destruct H as (_ & _ & _ & H4 & _).
    apply H4. reflexivity.
Defined.

(** ** UTF-8 *)

Lemma byte_of_range (c : ascii) : 0 <= byte_of c < 256.
Proof.
  unfold byte_of. pose proof (N_ascii_bounded c) as B. lia.
Qed.

Lemma ascii_of_byte_of (c : ascii) : ascii_of (byte_of c) = c.
Proof.
  unfold ascii_of, byte_of. rewrite N2Z.id. apply ascii_N_embedding.
Qed.

(** On a multiple of [2^k] and a number below [2^k], bitwise or is
    addition. *)
Lemma lor_low (a b k : Z) :
  0 <= k -> a mod 2 ^ k = 0 -> 0 <= b < 2 ^ k -> Z.lor a b = a + b.
Proof.
  intros K A B.
  assert (Z.land a b = 0) as D; [|rewrite Z.add_nocarry_lxor, Z.lxor_lor; auto].
  apply Z.bits_inj'. intros n N. rewrite Z.land_spec, Z.bits_0.
  destruct (Z.ltb_spec n k) as [L|L].
  - assert (a = a / 2 ^ k * 2 ^ k) as ->.
    { pose proof (Z.div_mod a (2 ^ k) ltac:(lia)). lia. }
    rewrite Z.mul_pow2_bits_low by lia. reflexivity.
  - assert (Z.testbit b n = false) as ->; [|apply andb_false_r].
    destruct (Z.eq_dec b 0) as [->|NZ]; [apply Z.bits_0|].
    apply Z.bits_above_log2; [lia|].
    assert (Z.log2 b < k) by (apply Z.log2_lt_pow2; lia). lia.
Qed.

Lemma land_low (b k : Z) : 0 <= k -> Z.land b (Z.ones k) = b mod 2 ^ k.
Proof. intros K. apply Z.land_ones, K. Qed.

Ltac pow2 :=
  change (2 ^ 3) with 8 in *; change (2 ^ 4) with 16 in *;
  change (2 ^ 5) with 32 in *; change (2 ^ 6) with 64 in *;
  change (2 ^ 12) with 4096 in *; change (2 ^ 18) with 262144 in *.

Ltac divmod := pow2; Z.div_mod_to_equations; lia.

Ltac size_cases S :=
  unfold utf8.size in S;
  repeat match type of S with
         | (if ?c then _ else _) = _ => destruct c eqn:?; try discriminate S
         end.

Ltac accept_cases A :=
  unfold utf8.accepts, utf8.acceptLo, utf8.acceptHi in A;
  repeat match type of A with
         | context [if ?c then _ else _] => destruct c eqn:?
         end.

(** The encoding of the rune decoded from a well-formed sequence of two,
    three or four bytes is that sequence. *)
Lemma encodeRune_rune2 (b0 b1 : Z) :
  0 <= b0 < 256 -> 0 <= b1 < 256 ->
  utf8.size b0 = 2 -> utf8.accepts b0 b1 = true ->
  utf8.encodeRune (utf8.rune2 b0 b1) = [b0; b1].
Proof.
  intros R0 R1 S A. size_cases S. accept_cases A; try lia.
  assert (exists x, b0 = 0xC0 + x /\ 2 <= x < 32) as (x & -> & X)
    by (exists (b0 - 0xC0); lia).
  assert (exists y, b1 = 0x80 + y /\ 0 <= y < 64) as (y & -> & Y)
    by (exists (b1 - 0x80); lia).
  assert (utf8.rune2 (0xC0 + x) (0x80 + y) = x * 64 + y) as ->.
  { unfold utf8.rune2.
    change 0x1F with (Z.ones 5). change 0x3F with (Z.ones 6).
    rewrite !land_low, Z.shiftl_mul_pow2 by lia.
    rewrite (lor_low _ _ 6); try lia; divmod. }
  unfold utf8.encodeRune.
  replace ((0 <=? x * 64 + y) && (x * 64 + y <=? 0x7F)) with false by lia.
  replace ((0 <=? x * 64 + y) && (x * 64 + y <=? 0x7FF)) with true by lia.
  change 0x3F with (Z.ones 6).
  rewrite land_low, Z.shiftr_div_pow2 by lia.
  rewrite (lor_low 0xC0 _ 5), (lor_low 0x80 _ 6); try lia; try reflexivity;
    [f_equal; [|f_equal] | |]; divmod.
Qed.

Lemma encodeRune_rune3 (b0 b1 b2 : Z) :
  0 <= b0 < 256 -> 0 <= b1 < 256 -> 0 <= b2 < 256 ->
  utf8.size b0 = 3 -> utf8.accepts b0 b1 = true -> utf8.cont b2 = true ->
  utf8.encodeRune (utf8.rune3 b0 b1 b2) = [b0; b1; b2].
Proof.
  intros R0 R1 R2 S A C. size_cases S. unfold utf8.cont in C.
  assert (exists x, b0 = 0xE0 + x /\ 0 <= x < 16) as (x & -> & X)
    by (exists (b0 - 0xE0); lia).
  assert (exists y, b1 = 0x80 + y /\ 0 <= y < 64
                    /\ (x = 0 -> 32 <= y) /\ (x = 13 -> y < 32))
    as (y & -> & Y & Y0 & Y13)
    by (exists (b1 - 0x80); accept_cases A; lia).
  assert (exists z, b2 = 0x80 + z /\ 0 <= z < 64) as (z & -> & Z)
    by (exists (b2 - 0x80); lia).
  clear A C.
  assert (utf8.rune3 (0xE0 + x) (0x80 + y) (0x80 + z) = x * 4096 + y * 64 + z) as ->.
  { unfold utf8.rune3.
    change 0x0F with (Z.ones 4). change 0x3F with (Z.ones 6).
    rewrite !land_low, !Z.shiftl_mul_pow2 by lia.
    replace ((0xE0 + x) mod 2 ^ 4) with x by divmod.
    replace ((0x80 + y) mod 2 ^ 6) with y by divmod.
    replace ((0x80 + z) mod 2 ^ 6) with z by divmod.
    rewrite (lor_low (x * 2 ^ 12) (y * 2 ^ 6) 12) by (try lia; divmod).
    rewrite (lor_low _ z 6) by (try lia; divmod).
    divmod. }
  unfold utf8.encodeRune, utf8.MaxRune.
  set (r := x * 4096 + y * 64 + z).
  replace ((0 <=? r) && (r <=? 0x7F)) with false by lia.
  replace ((0 <=? r) && (r <=? 0x7FF)) with false by lia.
  replace ((r <? 0) || (0x10FFFF <? r) || ((0xD800 <=? r) && (r <=? 0xDFFF)))
    with false by lia.
  replace (r <=? 0xFFFF) with true by lia.
  change 0x3F with (Z.ones 6).
  rewrite !land_low, !Z.shiftr_div_pow2 by lia.
  rewrite (lor_low 0xE0 _ 4), !(lor_low 0x80 _ 6); try lia; try reflexivity;
    subst r; [f_equal; [|f_equal; [|f_equal]] | | |]; divmod.
Qed.

Lemma encodeRune_rune4 (b0 b1 b2 b3 : Z) :
  0 <= b0 < 256 -> 0 <= b1 < 256 -> 0 <= b2 < 256 -> 0 <= b3 < 256 ->
  utf8.size b0 = 4 -> utf8.accepts b0 b1 = true ->
  utf8.cont b2 = true -> utf8.cont b3 = true ->
  utf8.encodeRune (utf8.rune4 b0 b1 b2 b3) = [b0; b1; b2; b3].
Proof.
  intros R0 R1 R2 R3 S A C2 C3. size_cases S. unfold utf8.cont in C2, C3.
  assert (exists x, b0 = 0xF0 + x /\ 0 <= x < 5) as (x & -> & X)
    by (exists (b0 - 0xF0); lia).
  assert (exists y, b1 = 0x80 + y /\ 0 <= y < 64
                    /\ (x = 0 -> 16 <= y) /\ (x = 4 -> y < 16))
    as (y & -> & Y & Y0 & Y4)
    by (exists (b1 - 0x80); accept_cases A; lia).
  assert (exists z, b2 = 0x80 + z /\ 0 <= z < 64) as (z & -> & Z)
    by (exists (b2 - 0x80); lia).
  assert (exists u, b3 = 0x80 + u /\ 0 <= u < 64) as (u & -> & U)
    by (exists (b3 - 0x80); lia).
  clear A C2 C3.
  assert (utf8.rune4 (0xF0 + x) (0x80 + y) (0x80 + z) (0x80 + u)
          = x * 262144 + y * 4096 + z * 64 + u) as ->.
  { unfold utf8.rune4.
    change 0x07 with (Z.ones 3). change 0x3F with (Z.ones 6).
    rewrite !land_low, !Z.shiftl_mul_pow2 by lia.
    replace ((0xF0 + x) mod 2 ^ 3) with x by divmod.
    replace ((0x80 + y) mod 2 ^ 6) with y by divmod.
    replace ((0x80 + z) mod 2 ^ 6) with z by divmod.
    replace ((0x80 + u) mod 2 ^ 6) with u by divmod.
    rewrite (lor_low (x * 2 ^ 18) (y * 2 ^ 12) 18) by (try lia; divmod).
    rewrite (lor_low _ (z * 2 ^ 6) 12) by (try lia; divmod).
    rewrite (lor_low _ u 6) by (try lia; divmod).
    divmod. }
  unfold utf8.encodeRune, utf8.MaxRune.
  set (r := x * 262144 + y * 4096 + z * 64 + u).
  replace ((0 <=? r) && (r <=? 0x7F)) with false by lia.
  replace ((0 <=? r) && (r <=? 0x7FF)) with false by lia.
  replace ((r <? 0) || (0x10FFFF <? r) || ((0xD800 <=? r) && (r <=? 0xDFFF)))
    with false by lia.
  replace (r <=? 0xFFFF) with false by lia.
  change 0x3F with (Z.ones 6).
  rewrite !land_low, !Z.shiftr_div_pow2 by lia.
  rewrite (lor_low 0xF0 _ 3), !(lor_low 0x80 _ 6); try lia; try reflexivity;
    subst r; [f_equal; [|f_equal; [|f_equal; [|f_equal]]] | | | |]; divmod.
Qed.

(** ** escapeLdapString *)

Lemma append_assoc (a b c : string) : (a +:+ b) +:+ c = a +:+ (b +:+ c).
Proof. induction a as [|x a IH]; simpl; congruence. Qed.

Lemma append_empty_r (a : string) : a +:+ "" = a.
Proof. induction a as [|x a IH]; simpl; congruence. Qed.

Lemma length_append (a b : string) :
  String.length (a +:+ b) = (String.length a + String.length b)%nat.
Proof. induction a as [|x a IH]; simpl; congruence. Qed.

Lemma escapeRune_escaped (r : string) (c : Z) :
  idrac8.escapeRune r c = r +:+ escaped c.
Proof.
  unfold escaped, idrac8.escapeRune.
  destruct (c =? 61); [reflexivity|]. destruct (c =? 44); reflexivity.
Qed.

Lemma fold_left_escapeRune (l : list Z) (acc : string) :
  fold_left idrac8.escapeRune l acc = acc +:+ concatStrings (map escaped l).
Proof.
  revert acc. induction l as [|c l IH]; intros acc; simpl.
  - symmetry. apply append_empty_r.
  - rewrite IH, escapeRune_escaped. apply append_assoc.
Qed.

Lemma escapeLdapString_concat (s : string) :
  idrac8.escapeLdapString s = concatStrings (map escaped (utf8.runes s)).
Proof. unfold idrac8.escapeLdapString. apply fold_left_escapeRune. Qed.

Lemma runes_ascii (c : ascii) (t : string) :
  byte_of c < 0x80 -> utf8.runes (String c t) = byte_of c :: utf8.runes t.
Proof.
  intros H. cbn [utf8.runes]. cbv zeta.
  replace (byte_of c <? 0x80) with true by lia. reflexivity.
Qed.

Lemma canonical_ascii (c : ascii) : byte_of c < 0x80 -> canonical (byte_of c).
Proof.
  intros H t. pose proof (byte_of_range c) as R.
  unfold utf8.string_of_rune, utf8.encodeRune.
  replace ((0 <=? byte_of c) && (byte_of c <=? 0x7F)) with true by lia.
  cbn [string_of String.append]. rewrite ascii_of_byte_of.
  apply runes_ascii, H.
Qed.

Lemma canonical_RuneError : canonical utf8.RuneError.
Proof. intros t. reflexivity. Qed.

Lemma byte_of_eqb (c d : ascii) : (byte_of c =? byte_of d) = Ascii.eqb c d.
Proof.
  destruct (Ascii.eqb_spec c d) as [->|N].
  - apply Z.eqb_refl.
  - apply Z.eqb_neq. intros H. apply N.
    rewrite <- (ascii_of_byte_of c), <- (ascii_of_byte_of d), H. reflexivity.
Qed.

Lemma string_of_rune_ascii (c : ascii) :
  byte_of c < 0x80 -> utf8.string_of_rune (byte_of c) = String c "".
Proof.
  intros H. pose proof (byte_of_range c) as R.
  unfold utf8.string_of_rune, utf8.encodeRune.
  replace ((0 <=? byte_of c) && (byte_of c <=? 0x7F)) with true by lia.
  cbn [string_of]. rewrite ascii_of_byte_of. reflexivity.
Qed.

(** A byte of a multi-byte encoding is not one of the two escaped bytes. *)
Lemma escapeBytes_high (c : ascii) (t : string) :
  0x80 <= byte_of c -> escapeBytes (String c t) = String c (escapeBytes t).
Proof.
  intros H. cbn [escapeBytes].
  rewrite <- !byte_of_eqb.
  replace (byte_of c =? byte_of "=") with false by (change (byte_of "=") with 61; lia).
  replace (byte_of c =? byte_of ",") with false by (change (byte_of ",") with 44; lia).
  reflexivity.
Qed.

Lemma escapeBytes_append (a b : string) :
  escapeBytes (a +:+ b) = escapeBytes a +:+ escapeBytes b.
Proof.
  induction a as [|c a IH]; [reflexivity|].
  cbn [String.append escapeBytes]. rewrite IH. symmetry. apply append_assoc.
Qed.

Lemma accepts_high (b0 b1 : Z) : utf8.accepts b0 b1 = true -> 0x80 <= b1.
Proof. intros A. accept_cases A; lia. Qed.

Lemma cont_high (b : Z) : utf8.cont b = true -> 0x80 <= b.
Proof. unfold utf8.cont. lia. Qed.

Lemma faithful_encoded (r : Z) (c0 : ascii) (rest : string) :
  0x80 <= byte_of c0 ->
  utf8.string_of_rune r = String c0 rest ->
  escapeBytes rest = rest ->
  faithful r.
Proof.
  intros H E F. unfold faithful. rewrite E, (escapeBytes_high _ _ H), F.
  unfold escaped, idrac8.escapeRune.
  destruct (r =? 61) eqn:E1.
  { apply Z.eqb_eq in E1. subst r. vm_compute in E.
    injection E as E _. rewrite <- E in H. vm_compute in H. contradiction H. reflexivity. }
  destruct (r =? 44) eqn:E2.
  { apply Z.eqb_eq in E2. subst r. vm_compute in E.
    injection E as E _. rewrite <- E in H. vm_compute in H. contradiction H. reflexivity. }
  exact E.
Qed.

Lemma faithful_ascii (c : ascii) : byte_of c < 0x80 -> faithful (byte_of c).
Proof.
  intros H. unfold faithful. rewrite (string_of_rune_ascii _ H).
  unfold escaped, idrac8.escapeRune. cbn [escapeBytes].
  change 61 with (byte_of "="). change 44 with (byte_of ",").
  rewrite !byte_of_eqb, (string_of_rune_ascii _ H).
  destruct (Ascii.eqb c "="); [reflexivity|].
  destruct (Ascii.eqb c ","); reflexivity.
Qed.

Lemma faithful_RuneError : faithful utf8.RuneError.
Proof. reflexivity. Qed.

Lemma good_rune2 (c0 c1 : ascii) :
  (byte_of c0 <? 0x80) = false ->
  (utf8.size (byte_of c0) =? 0) = false ->
  utf8.accepts (byte_of c0) (byte_of c1) = true ->
  (utf8.size (byte_of c0) =? 2) = true ->
  good (utf8.rune2 (byte_of c0) (byte_of c1)).
Proof.
  intros A S0 Acc S2.
  assert (utf8.string_of_rune (utf8.rune2 (byte_of c0) (byte_of c1))
          = String c0 (String c1 "")) as E.
  { unfold utf8.string_of_rune.
    rewrite encodeRune_rune2; auto using byte_of_range; [|lia].
    cbn [string_of]. rewrite !ascii_of_byte_of. reflexivity. }
  pose proof (accepts_high _ _ Acc) as H1.
  split.
  - intros t. rewrite E. cbn [String.append utf8.runes]. cbv zeta.
    rewrite A, S0, Acc, S2. reflexivity.
  - eapply faithful_encoded; [|exact E|]; [lia|].
    rewrite !escapeBytes_high by assumption. reflexivity.
Qed.

Lemma good_rune3 (c0 c1 c2 : ascii) :
  (byte_of c0 <? 0x80) = false ->
  (utf8.size (byte_of c0) =? 0) = false ->
  utf8.accepts (byte_of c0) (byte_of c1) = true ->
  (utf8.size (byte_of c0) =? 2) = false ->
  utf8.cont (byte_of c2) = true ->
  (utf8.size (byte_of c0) =? 3) = true ->
  good (utf8.rune3 (byte_of c0) (byte_of c1) (byte_of c2)).
Proof.
  intros A S0 Acc S2 C2 S3.
  assert (utf8.string_of_rune (utf8.rune3 (byte_of c0) (byte_of c1) (byte_of c2))
          = String c0 (String c1 (String c2 ""))) as E.
  { unfold utf8.string_of_rune.
    rewrite encodeRune_rune3; auto using byte_of_range; [|lia].
    cbn [string_of]. rewrite !ascii_of_byte_of. reflexivity. }
  pose proof (accepts_high _ _ Acc) as H1. pose proof (cont_high _ C2) as H2.
  split.
  - intros t. rewrite E. cbn [String.append utf8.runes]. cbv zeta.
    rewrite A, S0, Acc, S2, C2, S3. reflexivity.
  - eapply faithful_encoded; [|exact E|]; [lia|].
    rewrite !escapeBytes_high by assumption. reflexivity.
Qed.

Lemma good_rune4 (c0 c1 c2 c3 : ascii) :
  (byte_of c0 <? 0x80) = false ->
  (utf8.size (byte_of c0) =? 0) = false ->
  utf8.accepts (byte_of c0) (byte_of c1) = true ->
  (utf8.size (byte_of c0) =? 2) = false ->
  utf8.cont (byte_of c2) = true ->
  (utf8.size (byte_of c0) =? 3) = false ->
  utf8.cont (byte_of c3) = true ->
  good (utf8.rune4 (byte_of c0) (byte_of c1) (byte_of c2) (byte_of c3)).
Proof.
  intros A S0 Acc S2 C2 S3 C3.
  assert (utf8.size (byte_of c0) = 4) as S4.
  { revert S0 S2 S3. unfold utf8.size. rewrite A.
    repeat match goal with
           | |- context [if ?c then _ else _] => destruct c
           end; intros; try reflexivity; discriminate. }
  assert (utf8.string_of_rune
            (utf8.rune4 (byte_of c0) (byte_of c1) (byte_of c2) (byte_of c3))
          = String c0 (String c1 (String c2 (String c3 "")))) as E.
  { unfold utf8.string_of_rune.
    rewrite encodeRune_rune4; auto using byte_of_range.
    cbn [string_of]. rewrite !ascii_of_byte_of. reflexivity. }
  pose proof (accepts_high _ _ Acc) as H1. pose proof (cont_high _ C2) as H2.
  pose proof (cont_high _ C3) as H3.
  split.
  - intros t. rewrite E. cbn [String.append utf8.runes]. cbv zeta.
    rewrite A, S0, Acc, S2, C2, S3, C3. reflexivity.
  - eapply faithful_encoded; [|exact E|]; [lia|].
    rewrite !escapeBytes_high by assumption. reflexivity.
Qed.

(** Closes a case of [runes_step] once the rune, the group of bytes and
    the rest are given. *)
Ltac step_by tac :=
  split; [reflexivity|]; split; [simpl; lia|]; split; [reflexivity|]; tac.

(** One step of the decoding: a non-empty string starts with a group of
    bytes that yields one rune, and that rune is good. *)
Lemma runes_step (c0 : ascii) (s1 : string) :
  exists r pre rest,
    String c0 s1 = pre +:+ rest
    /\ (0 < String.length pre)%nat
    /\ utf8.runes (String c0 s1) = r :: utf8.runes rest
    /\ good r.
Proof.
  cbn [utf8.runes]. cbv zeta.
  destruct (byte_of c0 <? 0x80) eqn:A.
  { exists (byte_of c0), (String c0 ""), s1.
    step_by ltac:(split; [apply canonical_ascii | apply faithful_ascii]; lia). }
  assert (exists r pre rest,
             String c0 s1 = pre +:+ rest
             /\ (0 < String.length pre)%nat
             /\ utf8.RuneError :: utf8.runes s1 = r :: utf8.runes rest
             /\ good r) as Inv.
  { exists utf8.RuneError, (String c0 ""), s1.
    step_by ltac:(split; [apply canonical_RuneError | apply faithful_RuneError]). }
  destruct (utf8.size (byte_of c0) =? 0) eqn:S0; [exact Inv|].
  destruct s1 as [|c1 s2]; [exact Inv|].
  destruct (utf8.accepts (byte_of c0) (byte_of c1)) eqn:Acc; cbn [negb]; [|exact Inv].
  destruct (utf8.size (byte_of c0) =? 2) eqn:S2.
  { exists (utf8.rune2 (byte_of c0) (byte_of c1)), (String c0 (String c1 "")), s2.
    step_by ltac:(apply good_rune2; assumption). }
  destruct s2 as [|c2 s3]; [exact Inv|].
  destruct (utf8.cont (byte_of c2)) eqn:C2; cbn [negb]; [|exact Inv].
  destruct (utf8.size (byte_of c0) =? 3) eqn:S3.
  { exists (utf8.rune3 (byte_of c0) (byte_of c1) (byte_of c2)),
      (String c0 (String c1 (String c2 ""))), s3.
    step_by ltac:(apply good_rune3; assumption). }
  destruct s3 as [|c3 s4]; [exact Inv|].
  destruct (utf8.cont (byte_of c3)) eqn:C3; cbn [negb]; [|exact Inv].
  exists (utf8.rune4 (byte_of c0) (byte_of c1) (byte_of c2) (byte_of c3)),
    (String c0 (String c1 (String c2 (String c3 "")))), s4.
  step_by ltac:(apply good_rune4; assumption).
Qed.

(** Every rune that the loop goes through is good. *)
Lemma runes_good (s : string) : Forall good (utf8.runes s).
Proof.
  remember (String.length s) as n eqn:N.
  revert s N. induction n as [n IH] using lt_wf_ind. intros s N.
  destruct s as [|c0 s1]; [constructor|].
  destruct (runes_step c0 s1) as (r & pre & rest & E & P & R & C).
  rewrite R. constructor; [exact C|].
  apply (IH (String.length rest)); [|reflexivity].
  rewrite N, E, length_append. lia.
Qed.

Lemma runes_literal_3D (t : string) :
  utf8.runes ("%5C%3D" +:+ t) = utf8.runes "%5C%3D" ++ utf8.runes t.
Proof. reflexivity. Qed.

Lemma runes_literal_2C (t : string) :
  utf8.runes ("%5C%2C" +:+ t) = utf8.runes "%5C%2C" ++ utf8.runes t.
Proof. reflexivity. Qed.

Lemma runes_escaped (l : list Z) :
  Forall good l ->
  forall t,
    utf8.runes (concatStrings (map escaped l) +:+ t)
    = flat_map escapedRunes l ++ utf8.runes t.
Proof.
  induction 1 as [|c l [C _] _ IH]; intros t; [reflexivity|].
  cbn [map concatStrings fold_right flat_map]. fold (concatStrings (map escaped l)).
  rewrite append_assoc, <- app_assoc, <- IH.
  unfold escaped, idrac8.escapeRune, escapedRunes.
  destruct (c =? 61); [apply runes_literal_3D|].
  destruct (c =? 44); [apply runes_literal_2C|].
  apply C.
Qed.

Lemma escaped_sanitized (l : list Z) :
  Forall good l ->
  concatStrings (map escaped l)
  = escapeBytes (concatStrings (map utf8.string_of_rune l)).
Proof.
  induction 1 as [|c l [_ F] _ IH]; [reflexivity|].
  cbn [map concatStrings fold_right].
  fold (concatStrings (map escaped l)).
  fold (concatStrings (map utf8.string_of_rune l)).
  rewrite escapeBytes_append, IH, F. reflexivity.
Qed.

Lemma sanitized_ascii (s : string) : isASCII s = true -> sanitized s = s.
Proof.
  unfold sanitized. induction s as [|c s IH]; intros A; [reflexivity|].
  cbn [isASCII] in A. apply andb_true_iff in A as [A1 A2].
  rewrite runes_ascii by lia.
  cbn [map concatStrings fold_right].
  fold (concatStrings (map utf8.string_of_rune (utf8.runes s))).
  rewrite (IH A2), string_of_rune_ascii by lia. reflexivity.
Qed.

(** C10: [escapeLdapString] maps the example of the specification as the
    specification says.  On every well-formed UTF-8 string (one that
    decoding and encoding again leaves as it is; every ASCII string is
    one) the result is the input with each [=] byte replaced by [%5C%3D],
    each [,] byte by [%5C%2C] and every other byte left as it is, in
    order.  On every string whatsoever, the runes of the result are the
    runes that the loop ranges over, each [=] replaced by the runes of
    [%5C%3D], each [,] by those of [%5C%2C], every other rune unchanged,
    in order; and the result is the substitution applied to the bytes of
    the sanitized input. *)
Theorem escapeLdapString_escapes :
  idrac8.escapeLdapString "ou=People,dc=example,dc=com"
  = "ou%5C%3DPeople%5C%2Cdc%5C%3Dexample%5C%2Cdc%5C%3Dcom"
  /\ (forall s, sanitized s = s -> idrac8.escapeLdapString s = escapeBytes s)
  /\ (forall s, isASCII s = true -> sanitized s = s)
  /\ (forall s,
        utf8.runes (idrac8.escapeLdapString s)
        = flat_map escapedRunes (utf8.runes s))
  /\ (forall s, idrac8.escapeLdapString s = escapeBytes (sanitized s)).
Proof.
  assert (forall s, idrac8.escapeLdapString s = escapeBytes (sanitized s)) as B.
  { intros s. rewrite escapeLdapString_concat.
    apply escaped_sanitized, runes_good. }
  split; [reflexivity|]. split; [|split; [|split]].
  - intros s V. rewrite B, V. reflexivity.
  - apply sanitized_ascii.
  - intros s. rewrite escapeLdapString_concat.
    rewrite <- (append_empty_r (concatStrings _)).
    rewrite (runes_escaped _ (runes_good s) ""). apply app_nil_r.
  - exact B.
Qed.

Lemma escapeLdapString_escapes_witness :
  idrac8.escapeLdapString "cn=admin,ou=Groups"
  = escapeBytes "cn=admin,ou=Groups"
  /\ sanitized "objectClass=posixAccount" = "objectClass=posixAccount".
Proof.
  split.
  - apply (proj1 (proj2 escapeLdapString_escapes)). reflexivity.
  - apply (proj1 (proj2 (proj2 escapeLdapString_escapes))). reflexivity.
Defined.

(** * Further properties of package racadm *)

(** ** Decimal digits: Itoa and Atoi *)

Lemma digitsFrom_of_uint_acc (d : Decimal.uint) :
  forall acc : positive,
    strconv.digitsFrom (Zpos acc) (NilEmpty.string_of_uint d)
    = Some (Zpos (Pos.of_uint_acc d acc)).
Proof.
  induction d as [|d IH|d IH|d IH|d IH|d IH|d IH|d IH|d IH|d IH|d IH];
    intros acc; cbn [NilEmpty.string_of_uint strconv.digitsFrom Pos.of_uint_acc];
    [reflexivity|..];
    (change (strconv.isDigit _) with true; cbv iota;
     match goal with
     | |- strconv.digitsFrom ?z _ = Some (Zpos (Pos.of_uint_acc _ ?p)) =>
         replace z with (Zpos p)
           by (rewrite ?Pos2Z.inj_add, ?Pos2Z.inj_mul; unfold byte_of;
               simpl N_of_ascii; simpl Z.of_N; lia)
     end; apply IH).
Qed.

Lemma digitsFrom_of_uint (d : Decimal.uint) :
  strconv.digitsFrom 0 (NilEmpty.string_of_uint d) = Some (Z.of_N (Pos.of_uint d)).
Proof.
  induction d as [|d IH|d IH|d IH|d IH|d IH|d IH|d IH|d IH|d IH|d IH];
    cbn [NilEmpty.string_of_uint strconv.digitsFrom Pos.of_uint];
    [reflexivity | exact IH |..];
    (change (strconv.isDigit _) with true; cbv iota;
     match goal with
     | |- strconv.digitsFrom ?z _ = Some (Z.of_N (Npos (Pos.of_uint_acc _ ?p))) =>
         change z with (Zpos p)
     end; apply digitsFrom_of_uint_acc).
Qed.

Lemma allDigits_string_of_uint (d : Decimal.uint) :
  allDigits (NilEmpty.string_of_uint d) = true.
Proof. induction d; cbn [NilEmpty.string_of_uint allDigits]; auto. Qed.

Lemma Itoa_digits (n : Z) :
  0 <= n ->
  allDigits (strconv.Itoa n) = true
  /\ strconv.digits (strconv.Itoa n) = Some n
  /\ strconv.Itoa n <> "".
Proof.
  intros N. destruct n as [|p|p]; [repeat split; discriminate| |lia].
  unfold strconv.Itoa. cbn [Z.to_int NilZero.string_of_int].
  pose proof (DecimalPos.Unsigned.of_to p) as O.
  pose proof (digitsFrom_of_uint (Pos.to_uint p)) as D.
  pose proof (allDigits_string_of_uint (Pos.to_uint p)) as A.
  rewrite O in D. cbn [Z.of_N] in D.
  destruct (Pos.to_uint p) as [|d|d|d|d|d|d|d|d|d|d] eqn:U;
    [discriminate O|..];
    cbn [NilZero.string_of_uint];
    (split; [exact A|]); (split; [exact D | discriminate]).
Qed.

(** ** The progress line *)

Lemma spanDigits_digits (ds rest : string) (c : ascii) :
  allDigits ds = true -> strconv.isDigit c = false ->
  regexp.spanDigits (ds +:+ String c rest) = (ds, String c rest).
Proof.
  intros A C. induction ds as [|d ds IH]; cbn [String.append regexp.spanDigits].
  - rewrite C. reflexivity.
  - cbn [allDigits] in A. apply andb_true_iff in A as [A1 A2].
    rewrite A1, (IH A2). reflexivity.
Qed.

Lemma FindStringSubmatch_progressLine (ds : string) :
  allDigits ds = true -> ds <> "" ->
  regexp.FindStringSubmatch (progressLine ds) = [progressLine ds; ds].
Proof.
  intros A N. unfold progressLine.
  cbn [String.append regexp.FindStringSubmatch].
  unfold regexp.matchHere. cbn [regexp.stripLiteral Ascii.eqb Bool.eqb].
  rewrite (spanDigits_digits ds "" "]" A eq_refl).
  destruct ds as [|d ds]; [contradiction N; reflexivity | reflexivity].
Qed.

(** X1: a progress line written with [Itoa] is read back: for every [n]
    from 0 to the largest [int], on a message whose first line beginning
    with [Percent Complete=[] is [Percent Complete=[n]] in decimal,
    [parsePercentComplete] returns [n] and no error. *)
Theorem parsePercentComplete_Itoa (message : string) (n : Z) :
  0 <= n <= strconv.maxInt ->
  firstProgressLine message = Some (progressLine (strconv.Itoa n)) ->
  racadm.parsePercentComplete message = (n, None).
Proof.
  intros [N0 N1] F. destruct (Itoa_digits n N0) as (A & D & NE).
  unfold racadm.parsePercentComplete, firstProgressLine in *.
  rewrite parsePercentComplete_lines_find, F.
  pose proof (find_some _ _ F) as [_ P].
  cbn [racadm.parsePercentComplete_lines]. rewrite P.
  rewrite (FindStringSubmatch_progressLine _ A NE).
  destruct (strconv.Itoa n) as [|d ds] eqn:I; [contradiction NE; reflexivity|].
  cbn [allDigits] in A. apply andb_true_iff in A as [A1 _].
  rewrite (Atoi_digit_first d ds A1), D.
  replace (strconv.maxInt <? n) with false by lia.
  replace (n <? strconv.minInt) with false
    by (unfold strconv.minInt, strconv.intSize; lia).
  reflexivity.
Qed.

Lemma parsePercentComplete_Itoa_witness :
  racadm.parsePercentComplete (jobView (progressLine (strconv.Itoa 73) +:+ nl))
  = (73, None).
Proof.
  apply parsePercentComplete_Itoa; [vm_compute; split; discriminate | reflexivity].
Defined.

(** ** The job identifier *)

Lemma Contains_of_HasPrefix (s substr : string) :
  strings.HasPrefix s substr = true -> strings.Contains s substr = true.
Proof.
  intros H. unfold strings.Contains.
  destruct s as [|c s]; [cbn [strings.Index] | rewrite Index_String]; rewrite H;
    reflexivity.
Qed.

(** A prefix without the separator is a prefix of the first line. *)
Lemma HasPrefix_first_line (substr : string) (sep : ascii) :
  hasByte sep substr = false ->
  forall s l ls,
    strings.HasPrefix s substr = true ->
    strings.Split s sep = l :: ls ->
    strings.HasPrefix l substr = true.
Proof.
  induction substr as [|p substr IH]; intros N s l ls H E; [reflexivity|].
  cbn [hasByte] in N. apply orb_false_iff in N as [N1 N2].
  destruct s as [|c s]; cbn [strings.HasPrefix] in H; [discriminate|].
  apply andb_true_iff in H as [H1 H2].
  apply Ascii.eqb_eq in H1. subst c.
  cbn [strings.Split] in E. rewrite N1 in E.
  destruct (Split_first s sep) as (l' & ls' & rest & E' & _).
  rewrite E' in E. injection E as <- <-.
  cbn [strings.HasPrefix]. rewrite Ascii.eqb_refl. apply (IH N2 s l' ls' H2 E').
Qed.

(** A string that contains [substr], which has no separator in it, has a
    line that contains it. *)
Lemma Contains_some_line (substr s : string) (sep : ascii) :
  hasByte sep substr = false ->
  strings.Contains s substr = true ->
  Exists (fun line => strings.Contains line substr = true) (strings.Split s sep).
Proof.
  intros N. induction s as [|c s IH]; intros H.
  - left. exact H.
  - rewrite Contains_String in H.
    destruct (Split_first (String c s) sep) as (l & ls & rest & E & _).
    destruct (strings.HasPrefix (String c s) substr) eqn:P.
    + rewrite E. left. apply Contains_of_HasPrefix.
      apply (HasPrefix_first_line substr sep N (String c s) l ls P E).
    + cbn [orb] in H. specialize (IH H). cbn [strings.Split] in *.
      destruct (Ascii.eqb c sep); [right; exact IH|].
      destruct (strings.Split s sep) as [|l' ls']; [inversion IH|].
      apply Exists_cons in IH as [IH|IH]; [left | right; exact IH].
      rewrite Contains_String, IH. apply orb_true_r.
Qed.

(** X2: whenever [parseJobId] returns a job identifier, it has exactly 16
    bytes, starts with [JID_] and is cut out of the first line of the
    message that contains [JID_]; and [parseJobId] returns an error only
    when the message contains no [JID_] at all. *)
Theorem parseJobId_result (message : string) :
  (forall jobId,
      racadm.parseJobId message = Done (jobId, None) ->
      String.length jobId = 16%nat
      /\ strings.HasPrefix jobId "JID_" = true
      /\ exists line, firstJobLine message = Some line /\ jobId = jobIdOf line)
  /\ (forall v err,
      racadm.parseJobId message = Done (v, Some err) ->
      strings.Contains message "JID_" = false
      /\ v = "" /\ err = errors_New "failed to find JobID in output").
Proof.
  unfold racadm.parseJobId, firstJobLine. rewrite parseJobId_lines_find.
  split.
  - intros jobId H.
    destruct (find _ _) as [line|] eqn:F; [|discriminate H].
    pose proof (find_Contains_Index _ _ F) as I.
    cbv zeta in H. rewrite slice_16 in H by exact I.
    destruct (strings.Index line "JID_" + 16 <=? len line) eqn:L; [|discriminate H].
    injection H as <-. apply Z.leb_le in L.
    split; [|split].
    + apply length_substring. unfold len in L. lia.
    + apply Index_substring; [exact I | simpl; lia].
    + exists line. split; reflexivity.
  - intros v err H.
    destruct (find _ _) as [line|] eqn:F.
    + cbv zeta in H. destruct (slice line _ _); discriminate H.
    + injection H as <- <-. split; [|split; reflexivity].
      destruct (strings.Contains message "JID_") eqn:C; [|reflexivity].
      apply (Contains_some_line "JID_" message newline eq_refl) in C.
      apply Exists_exists in C as (line & In1 & C).
      pose proof (find_none _ _ F line In1) as X. cbv beta in X. congruence.
Qed.

Lemma parseJobId_result_witness :
  String.length "JID_000123456789" = 16%nat
  /\ strings.Contains "no identifier here" "JID_" = false.
Proof.
  split.
  - apply (proj1 (parseJobId_result jobCreated) "JID_000123456789" eq_refl).
  - apply (proj2 (parseJobId_result "no identifier here") ""
             (errors_New "failed to find JobID in output") eq_refl).
Defined.

(** ** ChangeBiosCfg: what ends the loop *)

Lemma tick_fails_or_succeeds (res : racadm.exec_result) :
  failingTick (racadm.Tick res) = true
  \/ exists percentComplete, successfulTick (racadm.Tick res) = Some percentComplete.
Proof.
  cbn [failingTick successfulTick].
  destruct (queryResult res) as [output [err|]]; [left; reflexivity|].
  destruct (racadm.parsePercentComplete output) as [p [err|]];
    [left; reflexivity | right; exists p; reflexivity].
Qed.

Lemma runResult_run (s : racadm.Racadm) (command : string) (args : list string)
    (res : racadm.exec_result) (tr : racadm.trace) :
  racadm.run s command args res tr
  = (runResult res, tr ++ [racadm.racadmArgs s command args]).
Proof. destruct res as [[result|] [err|]]; reflexivity. Qed.

(** [ChangeBiosCfg], by its three stages. *)
Lemma ChangeBiosCfg_stages (s : racadm.Racadm) (ctx : racadm.Context) (now : time.Time)
    (cfgFile : string) (setRes : racadm.exec_result) (evs : list racadm.event) :
  racadm.ChangeBiosCfg s ctx now cfgFile setRes evs
  = if time.Until now (racadm.Deadline ctx) <? racadm.timeout then
      (racadm.Returned (Some (errors_New
         ("remaining context deadline (minimum: " +:+ time.String racadm.timeout +:+
          ") insufficient to perform update, remaining: " +:+
          time.String (time.Until now (racadm.Deadline ctx))))), [])
    else
      match runResult setRes with
      | (_, Some err) =>
          (racadm.Returned (Some (fmt_Errorf_w "failed to execute racadm set command: " err)),
           [setCommand s cfgFile])
      | (output, None) =>
          match racadm.parseJobId output with
          | Panic reason => (racadm.Panicked reason, [setCommand s cfgFile])
          | Done (_, Some err) =>
              (racadm.Returned (Some (fmt_Errorf_w "failed to parse JobID: " err)),
               [setCommand s cfgFile])
          | Done (jobID, None) =>
              racadm.pollLoop s jobID 0 evs [setCommand s cfgFile]
          end
      end.
Proof.
  unfold racadm.ChangeBiosCfg. cbv zeta. rewrite runResult_run. reflexivity.
Qed.

Section PollLoopEnds.

Variable s : racadm.Racadm.
Variable jobID : string.

Lemma pollLoop_nil_reads_100 (evs : list racadm.event) :
  forall errorCount tr tr',
    racadm.pollLoop s jobID errorCount evs tr = (racadm.Returned None, tr') ->
    exists ev, In ev evs /\ successfulTick ev = Some 100.
Proof.
  induction evs as [|ev evs IH]; intros errorCount tr tr' H; cbn [racadm.pollLoop] in H.
  - discriminate H.
  - destruct (racadm.pollStep s jobID errorCount ev tr) as [[[e|]|r|c] tr1] eqn:S;
      try discriminate H.
    + exists ev. split; [left; reflexivity|].
      destruct ev as [cerr| |res];
        [cbn [racadm.pollStep] in S; discriminate S
        |cbn [racadm.pollStep] in S; discriminate S|].
      destruct (tick_fails_or_succeeds res) as [F|[p P]].
      * destruct (pollStep_failing s jobID errorCount _ tr F) as (e & _ & E).
        rewrite E in S. destruct (_ <=? _); discriminate S.
      * rewrite (pollStep_successful s jobID errorCount _ tr p P) in S.
        destruct (p =? 100) eqn:E100; [|discriminate S].
        apply Z.eqb_eq in E100. subst p. exact P.
    + destruct (IH _ _ _ H) as (ev' & I & P). exists ev'. split; [right; exact I | exact P].
Qed.

(** The loop runs one status query for each tick it consumes, and nothing
    else. *)
Lemma pollLoop_commands (evs : list racadm.event) :
  forall errorCount tr,
  exists n,
    snd (racadm.pollLoop s jobID errorCount evs tr)
    = tr ++ repeat (jobqueueView s jobID) n
    /\ (n <= length (filter isTick evs))%nat.
Proof.
  induction evs as [|ev evs IH]; intros errorCount tr; cbn [racadm.pollLoop].
  - exists 0%nat. split; [symmetry; apply app_nil_r | simpl; lia].
  - assert (exists k, snd (racadm.pollStep s jobID errorCount ev tr)
                      = tr ++ repeat (jobqueueView s jobID) k
                      /\ (k <= length (filter isTick [ev]))%nat) as (k & K & Kl).
    { destruct ev as [cerr| |res].
      - exists 0%nat. split; [symmetry; apply app_nil_r | simpl; lia].
      - exists 0%nat. split; [symmetry; apply app_nil_r | simpl; lia].
      - exists 1%nat. split; [|simpl; lia].
        destruct (tick_fails_or_succeeds res) as [F|[p P]].
        + destruct (pollStep_failing s jobID errorCount _ tr F) as (e & _ & ->).
          reflexivity.
        + rewrite (pollStep_successful s jobID errorCount _ tr p P). reflexivity. }
    destruct (racadm.pollStep s jobID errorCount ev tr) as [[e|r|c] tr1];
      cbn [snd] in K; subst tr1.
    + exists k. split; [reflexivity|].
      simpl in Kl |- *. destruct (isTick ev); simpl in *; lia.
    + exists k. split; [reflexivity|].
      simpl in Kl |- *. destruct (isTick ev); simpl in *; lia.
    + destruct (IH c (tr ++ repeat (jobqueueView s jobID) k)) as (n & N & Nl).
      exists (k + n)%nat. rewrite N, repeat_app, app_assoc. split; [reflexivity|].
      simpl in Kl |- *. destruct (isTick ev); simpl in *; lia.
Qed.

(** While the loop waits with [errorCount] errors counted, the last
    [errorCount] wake-ups were failing ticks; so the ceiling is reached on
    the third failing tick in a row. *)
Lemma pollLoop_exceeded_after_three (evs : list racadm.event) :
  forall consumed fails errorCount tr tr' err,
    0 <= errorCount < racadm.maxErrors ->
    errorCount = Z.of_nat (length fails) ->
    forallb failingTick fails = true ->
    racadm.pollLoop s jobID errorCount evs tr = (racadm.Returned (Some err), tr') ->
    exceededMaxErrors err = true ->
    exists pre f1 f2 f3 used rest,
      evs = used ++ rest
      /\ (consumed ++ fails) ++ used = pre ++ [f1; f2; f3]
      /\ failingTick f1 = true /\ failingTick f2 = true /\ failingTick f3 = true
      /\ racadm.pollLoop s jobID errorCount used tr = (racadm.Returned (Some err), tr').
Proof.
  unfold racadm.maxErrors.
  induction evs as [|ev evs IH]; intros consumed fails c tr tr' err B L F H X;
    cbn [racadm.pollLoop] in H; [discriminate H|].
  destruct ev as [cerr| |res].
  - cbn [racadm.pollStep] in H. injection H as <- _. discriminate X.
  - cbn [racadm.pollStep] in H. injection H as <- _. discriminate X.
  - destruct (tick_fails_or_succeeds res) as [Fl|[p P]].
    + destruct (pollStep_failing s jobID c _ tr Fl) as (e & _ & E).
      rewrite E in H. unfold racadm.maxErrors in H.
      destruct (3 <=? c + 1) eqn:C3.
      * apply Z.leb_le in C3.
        destruct fails as [|f1 [|f2 [|f3 fs]]]; cbn [length] in L; try lia.
        cbn [forallb] in F. apply andb_true_iff in F as [F1 F].
        apply andb_true_iff in F as [F2 _].
        exists consumed, f1, f2, (racadm.Tick res), [racadm.Tick res], evs.
        split; [reflexivity|]. split; [rewrite <- app_assoc; reflexivity|].
        repeat (split; [assumption|]).
        cbn [racadm.pollLoop]. rewrite E. unfold racadm.maxErrors.
        rewrite (proj2 (Z.leb_le _ _) C3). exact H.
      * destruct (IH consumed (fails ++ [racadm.Tick res]) (c + 1)
                     (tr ++ [jobqueueView s jobID]) tr' err)
          as (pre & f1 & f2 & f3 & used & rest & E1 & E2 & F1 & F2 & F3 & R);
          [apply Z.leb_gt in C3; lia | rewrite length_app; simpl; lia
          | rewrite forallb_app, F; cbn [forallb]; rewrite Fl; reflexivity
          | exact H | exact X |].
        exists pre, f1, f2, f3, (racadm.Tick res :: used), rest.
        split; [rewrite E1; reflexivity|].
        split; [rewrite <- E2, <- !app_assoc; reflexivity|].
        repeat (split; [assumption|]).
        cbn [racadm.pollLoop]. rewrite E. unfold racadm.maxErrors. rewrite C3. exact R.
    + pose proof (pollStep_successful s jobID c _ tr p P) as E.
      rewrite E in H.
      destruct (p =? 100) eqn:P100; [discriminate H|].
      destruct (IH (consumed ++ fails ++ [racadm.Tick res]) [] 0
                   (tr ++ [jobqueueView s jobID]) tr' err)
        as (pre & f1 & f2 & f3 & used & rest & E1 & E2 & F1 & F2 & F3 & R);
        [lia | reflexivity | reflexivity | exact H | exact X |].
      exists pre, f1, f2, f3, (racadm.Tick res :: used), rest.
      split; [rewrite E1; reflexivity|].
      split; [rewrite <- E2, app_nil_r, <- !app_assoc; reflexivity|].
      repeat (split; [assumption|]).
      cbn [racadm.pollLoop]. rewrite E. exact R.
Qed.

End PollLoopEnds.

(** X3: [ChangeBiosCfg] returns nil only when enough time was left until
    the deadline, the submission gave a job identifier and one of the
    ticks read 100 percent: it never reports success without having seen
    the job complete. *)
Theorem ChangeBiosCfg_nil_reads_100 (s : racadm.Racadm) (ctx : racadm.Context)
    (now : time.Time) (cfgFile : string) (setRes : racadm.exec_result)
    (evs : list racadm.event) (tr : racadm.trace) :
  racadm.ChangeBiosCfg s ctx now cfgFile setRes evs = (racadm.Returned None, tr) ->
  racadm.timeout <= time.Until now (racadm.Deadline ctx)
  /\ (exists output jobID,
        runResult setRes = (output, None)
        /\ racadm.parseJobId output = Done (jobID, None))
  /\ exists ev, In ev evs /\ successfulTick ev = Some 100.
Proof.
  rewrite ChangeBiosCfg_stages.
  destruct (time.Until now (racadm.Deadline ctx) <? racadm.timeout) eqn:T;
    [discriminate|].
  apply Z.ltb_ge in T.
  destruct (runResult setRes) as [output [err|]]; [discriminate|].
  destruct (racadm.parseJobId output) as [[jobID [err|]]|reason] eqn:P;
    try discriminate.
  intros H. split; [exact T|]. split; [exists output, jobID; auto|].
  eapply pollLoop_nil_reads_100, H.
Qed.

Lemma ChangeBiosCfg_nil_reads_100_witness :
  exists ev,
    In ev [racadm.Tick (viewOf "40"); racadm.Tick failedQuery; racadm.Tick (viewOf "100")]
    /\ successfulTick ev = Some 100.
Proof.
  eapply (ChangeBiosCfg_nil_reads_100 someRacadm
            (deadlineIn 63000000000000000000 (15 * time.Minute))
            63000000000000000000 "bios.xml"
            (Some {| racadm.Stdout := jobCreated; racadm.Stderr := "" |}, None)).
  vm_compute. reflexivity.
Defined.

(** X4: the commands that [ChangeBiosCfg] runs are none at all (the
    deadline check failed), or the submission followed only by status
    queries [jobqueue view -i] of the job identifier parsed from the
    output of the submission, at most one for each tick. *)
Theorem ChangeBiosCfg_commands (s : racadm.Racadm) (ctx : racadm.Context)
    (now : time.Time) (cfgFile : string) (setRes : racadm.exec_result)
    (evs : list racadm.event) :
  let tr := snd (racadm.ChangeBiosCfg s ctx now cfgFile setRes evs) in
  (tr = [] /\ time.Until now (racadm.Deadline ctx) < racadm.timeout)
  \/ tr = [setCommand s cfgFile]
  \/ exists jobID n,
       racadm.parseJobId (fst (runResult setRes)) = Done (jobID, None)
       /\ tr = setCommand s cfgFile :: repeat (jobqueueView s jobID) n
       /\ (n <= length (filter isTick evs))%nat.
Proof.
  cbv zeta. rewrite ChangeBiosCfg_stages.
  destruct (time.Until now (racadm.Deadline ctx) <? racadm.timeout) eqn:T.
  { left. apply Z.ltb_lt in T. auto. }
  right.
  destruct (runResult setRes) as [output [err|]]; [left; reflexivity|].
  cbn [fst].
  destruct (racadm.parseJobId output) as [[jobID [err|]]|reason] eqn:P;
    try (left; reflexivity).
  right. exists jobID.
  destruct (pollLoop_commands s jobID evs 0 [setCommand s cfgFile]) as (n & N & L).
  exists n. rewrite N. auto.
Qed.

(** X5: when the context is done, or the timeout fires, while the loop
    waits, [ChangeBiosCfg] returns at once: with the error that wraps the
    error of the context, or with the timeout error, without running any
    further command and whatever would wake the loop afterwards. *)
Theorem pollLoop_cancel_and_timeout (s : racadm.Racadm) (jobID : string)
    (pre rest : list racadm.event) (errorCount errorCount' : Z)
    (tr0 tr : racadm.trace) (cerr : error) :
  racadm.pollLoop s jobID errorCount pre tr0 = (racadm.Blocked errorCount', tr) ->
  racadm.pollLoop s jobID errorCount (pre ++ racadm.CtxDone cerr :: rest) tr0
  = (racadm.Returned (Some (fmt_Errorf_w
       "context canceled while waiting for job completion: " cerr)), tr)
  /\ racadm.pollLoop s jobID errorCount (pre ++ racadm.TimeoutFired :: rest) tr0
     = (racadm.Returned (Some (errors_New
          "timeout exceeded while waiting for job to complete")), tr).
Proof.
  intros H. rewrite !pollLoop_app, H. split; reflexivity.
Qed.

Lemma pollLoop_cancel_and_timeout_witness :
  racadm.pollLoop someRacadm "JID_000123456789" 0
    ([racadm.Tick (viewOf "40"); racadm.Tick failedQuery]
       ++ racadm.CtxDone (errors_New "context deadline exceeded")
          :: [racadm.Tick (viewOf "100")]) []
  = (racadm.Returned (Some (fmt_Errorf_w
       "context canceled while waiting for job completion: "
       (errors_New "context deadline exceeded"))),
     [jobqueueView someRacadm "JID_000123456789";
      jobqueueView someRacadm "JID_000123456789"]).
Proof.
  apply (pollLoop_cancel_and_timeout someRacadm "JID_000123456789"
           [racadm.Tick (viewOf "40"); racadm.Tick failedQuery]
           [racadm.Tick (viewOf "100")] 0 1 []).
  reflexivity.
Defined.

Lemma parseJobId_absent (message : string) :
  strings.Contains message "JID_" = false ->
  racadm.parseJobId message
  = Done ("", Some (errors_New "failed to find JobID in output")).
Proof.
  intros C. unfold racadm.parseJobId. rewrite parseJobId_lines_find.
  destruct (find _ _) as [line|] eqn:F; [|reflexivity].
  apply find_some in F as [F1 F2].
  pose proof (Contains_lines "JID_" message newline C) as A.
  rewrite Forall_forall in A. rewrite (A _ F1) in F2. discriminate.
Qed.

(** X6: with enough time left, when the submission command fails, or
    when its output holds no [JID_], [ChangeBiosCfg] returns the error of
    the submission, wrapped, or the error that no job identifier was
    found, wrapped; it has run the submission and no status query,
    whatever the ticks would bring. *)
Theorem ChangeBiosCfg_submission_fails (s : racadm.Racadm) (ctx : racadm.Context)
    (now : time.Time) (cfgFile : string) (setRes : racadm.exec_result)
    (evs : list racadm.event) :
  racadm.timeout <= time.Until now (racadm.Deadline ctx) ->
  (forall err,
      snd setRes = Some err ->
      racadm.ChangeBiosCfg s ctx now cfgFile setRes evs
      = (racadm.Returned (Some (fmt_Errorf_w "failed to execute racadm set command: " err)),
         [setCommand s cfgFile]))
  /\ (snd setRes = None ->
      strings.Contains (fst (runResult setRes)) "JID_" = false ->
      racadm.ChangeBiosCfg s ctx now cfgFile setRes evs
      = (racadm.Returned (Some (fmt_Errorf_w "failed to parse JobID: "
                                  (errors_New "failed to find JobID in output"))),
         [setCommand s cfgFile])).
Proof.
  intros T. rewrite ChangeBiosCfg_stages.
  replace (time.Until now (racadm.Deadline ctx) <? racadm.timeout) with false
    by (symmetry; apply Z.ltb_ge; exact T).
  split.
  - intros err E. destruct setRes as [[result|] e]; cbn [snd] in E; subst e; reflexivity.
  - intros E C. destruct setRes as [[result|] e]; cbn [snd] in E; subst e;
      cbn [runResult fst] in *; rewrite (parseJobId_absent _ C); reflexivity.
Qed.

Lemma ChangeBiosCfg_submission_fails_witness :
  racadm.ChangeBiosCfg someRacadm (deadlineIn 63000000000000000000 (15 * time.Minute))
    63000000000000000000 "bios.xml"
    (Some {| racadm.Stdout := ""; racadm.Stderr := "ERROR: Unable to connect" |},
     Some (errors_New "exit status 1"))
    [racadm.Tick (viewOf "100")]
  = (racadm.Returned (Some (fmt_Errorf_w "failed to execute racadm set command: "
                              (errors_New "exit status 1"))),
     [setCommand someRacadm "bios.xml"])
  /\ racadm.ChangeBiosCfg someRacadm (deadlineIn 63000000000000000000 (15 * time.Minute))
       63000000000000000000 "bios.xml"
       (Some {| racadm.Stdout := "RAC977: initiated."; racadm.Stderr := "" |}, None)
       [racadm.Tick (viewOf "100")]
     = (racadm.Returned (Some (fmt_Errorf_w "failed to parse JobID: "
                                 (errors_New "failed to find JobID in output"))),
        [setCommand someRacadm "bios.xml"]).
Proof.
  split.
  - apply ChangeBiosCfg_submission_fails; [vm_compute; discriminate | reflexivity].
  - apply ChangeBiosCfg_submission_fails; [vm_compute; discriminate | reflexivity..].
Defined.

(** X7: the poll loop returns an [exceeded maximum consecutive errors]
    error only on the third of three failing ticks that follow one
    another: the wake-ups it consumed end with three failing ticks in a
    row, and what would wake it afterwards is not looked at.  Failures
    that are separated by a successful tick never add up to the
    ceiling. *)
Theorem pollLoop_exceeded_only_after_three (s : racadm.Racadm) (jobID : string)
    (evs : list racadm.event) (tr0 tr : racadm.trace) (err : error) :
  racadm.pollLoop s jobID 0 evs tr0 = (racadm.Returned (Some err), tr) ->
  exceededMaxErrors err = true ->
  exists pre f1 f2 f3 rest,
    evs = pre ++ f1 :: f2 :: f3 :: rest
    /\ failingTick f1 = true /\ failingTick f2 = true /\ failingTick f3 = true
    /\ racadm.pollLoop s jobID 0 (pre ++ [f1; f2; f3]) tr0
       = (racadm.Returned (Some err), tr).
Proof.
  intros H X.
  destruct (pollLoop_exceeded_after_three s jobID evs [] [] 0 tr0 tr err)
    as (pre & f1 & f2 & f3 & used & rest & E1 & E2 & F1 & F2 & F3 & R);
    [unfold racadm.maxErrors; lia | reflexivity | reflexivity | exact H | exact X |].
  cbn [app] in E2. subst used evs.
  exists pre, f1, f2, f3, rest.
  split; [rewrite <- app_assoc; reflexivity|]. auto.
Qed.

Lemma pollLoop_exceeded_only_after_three_witness :
  exists pre f1 f2 f3 rest,
    [racadm.Tick failedQuery; racadm.Tick (viewOf "20"); racadm.Tick failedQuery;
     racadm.Tick (viewOf "invalid"); racadm.Tick failedQuery; racadm.Tick (viewOf "100")]
    = pre ++ f1 :: f2 :: f3 :: rest
    /\ failingTick f1 = true /\ failingTick f2 = true /\ failingTick f3 = true.
Proof.
  destruct (pollLoop_exceeded_only_after_three someRacadm "JID_000123456789"
              [racadm.Tick failedQuery; racadm.Tick (viewOf "20"); racadm.Tick failedQuery;
               racadm.Tick (viewOf "invalid"); racadm.Tick failedQuery;
               racadm.Tick (viewOf "100")] [] _ _ eq_refl eq_refl)
    as (pre & f1 & f2 & f3 & rest & E & F1 & F2 & F3 & _).
  exists pre, f1, f2, f3, rest. auto.
Defined.

(** ** SetBiosConfigurationFromFile *)

Lemma ChangeBiosCfg_first_command (s : racadm.Racadm) (ctx : racadm.Context)
    (now : time.Time) (cfgFile : string) (setRes : racadm.exec_result)
    (evs : list racadm.event) :
  snd (racadm.ChangeBiosCfg s ctx now cfgFile setRes evs) = []
  \/ exists tr,
       snd (racadm.ChangeBiosCfg s ctx now cfgFile setRes evs)
       = setCommand s cfgFile :: tr.
Proof.
  rewrite ChangeBiosCfg_stages.
  destruct (_ <? _); [left; reflexivity | right].
  destruct (runResult setRes) as [output [err|]]; [eexists; reflexivity|].
  destruct (racadm.parseJobId output) as [[jobID [err|]]|reason];
    try (eexists; reflexivity).
  destruct (pollLoop_commands s jobID evs 0 [setCommand s cfgFile]) as (n & N & _).
  rewrite N. eexists. reflexivity.
Qed.

(** X8: [SetBiosConfigurationFromFile] cleans up after itself.  When the
    temporary file cannot be created, it returns that error and does
    nothing else.  Otherwise, once it has returned or panicked, removing
    the temporary file is the last thing it did to the file system, and
    it did so once.  It runs racadm only after it has written exactly the
    configuration to that file and closed it, and the first command is
    the submission of that file. *)
Theorem SetBiosConfigurationFromFile_cleanup (s : racadm.Racadm) (ctx : racadm.Context)
    (now : time.Time) (cfg : string) (fs : racadm.tempFile)
    (setRes : racadm.exec_result) (evs : list racadm.event) :
  let '(st, tr, ops) :=
    racadm.SetBiosConfigurationFromFile s ctx now cfg fs setRes evs in
  (forall name err,
      racadm.created fs = (name, Some err) ->
      st = racadm.Returned (Some err) /\ tr = []
      /\ ops = [racadm.CreateTemp "" "bmclib"])
  /\ (forall name,
      racadm.created fs = (name, None) ->
      (finished st = true ->
       exists before,
         ops = before ++ [racadm.Remove name]
         /\ ~ In (racadm.Remove name) before)
      /\ (tr <> [] ->
          (exists tr', tr = setCommand s name :: tr')
          /\ exists after,
               ops = [racadm.CreateTemp "" "bmclib"; racadm.WriteString name cfg;
                      racadm.Close name] ++ after)).
Proof.
  unfold racadm.SetBiosConfigurationFromFile.
  destruct (racadm.created fs) as [name [cerr|]].
  { split; [intros ? ? [= <- <-]; auto | intros ? [=]]. }
  assert (forall before : list racadm.fileOp,
             Forall (fun op => match op with racadm.Remove _ => False | _ => True end)
                    before ->
             ~ In (racadm.Remove name) before) as NoRemove.
  { intros before A I. rewrite Forall_forall in A. apply (A _ I). }
  destruct (racadm.written fs) as [werr|].
  { split; [intros ? ? [=]|]. intros ? [= <-]. split; [|intros T; contradiction T; reflexivity].
    intros _. eexists. split; [reflexivity|]. apply NoRemove. repeat constructor. }
  destruct (racadm.closed fs) as [clerr|].
  { split; [intros ? ? [=]|]. intros ? [= <-]. split; [|intros T; contradiction T; reflexivity].
    intros _. exists [racadm.CreateTemp "" "bmclib"; racadm.WriteString name cfg;
                      racadm.Close name].
    split; [reflexivity|]. apply NoRemove. repeat constructor. }
  pose proof (ChangeBiosCfg_first_command s ctx now name setRes evs) as C.
  destruct (racadm.ChangeBiosCfg s ctx now name setRes evs) as [st tr].
  cbn [snd] in C.
  assert (tr <> [] -> exists tr', tr = setCommand s name :: tr') as Hd.
  { intros T. destruct C as [C|C]; [contradiction | exact C]. }
  destruct st as [e|r|c]; (split; [intros ? ? [=]|]); intros ? [= <-]; split.
  - intros _. exists [racadm.CreateTemp "" "bmclib"; racadm.WriteString name cfg;
                      racadm.Close name].
    split; [reflexivity|]. apply NoRemove. repeat constructor.
  - intros T. split; [exact (Hd T)|]. eexists. reflexivity.
  - intros _. exists [racadm.CreateTemp "" "bmclib"; racadm.WriteString name cfg;
                      racadm.Close name].
    split; [reflexivity|]. apply NoRemove. repeat constructor.
  - intros T. split; [exact (Hd T)|]. eexists. reflexivity.
  - intros F. discriminate F.
  - intros T. split; [exact (Hd T)|]. eexists. reflexivity.
Qed.

Lemma SetBiosConfigurationFromFile_cleanup_witness :
  racadm.SetBiosConfigurationFromFile someRacadm
    (deadlineIn 63000000000000000000 (15 * time.Minute)) 63000000000000000000
    "<SystemConfiguration/>"
    {| racadm.created := ("/tmp/bmclib123", None);
       racadm.written := None; racadm.closed := None |}
    (Some {| racadm.Stdout := jobCreated; racadm.Stderr := "" |}, None)
    [racadm.Tick (viewOf "100")]
  = (racadm.Returned None,
     [setCommand someRacadm "/tmp/bmclib123";
      jobqueueView someRacadm "JID_000123456789"],
     [racadm.CreateTemp "" "bmclib";
      racadm.WriteString "/tmp/bmclib123" "<SystemConfiguration/>";
      racadm.Close "/tmp/bmclib123"; racadm.Remove "/tmp/bmclib123"])
  /\ exists before,
       [racadm.CreateTemp "" "bmclib";
        racadm.WriteString "/tmp/bmclib123" "<SystemConfiguration/>";
        racadm.Remove "/tmp/bmclib123"]
       = before ++ [racadm.Remove "/tmp/bmclib123"]
       /\ ~ In (racadm.Remove "/tmp/bmclib123") before.
Proof.
  split; [vm_compute; reflexivity|].
  pose proof (SetBiosConfigurationFromFile_cleanup someRacadm
                (deadlineIn 63000000000000000000 (15 * time.Minute))
                63000000000000000000 "<SystemConfiguration/>"
                {| racadm.created := ("/tmp/bmclib123", None);
                   racadm.written := Some (errors_New "no space left on device");
                   racadm.closed := None |}
                (None, None) []) as H.
  cbn in H. destruct H as [_ H].
  destruct (H "/tmp/bmclib123" eq_refl) as [H1 _].
  exact (H1 eq_refl).
Defined.

(** ** A context without a deadline *)

Lemma Until_zeroTime (now : time.Time) :
  time.zeroTime <= now ->
  time.Until now time.zeroTime < racadm.timeout
  /\ (2 ^ 63 <= now -> time.Until now time.zeroTime = time.minDuration).
Proof.
  unfold time.Until, time.Sub, time.zeroTime, time.maxDuration, time.minDuration.
  intros N. cbv zeta.
  assert (0 < racadm.timeout) as T by (vm_compute; reflexivity).
  destruct (Z.ltb_spec (2 ^ 63 - 1) (0 - now)) as [A|A]; [lia|].
  destruct (Z.ltb_spec (0 - now) (- 2 ^ 63)) as [B|B]; lia.
Qed.

(** X9: [ChangeBiosCfg] needs a context with a deadline.  With a context
    that has none, at any instant that is not before the zero time, it
    returns an error and runs no command, whatever the racadm command
    would answer; from 2^63 nanoseconds after the zero time on (a day of
    the year 293) the error reports the remaining time
    [-2562047h47m16.854775808s], the smallest duration. *)
Theorem ChangeBiosCfg_needs_deadline (s : racadm.Racadm) (now : time.Time)
    (cfgFile : string) (setRes : racadm.exec_result) (evs : list racadm.event) :
  time.zeroTime <= now ->
  (exists err,
      racadm.ChangeBiosCfg s noDeadline now cfgFile setRes evs
      = (racadm.Returned (Some err), []))
  /\ (2 ^ 63 <= now ->
      racadm.ChangeBiosCfg s noDeadline now cfgFile setRes evs
      = (racadm.Returned (Some (errors_New
           ("remaining context deadline (minimum: 14m30s) insufficient to perform "
            +:+ "update, remaining: -2562047h47m16.854775808s"))), [])).
Proof.
  intros N. destruct (Until_zeroTime now N) as [L M].
  rewrite ChangeBiosCfg_stages.
  change (racadm.Deadline noDeadline) with time.zeroTime.
  apply Z.ltb_lt in L. rewrite L. split; [eexists; reflexivity|].
  intros F. rewrite (M F). vm_compute. reflexivity.
Qed.

Lemma ChangeBiosCfg_needs_deadline_witness :
  racadm.ChangeBiosCfg someRacadm noDeadline 63000000000000000000 "bios.xml"
    (Some {| racadm.Stdout := jobCreated; racadm.Stderr := "" |}, None)
    [racadm.Tick (viewOf "100")]
  = (racadm.Returned (Some (errors_New
       ("remaining context deadline (minimum: 14m30s) insufficient to perform "
        +:+ "update, remaining: -2562047h47m16.854775808s"))), []).
Proof.
  apply (ChangeBiosCfg_needs_deadline someRacadm 63000000000000000000 "bios.xml");
    vm_compute; discriminate.
Defined.

(** * Properties of package bmclib *)

Lemma openedAmong_app (elem : registrar.Driver) (ifs : list Z)
    (reg : list registrar.Driver) :
  bmclib.openedAmong elem ifs reg = reg ++ bmclib.openedAmong elem ifs [].
Proof.
  revert reg. induction ifs as [|em rest IH]; intros reg; cbn [bmclib.openedAmong].
  - symmetry. apply app_nil_r.
  - rewrite IH.
    rewrite (IH (if em =? registrar.DriverInterface elem then [] ++ [elem] else [])).
    destruct (em =? registrar.DriverInterface elem).
    + rewrite <- app_assoc. reflexivity.
    + reflexivity.
Qed.

Lemma openedDrivers_app (drivers : list registrar.Driver) (ifs : list Z)
    (reg : list registrar.Driver) :
  bmclib.openedDrivers drivers ifs reg = reg ++ bmclib.openedDrivers drivers ifs [].
Proof.
  revert reg. induction drivers as [|elem rest IH]; intros reg;
    cbn [bmclib.openedDrivers].
  - symmetry. apply app_nil_r.
  - rewrite IH, (IH (bmclib.openedAmong elem ifs [])), (openedAmong_app elem ifs reg).
    symmetry. apply app_assoc.
Qed.

Lemma openedAmong_In (elem d : registrar.Driver) (ifs : list Z) :
  In d (bmclib.openedAmong elem ifs [])
  <-> d = elem /\ In (registrar.DriverInterface elem) ifs.
Proof.
  induction ifs as [|em rest IH]; cbn [bmclib.openedAmong].
  - simpl. tauto.
  - rewrite openedAmong_app, in_app_iff, IH.
    destruct (Z.eqb_spec em (registrar.DriverInterface elem)) as [->|N]; simpl.
    + intuition.
    + intuition.
Qed.

Lemma openedAmong_NoDup (elem : registrar.Driver) (ifs : list Z) :
  NoDup ifs ->
  bmclib.openedAmong elem ifs [] = if wasOpened ifs elem then [elem] else [].
Proof.
  unfold wasOpened. induction 1 as [|em rest NI ND IH]; cbn [bmclib.openedAmong existsb].
  - reflexivity.
  - rewrite openedAmong_app, IH. rewrite (Z.eqb_sym (registrar.DriverInterface elem) em).
    destruct (Z.eqb_spec em (registrar.DriverInterface elem)) as [->|N]; simpl.
    + destruct (existsb _ rest) eqn:X; [|reflexivity].
      apply existsb_exists in X. destruct X as (x & I & X).
      apply Z.eqb_eq in X. subst x. contradiction.
    + reflexivity.
Qed.

(** X10: [Client.Open] hands the error of [OpenConnectionFromInterfaces]
    through, with no drivers.  Otherwise it returns no error, and a driver
    is returned exactly when it is registered and its driver value was
    opened; when the opened values are pairwise distinct, the result is
    the registry restricted to the opened drivers, in registration
    order. *)
Theorem Open_returns_opened_drivers (c : bmclib.Client)
    (OpenConnectionFromInterfaces : list Z -> list Z * option error) :
  let drivers := registrar.Drivers (bmclib.Registry c) in
  let '(ifs, err) := OpenConnectionFromInterfaces (map registrar.DriverInterface drivers) in
  match err with
  | Some e => bmclib.Open c OpenConnectionFromInterfaces = ([], Some e)
  | None =>
      snd (bmclib.Open c OpenConnectionFromInterfaces) = None
      /\ (forall d,
             In d (fst (bmclib.Open c OpenConnectionFromInterfaces))
             <-> In d drivers /\ In (registrar.DriverInterface d) ifs)
      /\ (NoDup ifs ->
          fst (bmclib.Open c OpenConnectionFromInterfaces)
          = filter (wasOpened ifs) drivers)
  end.
Proof.
  unfold bmclib.Open, registrar.GetDriverInterfaces.
  destruct (OpenConnectionFromInterfaces _) as [ifs [e|]]; [reflexivity|].
  cbn [fst snd]. split; [reflexivity|].
  generalize (registrar.Drivers (bmclib.Registry c)) as drivers.
  split.
  - intros d. induction drivers as [|elem rest IH]; cbn [bmclib.openedDrivers].
    + simpl. tauto.
    + rewrite openedDrivers_app, in_app_iff, IH, openedAmong_In. simpl.
      split.
      * intros [[-> I]|[I J]]; auto.
      * intros [[->|I] J]; auto.
  - intros ND. induction drivers as [|elem rest IH]; cbn [bmclib.openedDrivers filter].
    + reflexivity.
    + rewrite openedDrivers_app, IH, (openedAmong_NoDup elem ifs ND).
      destruct (wasOpened ifs elem); reflexivity.
Qed.

Lemma Open_returns_opened_drivers_witness :
  bmclib.Open someClient (fun _ => ([3; 1], None))
  = ([driver "ipmitool" 1; driver "gofish" 3], None).
Proof.
  pose proof (Open_returns_opened_drivers someClient (fun _ => ([3; 1], None))) as H.
  cbv zeta in H. destruct H as (E & _ & H).
  rewrite (surjective_pairing (bmclib.Open _ _)), E, H; [reflexivity|].
  repeat constructor; simpl; intuition discriminate.
Defined.

(** * Further properties of package idrac8 *)

(** ** escapeLdapString *)

Lemma escapeLdapString_bytes (s : string) :
  idrac8.escapeLdapString s = escapeBytes (sanitized s).
Proof.
  rewrite escapeLdapString_concat. apply escaped_sanitized, runes_good.
Qed.

Lemma hasByte_append (c : ascii) (a b : string) :
  hasByte c (a +:+ b) = hasByte c a || hasByte c b.
Proof.
  induction a as [|x a IH]; [reflexivity|].
  cbn [String.append hasByte]. rewrite IH. apply orb_assoc.
Qed.

Lemma escapeBytes_no_delimiter (t : string) :
  hasByte "=" (escapeBytes t) = false /\ hasByte "," (escapeBytes t) = false.
Proof.
  induction t as [|c t [IH1 IH2]]; [split; reflexivity|].
  cbn [escapeBytes]. rewrite !hasByte_append, IH1, IH2, !orb_false_r.
  destruct (Ascii.eqb c "=") eqn:E1; [split; reflexivity|].
  destruct (Ascii.eqb c ",") eqn:E2; [split; reflexivity|].
  cbn [hasByte]. rewrite E1, E2. split; reflexivity.
Qed.

Lemma delimiters_hasByte (t : string) :
  delimiters t = 0%nat <-> hasByte "=" t = false /\ hasByte "," t = false.
Proof.
  induction t as [|c t IH]; [simpl; tauto|].
  cbn [delimiters hasByte].
  destruct (Ascii.eqb c "="), (Ascii.eqb c ","); simpl;
    try (split; [discriminate | intros [? ?]; discriminate]).
  exact IH.
Qed.

Lemma escapeBytes_id (t : string) : delimiters t = 0%nat -> escapeBytes t = t.
Proof.
  induction t as [|c t IH]; [reflexivity|].
  cbn [delimiters escapeBytes].
  destruct (Ascii.eqb c "="), (Ascii.eqb c ","); simpl; try discriminate.
  intros D. rewrite (IH D). reflexivity.
Qed.

Lemma length_escapeBytes (t : string) :
  String.length (escapeBytes t) = (String.length t + 5 * delimiters t)%nat.
Proof.
  induction t as [|c t IH]; [reflexivity|].
  cbn [escapeBytes delimiters]. rewrite length_append, IH.
  destruct (Ascii.eqb c "="); [simpl; lia|].
  destruct (Ascii.eqb c ","); simpl; lia.
Qed.

Lemma concatStrings_app (a b : list string) :
  concatStrings (a ++ b) = concatStrings a +:+ concatStrings b.
Proof.
  induction a as [|x a IH]; [reflexivity|].
  cbn [app concatStrings fold_right]. fold (concatStrings (a ++ b)).
  fold (concatStrings a). rewrite IH. symmetry. apply append_assoc.
Qed.

Lemma escapedRunes_encoded (l : list Z) :
  concatStrings (map utf8.string_of_rune (flat_map escapedRunes l))
  = concatStrings (map escaped l).
Proof.
  induction l as [|c l IH]; [reflexivity|].
  cbn [flat_map map]. rewrite map_app, concatStrings_app, IH.
  cbn [concatStrings fold_right]. fold (concatStrings (map escaped l)).
  f_equal. unfold escapedRunes, escaped, idrac8.escapeRune.
  destruct (c =? 61); [reflexivity|]. destruct (c =? 44); [reflexivity|].
  cbn [map concatStrings fold_right]. apply append_empty_r.
Qed.

Lemma sanitized_escapeLdapString (s : string) :
  sanitized (idrac8.escapeLdapString s) = idrac8.escapeLdapString s.
Proof.
  unfold sanitized. rewrite escapeLdapString_concat.
  rewrite <- (append_empty_r (concatStrings (map escaped (utf8.runes s)))) at 1.
  rewrite (runes_escaped _ (runes_good s) ""), app_nil_r.
  apply escapedRunes_encoded.
Qed.

Lemma escaped_result_has_no_delimiter (s : string) :
  hasByte "=" (idrac8.escapeLdapString s) = false
  /\ hasByte "," (idrac8.escapeLdapString s) = false.
Proof. rewrite escapeLdapString_bytes. apply escapeBytes_no_delimiter. Qed.

(** X11: whatever the input, well-formed UTF-8 or not, the result of
    [escapeLdapString] holds no [=] byte and no [,] byte, and it is five
    bytes longer than the sanitized input for each delimiter of that
    input (the input itself when it is well-formed). *)
Theorem escapeLdapString_no_delimiter (s : string) :
  hasByte "=" (idrac8.escapeLdapString s) = false
  /\ hasByte "," (idrac8.escapeLdapString s) = false
  /\ String.length (idrac8.escapeLdapString s)
     = (String.length (sanitized s) + 5 * delimiters (sanitized s))%nat.
Proof.
  split; [apply escaped_result_has_no_delimiter|].
  split; [apply escaped_result_has_no_delimiter|].
  rewrite escapeLdapString_bytes. apply length_escapeBytes.
Qed.

(** X12: [escapeLdapString] leaves its own results as they are: the [%]
    that it writes is not escaped, so escaping twice is escaping once.
    The escaping therefore cannot be undone: a well-formed string with a
    delimiter and its escaped form are two inputs with one result. *)
Theorem escapeLdapString_idempotent (s : string) :
  idrac8.escapeLdapString (idrac8.escapeLdapString s) = idrac8.escapeLdapString s
  /\ (sanitized s = s -> delimiters s <> 0%nat ->
      idrac8.escapeLdapString s <> s).
Proof.
  split.
  - rewrite (escapeLdapString_bytes (idrac8.escapeLdapString s)).
    rewrite sanitized_escapeLdapString.
    apply escapeBytes_id, delimiters_hasByte, escaped_result_has_no_delimiter.
  - intros V D E. apply D, delimiters_hasByte. rewrite <- E.
    apply escaped_result_has_no_delimiter.
Qed.

Lemma escapeLdapString_idempotent_witness :
  idrac8.escapeLdapString "cn=admin" <> "cn=admin"
  /\ idrac8.escapeLdapString (idrac8.escapeLdapString "cn=admin")
     = idrac8.escapeLdapString "cn=admin".
Proof.
  split.
  - apply (proj2 (escapeLdapString_idempotent "cn=admin")).
    + reflexivity.
    + simpl. lia.
  - apply (proj1 (escapeLdapString_idempotent "cn=admin")).
Defined.

(** ** Ntp, Ldap, Syslog and Network *)

Lemma isEmpty_false (s : string) : s <> "" -> idrac8.isEmpty s = false.
Proof.
  intros H. unfold idrac8.isEmpty. destruct (String.eqb_spec s ""); congruence.
Qed.

Lemma failed_false (err : option error) (statusCode expected : Z) :
  idrac8.failed err statusCode expected = false
  <-> statusCode = expected /\ err = None.
Proof.
  unfold idrac8.failed. destruct err as [e|]; simpl.
  - split; [discriminate | intros [_ H]; discriminate H].
  - destruct (Z.eqb_spec statusCode expected); simpl; split; auto.
    + intros H. discriminate H.
    + intros [H _]. contradiction.
Qed.

Ltac run :=
  unfold idrac8.bind, idrac8.get, idrac8.post, idrac8.put, idrac8.send,
    idrac8.logInfo, idrac8.logError, idrac8.ret;
  cbn [fst snd idrac8.calls idrac8.log].

(** X13: with a server and a timezone declared, [Ntp] sends exactly two
    requests, whatever the device answers to the first: the timezone,
    then the NTP servers with the mode 1 or 0 as the configuration is
    enabled or not. *)
Theorem Ntp_sends_two_requests (E : idrac8.Env) (i : idrac8.IDrac8)
    (cfg : cfgresources.Ntp) (w : idrac8.World) :
  cfgresources.Ntp_Server1 cfg <> "" ->
  cfgresources.Ntp_Timezone cfg <> "" ->
  idrac8.calls (snd (idrac8.Ntp E i cfg w))
  = idrac8.calls w ++ [timezoneRequest cfg; ntpServersRequest cfg].
Proof.
  intros S T. unfold idrac8.Ntp.
  rewrite (isEmpty_false _ S), (isEmpty_false _ T).
  unfold idrac8.applyTimezoneParam, idrac8.applyNtpServerParam. run.
  destruct (idrac8.http E (idrac8.calls w) _) as [[st1 r1] e1].
  unfold timezoneRequest, ntpServersRequest, bit.
  destruct (cfgresources.Ntp_Enable cfg); cbn [negb]; run;
    destruct (_ || _); run;
    match goal with
    | |- context [idrac8.http E ?sent ?c] =>
        destruct (idrac8.http E sent c) as [[st2 r2] e2]
    end;
    destruct (_ || _); run; rewrite <- app_assoc; cbn [app];
    rewrite ?append_assoc; reflexivity.
Qed.

Lemma Ntp_sends_two_requests_witness :
  idrac8.calls (snd (idrac8.Ntp (answering 500) someIDrac8 someNtp idrac8.emptyWorld))
  = [idrac8.GET "data?set=tm_tz_str_zone:CET";
     idrac8.GET ("data?set=tm_ntp_int_opmode:1,tm_ntp_str_server1:ntp0.example.com,"
                 +:+ "tm_ntp_str_server2:,tm_ntp_str_server3:,")].
Proof.
  apply (Ntp_sends_two_requests (answering 500) someIDrac8 someNtp idrac8.emptyWorld);
    discriminate.
Defined.

(** X14: [Ldap] sets the server on the device before it looks at the
    search filter.  With a server declared, the first request is the one
    that sets the server; when it fails, its error is returned and nothing
    else is sent.  When it succeeds and no search filter is declared, the
    validation error is returned with the server already set on the
    device.  [Ldap] returns nil exactly when a search filter is declared
    and both requests come back with 200 and no transport error; the
    search filter is sent escaped. *)
Theorem Ldap_server_before_filter (E : idrac8.Env) (i : idrac8.IDrac8)
    (cfg : cfgresources.Ldap) (w : idrac8.World) :
  cfgresources.Ldap_Server cfg <> "" ->
  let serverRequest := idrac8.GET (ldapServerEndpoint cfg) in
  let filterRequest := idrac8.GET (ldapFilterEndpoint cfg) in
  let answer1 := idrac8.http E (idrac8.calls w) serverRequest in
  let answer2 := idrac8.http E (idrac8.calls w ++ [serverRequest]) filterRequest in
  let result := fst (idrac8.Ldap E i cfg w) in
  let sent := idrac8.calls (snd (idrac8.Ldap E i cfg w)) in
  (~ ok200 answer1 ->
   result = Some (getError (ldapServerEndpoint cfg) answer1)
   /\ sent = idrac8.calls w ++ [serverRequest])
  /\ (ok200 answer1 -> cfgresources.Ldap_SearchFilter cfg = "" ->
      result = Some (errors_New
                 "Ldap resource parameter SearchFilter required but not declared.")
      /\ sent = idrac8.calls w ++ [serverRequest])
  /\ (ok200 answer1 -> cfgresources.Ldap_SearchFilter cfg <> "" ->
      sent = idrac8.calls w ++ [serverRequest; filterRequest]
      /\ (~ ok200 answer2 ->
          result = Some (getError (ldapFilterEndpoint cfg) answer2)))
  /\ (result = None
      <-> cfgresources.Ldap_SearchFilter cfg <> "" /\ ok200 answer1 /\ ok200 answer2).
Proof.
  intros S serverRequest filterRequest answer1 answer2 result sent.
  subst result sent. unfold idrac8.Ldap. rewrite (isEmpty_false _ S).
  fold (ldapServerEndpoint cfg). run. fold serverRequest. fold answer1.
  unfold ok200, getError.
  destruct answer1 as [[st1 r1] e1]. cbn [fst snd].
  destruct (idrac8.failed e1 st1 200) eqn:F1.
  { assert (~ (st1 = 200 /\ e1 = None)) as N1.
    { intros H. apply failed_false in H. congruence. }
    run. repeat split; try tauto; try discriminate. }
  apply failed_false in F1. destruct F1 as [-> ->].
  unfold idrac8.applyLdapSearchFilterParam.
  destruct (String.eqb_spec (cfgresources.Ldap_SearchFilter cfg) "") as [Z|NZ].
  { rewrite (isEmpty_true _ Z). run.
    repeat split; try tauto; try discriminate. }
  rewrite (isEmpty_false _ NZ). fold (ldapFilterEndpoint cfg). run.
  fold filterRequest. fold answer2.
  destruct answer2 as [[st2 r2] e2]. cbn [fst snd].
  destruct (idrac8.failed e2 st2 200) eqn:F2.
  { assert (~ (st2 = 200 /\ e2 = None)) as N2.
    { intros H. apply failed_false in H. congruence. }
    run. rewrite <- app_assoc.
    repeat split; try tauto; try discriminate. }
  apply failed_false in F2. destruct F2 as [-> ->].
  run. rewrite <- app_assoc.
  repeat split; try tauto; try discriminate.
Qed.

Lemma Ldap_server_before_filter_witness :
  fst (idrac8.Ldap (answering 200) someIDrac8
         {| cfgresources.Ldap_Server := "ldap.example.com";
            cfgresources.Ldap_Port := 636;
            cfgresources.Ldap_BaseDn := "dc=example,dc=com";
            cfgresources.Ldap_UserAttribute := "uid";
            cfgresources.Ldap_GroupAttribute := "memberUid";
            cfgresources.Ldap_BindDn := "";
            cfgresources.Ldap_SearchFilter := "" |} idrac8.emptyWorld)
  = Some (errors_New "Ldap resource parameter SearchFilter required but not declared.")
  /\ idrac8.calls
       (snd (idrac8.Ldap (answering 200) someIDrac8
               {| cfgresources.Ldap_Server := "ldap.example.com";
                  cfgresources.Ldap_Port := 636;
                  cfgresources.Ldap_BaseDn := "dc=example,dc=com";
                  cfgresources.Ldap_UserAttribute := "uid";
                  cfgresources.Ldap_GroupAttribute := "memberUid";
                  cfgresources.Ldap_BindDn := "";
                  cfgresources.Ldap_SearchFilter := "" |} idrac8.emptyWorld))
     = [idrac8.GET "data?set=xGLServer:ldap.example.com"].
Proof.
  pose proof (Ldap_server_before_filter (answering 200) someIDrac8
                {| cfgresources.Ldap_Server := "ldap.example.com";
                   cfgresources.Ldap_Port := 636;
                   cfgresources.Ldap_BaseDn := "dc=example,dc=com";
                   cfgresources.Ldap_UserAttribute := "uid";
                   cfgresources.Ldap_GroupAttribute := "memberUid";
                   cfgresources.Ldap_BindDn := "";
                   cfgresources.Ldap_SearchFilter := "" |} idrac8.emptyWorld) as H.
  cbv zeta in H. specialize (H ltac:(discriminate)).
  destruct H as (_ & H & _).
  apply H; [split; reflexivity | reflexivity].
Defined.

(** X15: [Syslog] sends the configuration with the port 514 when none is
    declared, then enables the alerts, then sets the alert filter.  It
    stops at the first of the three requests that comes back with a
    transport error and returns that error; the status codes of the
    answers have no influence on what is sent or returned. *)
Theorem Syslog_stops_at_transport_error (E : idrac8.Env) (i : idrac8.IDrac8)
    (cfg : cfgresources.Syslog) (w : idrac8.World) (payload : string) :
  cfgresources.Syslog_Server cfg <> "" ->
  idrac8.json_Marshal_Syslog E (syslogData cfg) = (payload, None) ->
  let '(sent, err) :=
    untilTransportError E (idrac8.calls w) (syslogRequests E payload) in
  fst (idrac8.Syslog E i cfg w) = err
  /\ idrac8.calls (snd (idrac8.Syslog E i cfg w)) = idrac8.calls w ++ sent.
Proof.
  intros S J. unfold idrac8.Syslog. rewrite (isEmpty_false _ S).
  unfold syslogData in J.
  unfold syslogRequests, untilTransportError.
  destruct (cfgresources.Syslog_Port cfg =? 0), (cfgresources.Syslog_Enable cfg);
    cbn [negb]; run; rewrite J; run.
  all: destruct (idrac8.http E (idrac8.calls w) _) as [[st1 r1] [e1|]];
    cbn [snd]; run; [split; reflexivity|].
  all: destruct (idrac8.http E (idrac8.calls w ++ _) _) as [[st2 r2] [e2|]];
    cbn [snd]; run; [split; [reflexivity | rewrite <- app_assoc; reflexivity]|].
  all: destruct (idrac8.http E ((idrac8.calls w ++ _) ++ _) _) as [[st3 r3] [e3|]];
    cbn [snd]; run; split; try reflexivity; rewrite <- !app_assoc; reflexivity.
Qed.

Lemma Syslog_stops_at_transport_error_witness :
  fst (idrac8.Syslog (answering 500) someIDrac8 someSyslog idrac8.emptyWorld) = None
  /\ idrac8.calls
       (snd (idrac8.Syslog (answering 500) someIDrac8 someSyslog idrac8.emptyWorld))
     = [idrac8.PUT "sysmgmt/2012/server/configgroup/iDRAC.SysLog" "syslog.example.com";
        idrac8.POST "data?set=alertStatus:1" "" "";
        idrac8.POST "data?set=alertFilter:1" "" ""].
Proof.
  exact (Syslog_stops_at_transport_error (answering 500) someIDrac8 someSyslog
           idrac8.emptyWorld "syslog.example.com" ltac:(discriminate) eq_refl).
Defined.

(** X16: [Network] sends exactly one request, whatever the configuration
    and the answer, and never asks for a reset.  The payload carries the
    three switches of the configuration as 1 or 0, the switch for serial
    over LAN twice (as [serialOverLanEnabled] and as [racRedirectEna]);
    everything else in it is fixed. *)
Theorem Network_one_request (E : idrac8.Env) (i : idrac8.IDrac8)
    (cfg : cfgresources.Network) (w : idrac8.World) :
  idrac8.calls (snd (idrac8.Network E i cfg w))
  = idrac8.calls w ++ [idrac8.POST "data?set" (idrac8.networkPayload cfg) ""]
  /\ fst (fst (idrac8.Network E i cfg w)) = false
  /\ idrac8.networkPayload cfg
     = "dhcpForDNSDomain:" +:+ bit (cfgresources.Network_DNSFromDHCP cfg)
       +:+ ",ipmiLAN:" +:+ bit (cfgresources.Network_IpmiEnable cfg)
       +:+ ",serialOverLanEnabled:" +:+ bit (cfgresources.Network_SolEnable cfg)
       +:+ ",serialOverLanBaud:3,serialOverLanPriv:0,racRedirectEna:"
       +:+ bit (cfgresources.Network_SolEnable cfg) +:+ ",racEscKey:^\\".
Proof.
  split; [|split].
  - unfold idrac8.Network. run.
    destruct (idrac8.http E _ _) as [[st r] e].
    destruct (idrac8.failed e st 200); reflexivity.
  - unfold idrac8.Network. run.
    destruct (idrac8.http E _ _) as [[st r] e].
    destruct (idrac8.failed e st 200); reflexivity.
  - destruct cfg as [[] [] []]; vm_compute; reflexivity.
Qed.

(** ** UploadHTTPSCert *)

(** X17: [UploadHTTPSCert] answers [true] only when both requests were
    sent, in order, and each came back with 201 and no transport error
    (the second one carrying the resource locator taken from the answer
    to the first); it then returns no error.  When it answers [false] it
    returns an error.  It sends at most these two requests, and the key
    and its file name have no part in what it does. *)
Theorem UploadHTTPSCert_true_only_after_both (E : idrac8.Env) (i : idrac8.IDrac8)
    (cert certFileName key keyFileName : string) (w : idrac8.World) :
  let result := fst (idrac8.UploadHTTPSCert E i cert certFileName key keyFileName w) in
  let sent :=
    idrac8.calls (snd (idrac8.UploadHTTPSCert E i cert certFileName key keyFileName w)) in
  (fst result = true ->
   exists form contentType file resourceURI,
     idrac8.multipartForm E cert certFileName = (form, contentType, None)
     /\ ok201 (idrac8.http E (idrac8.calls w) (formRequest i form contentType))
     /\ idrac8.json_Unmarshal_certStore E
          (snd (fst (idrac8.http E (idrac8.calls w) (formRequest i form contentType))))
        = (file, None)
     /\ idrac8.json_Marshal_string E file = (resourceURI, None)
     /\ ok201 (idrac8.http E (idrac8.calls w ++ [formRequest i form contentType])
                 (certRequest resourceURI))
     /\ sent = idrac8.calls w ++ [formRequest i form contentType; certRequest resourceURI]
     /\ snd result = None)
  /\ (fst result = false -> snd result <> None)
  /\ (exists requests, sent = idrac8.calls w ++ requests /\ (length requests <= 2)%nat)
  /\ (forall key' keyFileName',
         idrac8.UploadHTTPSCert E i cert certFileName key' keyFileName'
         = idrac8.UploadHTTPSCert E i cert certFileName key keyFileName).
Proof.
  cbv zeta. unfold idrac8.UploadHTTPSCert.
  destruct (idrac8.multipartForm E cert certFileName) as [[form contentType] [ferr|]].
  { run. repeat split; try discriminate. exists []. rewrite app_nil_r. split; auto. }
  run. fold (formRequest i form contentType).
  destruct (idrac8.http E (idrac8.calls w) (formRequest i form contentType))
    as [[st1 body1] e1] eqn:H1.
  destruct (idrac8.failed e1 st1 201) eqn:F1.
  { run. repeat split; try discriminate; try (destruct e1; discriminate).
    eexists. split; [reflexivity | simpl; lia]. }
  apply failed_false in F1. destruct F1 as [-> ->].
  destruct (idrac8.json_Unmarshal_certStore E body1) as [file [uerr|]] eqn:U.
  { run. repeat split; try discriminate.
    eexists. split; [reflexivity | simpl; lia]. }
  destruct (idrac8.json_Marshal_string E file) as [resourceURI [merr|]] eqn:Ma.
  { run. repeat split; try discriminate.
    eexists. split; [reflexivity | simpl; lia]. }
  run. fold (certRequest resourceURI).
  destruct (idrac8.http E (idrac8.calls w ++ [formRequest i form contentType])
              (certRequest resourceURI)) as [[st2 body2] e2] eqn:H2.
  destruct (idrac8.failed e2 st2 201) eqn:F2.
  { run. rewrite <- app_assoc.
    repeat split; try discriminate; try (destruct e2; discriminate).
    eexists. split; [reflexivity | simpl; lia]. }
  apply failed_false in F2. destruct F2 as [-> ->].
  run. rewrite <- app_assoc. split; [|split; [|split]].
  - intros _. exists form, contentType, file, resourceURI.
    rewrite H1. cbn [fst snd]. rewrite H2.
    repeat split; assumption.
  - discriminate.
  - eexists. split; [reflexivity | simpl; lia].
  - reflexivity.
Qed.

Lemma UploadHTTPSCert_true_only_after_both_witness :
  idrac8.calls
    (snd (idrac8.UploadHTTPSCert (answering 201) someIDrac8 "CERT" "cert.pem"
            "KEY" "key.pem" idrac8.emptyWorld))
  = [formRequest someIDrac8 "CERT" "multipart/form-data; boundary=x";
     certRequest (dq +:+ "" +:+ dq)].
Proof.
  pose proof (UploadHTTPSCert_true_only_after_both (answering 201) someIDrac8
                "CERT" "cert.pem" "KEY" "key.pem" idrac8.emptyWorld) as H.
  cbv zeta in H. destruct H as (H & _).
  destruct (H eq_refl) as (form & contentType & file & resourceURI
                           & F & _ & U & Ma & _ & S & _).
  injection F as <- <-. injection U as <-. injection Ma as <-. exact S.
Defined.

(** ** GenerateCSR *)

Lemma QueryEscape_append (a b : string) :
  url.QueryEscape (a +:+ b) = url.QueryEscape a +:+ url.QueryEscape b.
Proof.
  induction a as [|c a IH]; [reflexivity|].
  cbn [String.append url.QueryEscape]. rewrite IH. symmetry. apply append_assoc.
Qed.

Lemma Split_cons (s : string) (sep : ascii) :
  exists l ls, strings.Split s sep = l :: ls.
Proof.
  induction s as [|c s (l & ls & IH)]; cbn [strings.Split].
  - eexists _, _. reflexivity.
  - destruct (Ascii.eqb c sep); [eexists _, _; reflexivity|].
    rewrite IH. eexists _, _. reflexivity.
Qed.

Lemma Join_Split_at040 (s : string) :
  strings.Join (strings.Split s "@") "@040" = at040 s.
Proof.
  induction s as [|c s IH]; [reflexivity|].
  cbn [strings.Split at040].
  destruct (Split_cons s "@") as (l & ls & E).
  rewrite E in *.
  destruct (Ascii.eqb c "@").
  - cbn [strings.Join]. rewrite <- IH. reflexivity.
  - rewrite <- IH. destruct ls as [|x xs]; reflexivity.
Qed.

Lemma allBytes_append (p : ascii -> bool) (a b : string) :
  allBytes p (a +:+ b) = allBytes p a && allBytes p b.
Proof.
  induction a as [|c a IH]; [reflexivity|].
  cbn [String.append allBytes]. rewrite IH. apply andb_assoc.
Qed.

Lemma QueryEscape_querySafe (s : string) :
  allBytes querySafe (url.QueryEscape s) = true.
Proof.
  induction s as [|c s IH]; [reflexivity|].
  cbn [url.QueryEscape]. rewrite allBytes_append, IH, andb_true_r.
  destruct c as [[] [] [] [] [] [] [] []]; vm_compute; reflexivity.
Qed.

Lemma GenerateCSR_query (cert : cfgresources.HTTPSCertAttributes) :
  url.QueryEscape
    ("bindata?set" +:+ "=serverCSR("
     +:+ strings.Join
           [cfgresources.CommonName cert;
            cfgresources.OrganizationName cert;
            cfgresources.OrganizationUnit cert;
            cfgresources.Locality cert;
            cfgresources.StateName cert;
            cfgresources.CountryCode cert;
            strings.Join (strings.Split (cfgresources.Email cert) "@") "@040";
            cfgresources.SubjectAltName cert] "," +:+ ")")
  = csrEndpoint cert.
Proof.
  rewrite Join_Split_at040. unfold csrEndpoint, csrFields.
  cbn [strings.Join map]. rewrite !QueryEscape_append. reflexivity.
Qed.

(** X18: [GenerateCSR] sends one request and enforces its status: it
    returns the body of the answer, with no error, when the answer has
    the status 200 and no transport error; otherwise it returns an empty
    body and an error, the transport error or the one made up for the
    status code, which names [bindata?set] and not what was requested. *)
Theorem GenerateCSR_enforces_status (E : idrac8.Env) (i : idrac8.IDrac8)
    (cert : cfgresources.HTTPSCertAttributes) (w : idrac8.World) :
  let request := idrac8.GET (csrEndpoint cert) in
  let answer := idrac8.http E (idrac8.calls w) request in
  idrac8.calls (snd (idrac8.GenerateCSR E i cert w)) = idrac8.calls w ++ [request]
  /\ (ok200 answer ->
      fst (idrac8.GenerateCSR E i cert w) = (snd (fst answer), None))
  /\ (~ ok200 answer ->
      fst (idrac8.GenerateCSR E i cert w)
      = ("", Some (getError "bindata?set" answer))).
Proof.
  cbv zeta. unfold idrac8.GenerateCSR. rewrite GenerateCSR_query. run.
  unfold ok200, getError.
  destruct (idrac8.http E (idrac8.calls w) _) as [[st body] e]. cbn [fst snd].
  destruct (idrac8.failed e st 200) eqn:F.
  - assert (~ (st = 200 /\ e = None)) as N.
    { intros H. apply failed_false in H. congruence. }
    run. repeat split; try tauto.
  - apply failed_false in F. destruct F as [-> ->].
    run. repeat split; try tauto.
Qed.

Lemma GenerateCSR_enforces_status_witness :
  fst (idrac8.GenerateCSR (answering 500) someIDrac8 someCert idrac8.emptyWorld)
  = ("", Some (idrac8.non200 "bindata?set"))
  /\ fst (idrac8.GenerateCSR (answering 200) someIDrac8 someCert idrac8.emptyWorld)
     = ("", None).
Proof.
  split.
  - apply (GenerateCSR_enforces_status (answering 500) someIDrac8 someCert
             idrac8.emptyWorld).
    intros [H _]. discriminate H.
  - apply (GenerateCSR_enforces_status (answering 200) someIDrac8 someCert
             idrac8.emptyWorld).
    split; reflexivity.
Defined.

(** X19: what [GenerateCSR] requests is escaped as a whole: the request
    holds the fields in a fixed order, each escaped, with every [@] of
    the e-mail address followed by [040]; it holds nothing but letters,
    digits, [-], [_], [.], [~], [%] and [+], so the [?] and the [=] of
    [bindata?set] are sent as [%3F] and [%3D]. *)
Theorem GenerateCSR_request_is_escaped (E : idrac8.Env) (i : idrac8.IDrac8)
    (cert : cfgresources.HTTPSCertAttributes) (w : idrac8.World) :
  idrac8.calls (snd (idrac8.GenerateCSR E i cert w))
  = idrac8.calls w
    ++ [idrac8.GET
          ("bindata%3Fset%3DserverCSR%28"
           +:+ strings.Join (map url.QueryEscape (csrFields cert)) "%2C" +:+ "%29")]
  /\ allBytes querySafe (csrEndpoint cert) = true
  /\ hasByte "?" (csrEndpoint cert) = false.
Proof.
  assert (allBytes querySafe (csrEndpoint cert) = true) as Safe.
  { rewrite <- GenerateCSR_query. apply QueryEscape_querySafe. }
  split; [|split; [exact Safe|]].
  - unfold idrac8.GenerateCSR. rewrite GenerateCSR_query. run.
    destruct (idrac8.http E (idrac8.calls w) _) as [[st body] e].
    destruct (idrac8.failed e st 200); reflexivity.
  - revert Safe. generalize (csrEndpoint cert) as s.
    induction s as [|c s IH]; [reflexivity|].
    cbn [allBytes hasByte]. intros H. apply andb_true_iff in H as [H1 H2].
    rewrite (IH H2), orb_false_r.
    destruct (Ascii.eqb_spec c "?") as [->|]; [discriminate H1 | reflexivity].
Qed.

(** ** User *)

(** X20: [User] gives up before it changes anything when the
    configuration is not valid or the users of the device cannot be read.
    In the first case it makes no call and returns an error whose message
    is the validation error after [User config validation failed: ]; in
    the second its only call is the query, and it returns the error
    [Unable to query existing users.] in place of the error of the
    query. *)
Theorem User_gives_up_early (E : idrac8.Env) (i : idrac8.IDrac8)
    (cfgUsers : list cfgresources.User) (w : idrac8.World) :
  (forall verr,
      idrac8.ValidateUserConfig E cfgUsers = Some verr ->
      fst (idrac8.User E i cfgUsers w)
      = Some (errors_New ("User config validation failed: " +:+ Error verr))
      /\ idrac8.calls (snd (idrac8.User E i cfgUsers w)) = idrac8.calls w)
  /\ (forall idracUsers qerr,
      idrac8.ValidateUserConfig E cfgUsers = None ->
      idrac8.queryUsers_result E (idrac8.calls w) = (idracUsers, Some qerr) ->
      fst (idrac8.User E i cfgUsers w)
      = Some (errors_New "Unable to query existing users.")
      /\ idrac8.calls (snd (idrac8.User E i cfgUsers w))
         = idrac8.calls w ++ [idrac8.QueryUsers]).
Proof.
  split.
  - intros verr V. unfold idrac8.User. rewrite V. run. split; reflexivity.
  - intros idracUsers qerr V Q. unfold idrac8.User. rewrite V.
    unfold idrac8.queryUsers. run. rewrite Q. run. split; reflexivity.
Qed.

Lemma User_gives_up_early_witness :
  fst (idrac8.User (rejecting (errors_New "User resource expects parameter: Name."))
         someIDrac8 [cfgUser "" true] idrac8.emptyWorld)
  = Some (errors_New
            "User config validation failed: User resource expects parameter: Name.").
Proof.
  exact (proj1 (proj1 (User_gives_up_early
                         (rejecting (errors_New "User resource expects parameter: Name."))
                         someIDrac8 [cfgUser "" true] idrac8.emptyWorld)
                  (errors_New "User resource expects parameter: Name.") eq_refl)).
Defined.

(** X21: the round of [User] for an enabled user.  A user that the device
    knows is updated in its slot, a new one is put into the free slot
    that the device offers; without a free slot nothing is sent and the
    error of the lookup is the result.  What is sent is the name and the
    password of the configuration, enabled, with the privilege 511 and
    [Administrator] for the role [admin], and 499 and [Operator] for every
    other role. *)
Theorem userRound_enabled (E : idrac8.Env) (i : idrac8.IDrac8)
    (idracUsers : idrac8.UserInfo) (err : option error)
    (cfgUser : cfgresources.User) (w : idrac8.World) :
  cfgresources.User_Enable cfgUser = true ->
  let '(userID, _, uExists) :=
    idrac8.userInIdrac E (cfgresources.User_Name cfgUser) idracUsers in
  let '(slotID, _, slotErr) := idrac8.getEmptyUserSlot E idracUsers in
  let round := idrac8.userRound E i idracUsers err cfgUser w in
  match (if uExists then None else slotErr) with
  | Some e => fst round = Some e /\ idrac8.calls (snd round) = idrac8.calls w
  | None =>
      exists info,
        idrac8.calls (snd round)
        = idrac8.calls w ++ [idrac8.PutUser (if uExists then userID else slotID) info]
        /\ fst round
           = idrac8.putUser_result E (idrac8.calls w)
               (if uExists then userID else slotID) info
        /\ idrac8.UserName info = cfgresources.User_Name cfgUser
        /\ idrac8.Password info = cfgresources.User_Password cfgUser
        /\ idrac8.Enable info = "Enabled"
        /\ idrac8.SolEnable info = "Enabled"
        /\ (cfgresources.User_Role cfgUser = "admin" ->
            idrac8.Privilege info = "511"
            /\ idrac8.IpmiLanPrivilege info = "Administrator")
        /\ (cfgresources.User_Role cfgUser <> "admin" ->
            idrac8.Privilege info = "499"
            /\ idrac8.IpmiLanPrivilege info = "Operator")
  end.
Proof.
  intros En. unfold idrac8.userRound. rewrite En.
  destruct (idrac8.userInIdrac E _ idracUsers) as [[userID userInfo] uExists].
  destruct (idrac8.getEmptyUserSlot E idracUsers) as [[slotID slotInfo] slotErr].
  assert (cfgresources.User_Role cfgUser = "admin"
          -> String.eqb (cfgresources.User_Role cfgUser) "admin" = true) as A1.
  { intros ->. reflexivity. }
  assert (cfgresources.User_Role cfgUser <> "admin"
          -> String.eqb (cfgresources.User_Role cfgUser) "admin" = false) as A2.
  { intros N. destruct (String.eqb_spec (cfgresources.User_Role cfgUser) "admin");
      congruence. }
  destruct uExists; cbn [negb]; [|destruct slotErr as [e|]].
  2: { run. split; reflexivity. }
  all: unfold idrac8.putUser; run.
  all: match goal with
       | |- context [idrac8.putUser_result ?E0 ?sent ?target ?info] =>
           exists info; destruct (idrac8.putUser_result E0 sent target info); run
       end.
  all: repeat split; cbn [idrac8.Privilege idrac8.IpmiLanPrivilege];
    match goal with
    | A : ?role = "admin" -> _, H : ?role = "admin" |- _ => rewrite (A H); reflexivity
    | A : ?role <> "admin" -> _, H : ?role <> "admin" |- _ => rewrite (A H); reflexivity
    end.
Qed.

Lemma userRound_enabled_witness :
  exists info,
    idrac8.calls
      (snd (idrac8.userRound putFailsForAlice someIDrac8 [(2, emptyUser)] None
              (cfgUser "bob" true) idrac8.emptyWorld))
    = [idrac8.PutUser 2 info]
    /\ idrac8.Privilege info = "511".
Proof.
  pose proof (userRound_enabled putFailsForAlice someIDrac8 [(2, emptyUser)] None
                (cfgUser "bob" true) idrac8.emptyWorld eq_refl) as H.
  cbn in H. destruct H as (info & C & _ & _ & _ & _ & _ & A & _).
  exists info. split; [exact C | exact (proj1 (A eq_refl))].
Defined.

(** X22: the round of [User] for a user that is not enabled.  A user that
    the device knows is disabled in its slot: its name is sent with the
    password that the device reported, disabled, with the privilege 0 and
    [No Access]; the result is the result of that call.  For a user that
    the device does not know nothing is sent, and the result is what the
    rounds before left. *)
Theorem userRound_disabled (E : idrac8.Env) (i : idrac8.IDrac8)
    (idracUsers : idrac8.UserInfo) (err : option error)
    (cfgUser : cfgresources.User) (w : idrac8.World) :
  cfgresources.User_Enable cfgUser = false ->
  let '(userID, deviceInfo, uExists) :=
    idrac8.userInIdrac E (cfgresources.User_Name cfgUser) idracUsers in
  let round := idrac8.userRound E i idracUsers err cfgUser w in
  let info :=
    {| idrac8.UserName := cfgresources.User_Name cfgUser;
       idrac8.Password := idrac8.Password deviceInfo;
       idrac8.Enable := "Disabled";
       idrac8.SolEnable := "Disabled";
       idrac8.Privilege := "0";
       idrac8.IpmiLanPrivilege := "No Access" |} in
  if uExists then
    idrac8.calls (snd round) = idrac8.calls w ++ [idrac8.PutUser userID info]
    /\ fst round = idrac8.putUser_result E (idrac8.calls w) userID info
  else
    idrac8.calls (snd round) = idrac8.calls w /\ fst round = err.
Proof.
  intros En. unfold idrac8.userRound. rewrite En.
  destruct (idrac8.userInIdrac E _ idracUsers) as [[userID deviceInfo] uExists].
  destruct uExists.
  - unfold idrac8.putUser. run.
    destruct (idrac8.putUser_result E _ _ _); run; split; reflexivity.
  - run. split; reflexivity.
Qed.

Lemma userRound_disabled_witness :
  idrac8.calls
    (snd (idrac8.userRound putFailsForAlice someIDrac8 [(2, emptyUser)]
            (Some (errors_New "Put request failed.")) (cfgUser "bob" false)
            idrac8.emptyWorld))
  = []
  /\ fst (idrac8.userRound putFailsForAlice someIDrac8 [(2, emptyUser)]
            (Some (errors_New "Put request failed.")) (cfgUser "bob" false)
            idrac8.emptyWorld)
     = Some (errors_New "Put request failed.").
Proof.
  exact (userRound_disabled putFailsForAlice someIDrac8 [(2, emptyUser)]
           (Some (errors_New "Put request failed.")) (cfgUser "bob" false)
           idrac8.emptyWorld eq_refl).
Defined.

(** ** LdapGroups *)

Section GroupLoop.

Variable E : idrac8.Env.
Variable i : idrac8.IDrac8.

(** A round for a group that is skipped changes nothing; a round for an
    applicable group either ends [LdapGroups] with an error, having sent
    nothing or the request for the group, or sends the request for the
    group in the current slot and moves on to the next slot. *)
Lemma groupRound_effect (st : idrac8.groupState) (group : cfgresources.LdapGroup)
    (w : idrac8.World) :
  let r := fst (idrac8.groupRound E i st group w) in
  let sent := idrac8.calls (snd (idrac8.groupRound E i st group w)) in
  if applicable group then
    match r with
    | inr st' =>
        sent = idrac8.calls w ++ [groupRequest (idrac8.groupID st) group]
        /\ idrac8.groupID st' = idrac8.groupID st + 1
    | inl err =>
        err <> None
        /\ (sent = idrac8.calls w
            \/ sent = idrac8.calls w ++ [groupRequest (idrac8.groupID st) group])
    end
  else r = inr st /\ sent = idrac8.calls w.
Proof.
  cbv zeta. unfold idrac8.groupRound, applicable.
  destruct (cfgresources.LdapGroup_Enable group); cbn [negb andb];
    [|split; reflexivity].
  destruct (idrac8.isEmpty (cfgresources.LdapGroup_Role group)); cbn [negb];
    [run; split; reflexivity|].
  destruct (idrac8.isEmpty (cfgresources.LdapGroup_Group group));
    [run; split; [discriminate | left; reflexivity]|].
  destruct (idrac8.isEmpty (cfgresources.LdapGroup_GroupBaseDn group));
    [run; split; [discriminate | left; reflexivity]|].
  destruct (idrac8.IsRoleValid E (cfgresources.LdapGroup_Role group)); cbn [negb];
    [|run; split; [discriminate | left; reflexivity]].
  run. fold (groupRequest (idrac8.groupID st) group).
  destruct (idrac8.http E (idrac8.calls w) _) as [[statusCode response] err].
  destruct (idrac8.failed err statusCode 200); run.
  - split; [discriminate | right; reflexivity].
  - split; reflexivity.
Qed.

Lemma groupLoop_effect (cfgGroups : list cfgresources.LdapGroup) :
  forall (st : idrac8.groupState) (w : idrac8.World),
    let r := fst (idrac8.groupLoop E i st cfgGroups w) in
    let sent := idrac8.calls (snd (idrac8.groupLoop E i st cfgGroups w)) in
    match r with
    | inr st' =>
        sent = idrac8.calls w ++ groupRequests (idrac8.groupID st) cfgGroups
        /\ idrac8.groupID st'
           = idrac8.groupID st + Z.of_nat (length (filter applicable cfgGroups))
    | inl err =>
        err <> None
        /\ exists n,
             sent = idrac8.calls w
                    ++ firstn n (groupRequests (idrac8.groupID st) cfgGroups)
    end.
Proof.
  induction cfgGroups as [|group rest IH]; intros st w; cbv zeta.
  - cbn. rewrite app_nil_r. split; [reflexivity | lia].
  - cbn [idrac8.groupLoop groupRequests filter]. unfold idrac8.bind.
    pose proof (groupRound_effect st group w) as R. cbv zeta in R.
    destruct (idrac8.groupRound E i st group w) as [r w1]. cbn [fst snd] in R.
    destruct (applicable group).
    + destruct r as [err|st1].
      * destruct R as [N [C|C]]; unfold idrac8.ret; cbn [fst snd];
          (split; [exact N|]).
        -- exists 0%nat. rewrite C. cbn. symmetry. apply app_nil_r.
        -- exists 1%nat. rewrite C. reflexivity.
      * destruct R as [C G]. specialize (IH st1 w1). cbv zeta in IH.
        destruct (idrac8.groupLoop E i st1 rest w1) as [r2 w2]. cbn [fst snd] in *.
        rewrite G in IH. destruct r2 as [err|st2].
        -- destruct IH as [N [n Sent]]. split; [exact N|].
           exists (S n). rewrite Sent, C, <- app_assoc. reflexivity.
        -- destruct IH as [Sent G2]. rewrite Sent, C, <- app_assoc.
           split; [reflexivity|].
           rewrite G2. cbn [length]. lia.
    + destruct R as [-> C]. specialize (IH st w1). cbv zeta in IH.
      destruct (idrac8.groupLoop E i st rest w1) as [r2 w2]. cbn [fst snd] in *.
      rewrite C in IH. exact IH.
Qed.

End GroupLoop.

Lemma applyLdapRoleGroupPrivParam_effect (E : idrac8.Env) (i : idrac8.IDrac8)
    (cfg : cfgresources.Ldap) (groupPrivilegeParam : string) (w : idrac8.World) :
  exists settings,
    let payload :=
      settings +:+ groupPrivilegeParam
      +:+ "xGLServerPort:" +:+ strconv.Itoa (cfgresources.Ldap_Port cfg) in
    idrac8.calls (snd (idrac8.applyLdapRoleGroupPrivParam E i cfg groupPrivilegeParam w))
    = idrac8.calls w ++ [idrac8.POST "postset?ldapconf" payload ""]
    /\ fst (idrac8.applyLdapRoleGroupPrivParam E i cfg groupPrivilegeParam w)
       = snd (idrac8.http E (idrac8.calls w) (idrac8.POST "postset?ldapconf" payload "")).
Proof.
  unfold idrac8.applyLdapRoleGroupPrivParam. run.
  rewrite (append_assoc _ groupPrivilegeParam _).
  match goal with
  | |- context [idrac8.http E (idrac8.calls w)
                  (idrac8.POST _ (?settings +:+ groupPrivilegeParam +:+ _) _)] =>
      exists settings; cbv zeta
  end.
  destruct (idrac8.http E (idrac8.calls w) _) as [[code body] err].
  destruct (idrac8.failed err code 200); run; split; reflexivity.
Qed.

(** X23: [LdapGroups] numbers the slots by the groups it does not skip:
    the first enabled group with a role goes to slot 1, the next one to
    slot 2, and so on, whatever their places in the list, and past slot 5
    when there are more than five.  What it sends is a beginning of these
    requests, each with the escaped name of its group, followed by at most
    one request to [postset?ldapconf], which is sent only after all of
    them; when it returns nil, it has sent all of them and that
    request. *)
Theorem LdapGroups_numbers_slots (E : idrac8.Env) (i : idrac8.IDrac8)
    (cfgGroups : list cfgresources.LdapGroup) (cfgLdap : cfgresources.Ldap)
    (w : idrac8.World) :
  let result := fst (idrac8.LdapGroups E i cfgGroups cfgLdap w) in
  let sent := idrac8.calls (snd (idrac8.LdapGroups E i cfgGroups cfgLdap w)) in
  (exists n last,
      sent = idrac8.calls w ++ firstn n (groupRequests 1 cfgGroups) ++ last
      /\ (last = []
          \/ exists payload,
               last = [idrac8.POST "postset?ldapconf" payload ""]
               /\ firstn n (groupRequests 1 cfgGroups) = groupRequests 1 cfgGroups))
  /\ (result = None ->
      exists payload,
        sent = idrac8.calls w ++ groupRequests 1 cfgGroups
               ++ [idrac8.POST "postset?ldapconf" payload ""]).
Proof.
  cbv zeta. unfold idrac8.LdapGroups.
  assert (exists n last,
             idrac8.calls w
             = idrac8.calls w ++ firstn n (groupRequests 1 cfgGroups) ++ last
             /\ (last = []
                 \/ exists payload,
                      last = [idrac8.POST "postset?ldapconf" payload ""]
                      /\ firstn n (groupRequests 1 cfgGroups)
                         = groupRequests 1 cfgGroups)) as Nothing.
  { exists 0%nat, []. cbn. rewrite app_nil_r. auto. }
  destruct (cfgresources.Ldap_Port cfgLdap =? 0);
    [run; split; [exact Nothing | discriminate]|].
  destruct (idrac8.isEmpty (cfgresources.Ldap_BaseDn cfgLdap));
    [run; split; [exact Nothing | discriminate]|].
  destruct (idrac8.isEmpty (cfgresources.Ldap_UserAttribute cfgLdap));
    [run; split; [exact Nothing | discriminate]|].
  destruct (idrac8.isEmpty (cfgresources.Ldap_GroupAttribute cfgLdap));
    [run; split; [exact Nothing | discriminate]|].
  clear Nothing. unfold idrac8.bind.
  pose proof (groupLoop_effect E i cfgGroups
                {| idrac8.groupID := 1; idrac8.privID := "0";
                   idrac8.groupPrivilegeParam := "" |} w) as L.
  cbv zeta in L.
  destruct (idrac8.groupLoop E i _ cfgGroups w) as [[err|st] w1].
  - cbn [fst snd idrac8.groupID] in L. destruct L as [N [n S]].
    unfold idrac8.ret. cbn [fst snd]. split.
    + exists n, []. rewrite app_nil_r. auto.
    + intros R. contradiction.
  - cbn [fst snd idrac8.groupID] in L. destruct L as [S _].
    destruct (applyLdapRoleGroupPrivParam_effect E i cfgLdap
                (idrac8.restPrivileges (Z.to_nat (6 - idrac8.groupID st))
                   (idrac8.groupID st) (idrac8.groupPrivilegeParam st)) w1)
      as (settings & C & _).
    cbv zeta in C.
    destruct (idrac8.applyLdapRoleGroupPrivParam E i cfgLdap _ w1) as [[e|] w2];
      run; cbn [fst snd] in C; rewrite C, S, <- app_assoc.
    + split; [|discriminate].
      eexists (length (groupRequests 1 cfgGroups)), [_].
      rewrite firstn_all. split; [reflexivity|]. right. eexists. auto.
    + split; [|intros _; eexists; reflexivity].
      eexists (length (groupRequests 1 cfgGroups)), [_].
      rewrite firstn_all. split; [reflexivity|]. right. eexists. auto.
Qed.

Lemma LdapGroups_numbers_slots_witness :
  exists payload,
    idrac8.calls
      (snd (idrac8.LdapGroups (answering 200) someIDrac8
              [ldapGroup "admin" "cn=old" false; ldapGroup "admin" "cn=admins" true;
               ldapGroup "" "cn=none" true; ldapGroup "user" "cn=users" true]
              (ldapWith 636 "dc=example,dc=com" "uid" "memberUid") idrac8.emptyWorld))
    = [] ++ [idrac8.GET ("data?set=xGLGroup1Name:cn%5C%3Dadmins%5C%2Cou%5C%3DGroup"
                         +:+ "%5C%2Cdc%5C%3Dexample%5C%2Cdc%5C%3Dcom");
             idrac8.GET ("data?set=xGLGroup2Name:cn%5C%3Dusers%5C%2Cou%5C%3DGroup"
                         +:+ "%5C%2Cdc%5C%3Dexample%5C%2Cdc%5C%3Dcom")]
       ++ [idrac8.POST "postset?ldapconf" payload ""].
Proof.
  pose proof (LdapGroups_numbers_slots (answering 200) someIDrac8
                [ldapGroup "admin" "cn=old" false; ldapGroup "admin" "cn=admins" true;
                 ldapGroup "" "cn=none" true; ldapGroup "user" "cn=users" true]
                (ldapWith 636 "dc=example,dc=com" "uid" "memberUid")
                idrac8.emptyWorld) as H.
  cbv zeta in H. destruct H as [_ H].
  assert (fst (idrac8.LdapGroups (answering 200) someIDrac8
                 [ldapGroup "admin" "cn=old" false; ldapGroup "admin" "cn=admins" true;
                  ldapGroup "" "cn=none" true; ldapGroup "user" "cn=users" true]
                 (ldapWith 636 "dc=example,dc=com" "uid" "memberUid")
                 idrac8.emptyWorld) = None) as R.
  { vm_compute. reflexivity. }
  destruct (H R) as [payload P]. exists payload. exact P.
Defined.

Lemma groupLoop_skips (E : idrac8.Env) (i : idrac8.IDrac8)
    (cfgGroups : list cfgresources.LdapGroup) (st : idrac8.groupState)
    (w : idrac8.World) :
  forallb (fun group => negb (applicable group)) cfgGroups = true ->
  fst (idrac8.groupLoop E i st cfgGroups w) = inr st
  /\ idrac8.calls (snd (idrac8.groupLoop E i st cfgGroups w)) = idrac8.calls w.
Proof.
  revert w. induction cfgGroups as [|group rest IH]; intros w A.
  - split; reflexivity.
  - cbn [forallb] in A. apply andb_true_iff in A as [A1 A2].
    cbn [idrac8.groupLoop]. unfold idrac8.bind.
    pose proof (groupRound_effect E i st group w) as R. cbv zeta in R.
    destruct (applicable group); [discriminate A1|].
    destruct (idrac8.groupRound E i st group w) as [r w1]. cbn [fst snd] in R.
    destruct R as [-> C]. rewrite <- C. apply (IH w1 A2).
Qed.

(** X24: called with a valid LDAP configuration and no group that is
    enabled and has a role, [LdapGroups] sends one request, which sets
    the privileges of all five group slots to 0 and the port of the
    configuration; it returns the transport error of that request, if
    any. *)
Theorem LdapGroups_clears_privileges (E : idrac8.Env) (i : idrac8.IDrac8)
    (cfgGroups : list cfgresources.LdapGroup) (cfgLdap : cfgresources.Ldap)
    (w : idrac8.World) :
  cfgresources.Ldap_Port cfgLdap <> 0 ->
  cfgresources.Ldap_BaseDn cfgLdap <> "" ->
  cfgresources.Ldap_UserAttribute cfgLdap <> "" ->
  cfgresources.Ldap_GroupAttribute cfgLdap <> "" ->
  forallb (fun group => negb (applicable group)) cfgGroups = true ->
  exists settings,
    let request :=
      idrac8.POST "postset?ldapconf"
        (settings
         +:+ "xGLGroup1Priv:0,xGLGroup2Priv:0,xGLGroup3Priv:0,xGLGroup4Priv:0,xGLGroup5Priv:0,"
         +:+ "xGLServerPort:" +:+ strconv.Itoa (cfgresources.Ldap_Port cfgLdap)) "" in
    idrac8.calls (snd (idrac8.LdapGroups E i cfgGroups cfgLdap w))
    = idrac8.calls w ++ [request]
    /\ fst (idrac8.LdapGroups E i cfgGroups cfgLdap w)
       = snd (idrac8.http E (idrac8.calls w) request).
Proof.
  intros P B U G A. unfold idrac8.LdapGroups.
  apply Z.eqb_neq in P. rewrite P.
  rewrite (isEmpty_false _ B), (isEmpty_false _ U), (isEmpty_false _ G).
  unfold idrac8.bind.
  destruct (groupLoop_skips E i cfgGroups
              {| idrac8.groupID := 1; idrac8.privID := "0";
                 idrac8.groupPrivilegeParam := "" |} w A) as [R C].
  destruct (idrac8.groupLoop E i _ cfgGroups w) as [r w1]. cbn [fst snd] in R, C.
  subst r. cbn [idrac8.groupID idrac8.groupPrivilegeParam].
  change (idrac8.restPrivileges (Z.to_nat (6 - 1)) 1 "")
    with "xGLGroup1Priv:0,xGLGroup2Priv:0,xGLGroup3Priv:0,xGLGroup4Priv:0,xGLGroup5Priv:0,".
  destruct (applyLdapRoleGroupPrivParam_effect E i cfgLdap
              "xGLGroup1Priv:0,xGLGroup2Priv:0,xGLGroup3Priv:0,xGLGroup4Priv:0,xGLGroup5Priv:0,"
              w1) as (settings & S & F).
  cbv zeta in S, F. exists settings. cbv zeta. rewrite C in S, F.
  destruct (idrac8.applyLdapRoleGroupPrivParam E i cfgLdap _ w1) as [[e|] w2];
    run; cbn [fst snd] in S, F; split; assumption.
Qed.

Lemma LdapGroups_clears_privileges_witness :
  exists settings,
    idrac8.calls
      (snd (idrac8.LdapGroups (answering 200) someIDrac8 [ldapGroup "" "cn=none" true]
              (ldapWith 636 "dc=example,dc=com" "uid" "memberUid") idrac8.emptyWorld))
    = [idrac8.POST "postset?ldapconf"
         (settings
          +:+ "xGLGroup1Priv:0,xGLGroup2Priv:0,xGLGroup3Priv:0,xGLGroup4Priv:0,xGLGroup5Priv:0,"
          +:+ "xGLServerPort:" +:+ "636") ""].
Proof.
  destruct (LdapGroups_clears_privileges (answering 200) someIDrac8
              [ldapGroup "" "cn=none" true]
              (ldapWith 636 "dc=example,dc=com" "uid" "memberUid") idrac8.emptyWorld)
    as (settings & S & _); try discriminate; try reflexivity.
  exists settings. exact S.
Defined.

(** * Required fields and the network *)





